(** * DrawingBench: the action-log evaluator ([src/evaluator.py])

    A shallow embedding of [DrawingEvaluator.evaluate] and of the passes it
    calls, followed by the properties of the evaluation engine.

    Modelling decisions, fixed here once:

    - Action logs arrive from [json.load]; a Python value is a [pyval]
      (null, bool, int, float, str, list, object with string keys).
    - Python numbers are exact rationals ([Q]).  Binary rounding error, NaN
      and the infinities are outside the model; [round], [int] and the
      comparisons are the exact ones.
    - The functions that only exist on floats ([np.sqrt], [np.cos],
      [np.sin], the constant [np.pi], [** 0.5], and [float] applied to a
      string) are variables of the development: no property below depends
      on what they compute, unless it says so in a hypothesis (a square
      root that is never negative, for the range of the spatial accuracy).
    - Python exceptions are values: a pass either returns [Ok v] or
      [Raise e]; the passes run in the order of the source, so the first
      exception is the one that escapes [evaluate].
    - Diagnostics carry their formatted text as a structured [message]
      (template plus arguments) instead of the rendered f-string; likewise
      [generate_feedback] returns its lines before they are joined.
    - [UI_CONFIG.json] is not part of the sources: the evaluator object
      ([DrawingEvaluator]) is a parameter of every function, as [self] is.
      The passes only read it: the source assigns attributes in [__init__]
      and nowhere else, and has no module-level state.
    - A set is its elements, each once; where the source turns a set into
      a list ([list(used)], [list(missing_colors)]) the order is a variable
      of the development, as it follows the string hashing of the
      process. *)

From Stdlib Require Import ZArith QArith Qround Qabs Qminmax Lqa Lia.
From Stdlib Require Import String Ascii List Bool.
From stdpp Require Import base gmap sets strings list.

Local Open Scope string_scope.
Local Open Scope list_scope.
Local Open Scope Q_scope.

(** ** Python values *)

#[local] Set Warnings "-register-all".

Inductive pyval : Type :=
| VNone
| VBool (b : bool)
| VInt (n : Z)
| VFloat (q : Q)
| VStr (s : string)
| VList (l : list pyval)
| VDict (d : list (string * pyval)).

(** A Python [dict] with string keys, in insertion order. *)
Definition pydict (V : Type) : Type := list (string * V).

(** An action is a JSON object. *)
Definition adict : Type := pydict pyval.

Fixpoint dict_get {V} (d : pydict V) (k : string) : option V :=
  match d with
  | [] => None
  | (k', v) :: d' => if String.eqb k' k then Some v else dict_get d' k
  end.

(** [d[k] = v]: overwrite in place when the key exists, append otherwise. *)
Fixpoint dict_set {V} (d : pydict V) (k : string) (v : V) : pydict V :=
  match d with
  | [] => [(k, v)]
  | (k', v') :: d' =>
      if String.eqb k' k then (k, v) :: d' else (k', v') :: dict_set d' k v
  end.

(** [k in d] *)
Definition dict_has {V} (d : pydict V) (k : string) : bool :=
  match dict_get d k with Some _ => true | None => false end.

(** [d.get(k, dflt)] *)
Definition get_or (d : adict) (k : string) (dflt : pyval) : pyval :=
  match dict_get d k with Some v => v | None => dflt end.

(** [d.get(k)] *)
Definition get_none (d : adict) (k : string) : pyval := get_or d k VNone.

(** [action.get("action") == name] *)
Definition act_is (a : adict) (name : string) : bool :=
  match dict_get a "action" with
  | Some (VStr t) => String.eqb t name
  | _ => false
  end.

(** ["x" in action and "y" in action] *)
Definition has_xy (a : adict) : bool := dict_has a "x" && dict_has a "y".

(** [i + 1 < len(actions) and actions[i + 1].get("action") == "click"],
    where [rest] is [actions[i+1:]]. *)
Definition next_is_click (rest : list adict) : bool :=
  match rest with
  | [] => false
  | a :: _ => act_is a "click"
  end.

(** Python truthiness ([if v], [not v]). *)
Definition truthy (v : pyval) : bool :=
  match v with
  | VNone => false
  | VBool b => b
  | VInt n => negb (n =? 0)%Z
  | VFloat q => negb (Qeq_bool q 0)
  | VStr s => negb (String.eqb s "")
  | VList l => match l with [] => false | _ => true end
  | VDict d => match d with [] => false | _ => true end
  end.

(** ** Exceptions *)

Inductive exn : Type :=
| AttributeError
| TypeError
| ValueError
| ZeroDivisionError.

Inductive result (A : Type) : Type :=
| Ok (a : A)
| Raise (e : exn).
Arguments Ok {A} a.
Arguments Raise {A} e.

Definition bind {A B} (m : result A) (k : A -> result B) : result B :=
  match m with
  | Ok a => k a
  | Raise e => Raise e
  end.

Notation "'let*' x ':=' m 'in' k" := (bind m (fun x => k))
  (at level 10, x pattern, m at level 100, k at level 200).

(** ** Numbers *)

(** The numeric value of an operand of [-], [<], [<=] against a number:
    [bool], [int] and [float] are numbers, everything else is a
    [TypeError]. *)
Definition num (v : pyval) : result Q :=
  match v with
  | VBool b => Ok (if b then 1 else 0)
  | VInt n => Ok (inject_Z n)
  | VFloat q => Ok q
  | _ => Raise TypeError
  end.

(** [a / b] on numbers. *)
Definition pdiv (a b : Q) : result Q :=
  if Qeq_bool b 0 then Raise ZeroDivisionError else Ok (a / b).

(** [int(q)]: truncation towards zero. *)
Definition py_int (q : Q) : Z :=
  if Qle_bool 0 q then Qfloor q else Qceiling q.

(** Round half to even, to an integer. *)
Definition round_half_even (q : Q) : Z :=
  let f := Qfloor q in
  let r := q - inject_Z f in
  match Qcompare r (1 # 2) with
  | Lt => f
  | Gt => (f + 1)%Z
  | Eq => if Z.even f then f else (f + 1)%Z
  end.

(** [round(q, nd)] *)
Definition py_round (q : Q) (nd : nat) : Q :=
  let s := (10 ^ Z.of_nat nd)%Z in
  Qred (Qmake (round_half_even (q * inject_Z s)) (Z.to_pos s)).

Definition Qleb (a b : Q) : bool := Qle_bool a b.
Definition Qltb (a b : Q) : bool := negb (Qle_bool b a).

Definition Qmax (a b : Q) : Q := if Qleb a b then b else a.
Definition Qmin (a b : Q) : Q := if Qleb a b then a else b.

(** ** Strings *)

Definition lower_ascii (c : ascii) : ascii :=
  let n := nat_of_ascii c in
  if (65 <=? n)%nat && (n <=? 90)%nat then ascii_of_nat (n + 32) else c.

(** [s.lower()] on ASCII text. *)
Fixpoint str_lower (s : string) : string :=
  match s with
  | EmptyString => EmptyString
  | String c s' => String (lower_ascii c) (str_lower s')
  end.

(** [needle in hay] *)
Fixpoint str_contains (needle hay : string) : bool :=
  String.prefix needle hay ||
  match hay with
  | EmptyString => false
  | String _ hay' => str_contains needle hay'
  end.

(** [s.startswith(p)] *)
Definition str_startswith (p s : string) : bool := String.prefix p s.

(** [s.endswith(suf)] *)
Fixpoint str_endswith (suf s : string) : bool :=
  String.eqb s suf ||
  match s with
  | EmptyString => false
  | String _ s' => str_endswith suf s'
  end.

(** [s.replace(old, "")] for a non-empty [old]: the occurrences are
    removed from left to right, without overlap.  [skip] counts the
    characters of the current occurrence still to drop. *)
Fixpoint str_remove_aux (old : string) (skip : nat) (s : string) : string :=
  match s with
  | EmptyString => EmptyString
  | String c s' =>
      match skip with
      | S n => str_remove_aux old n s'
      | O =>
          if String.prefix old s
          then str_remove_aux old (String.length old - 1) s'
          else String c (str_remove_aux old 0 s')
      end
  end.

Definition str_remove (old s : string) : string := str_remove_aux old 0 s.

Definition str_in (s : string) (l : list string) : bool :=
  existsb (String.eqb s) l.

(** ** The evaluator object and its diagnostics *)

(** The fields [__init__] fills from the layout descriptor.
    [tool_positions] is a dict (tool name to hit-centre), [color_positions]
    a list of [(x, y, hex)] in declaration order. *)
Record DrawingEvaluator : Type := {
  canvas_width : Q;
  canvas_height : Q;
  canvas_offset_x : Q;
  canvas_offset_y : Q;
  color_positions : list (Q * Q * string);
  tool_positions : pydict (Q * Q);
  tolerance : Q
}.

Inductive diag_type : Type :=
| SYNTAX_ERROR
| COORDINATE_ERROR
| EFFICIENCY_WARNING
| LOGIC_ERROR.

Inductive bounds_kind : Type := screen_bounds | canvas_bounds.

(** Which side of the valid range a coordinate fell on. *)
Inductive axis_problem : Type := BelowRange | AboveRange.

(** One line of [_get_action_sequence_context]: index, action name,
    coordinates when both are present, and the error marker. *)
Record context_line : Type := {
  cl_index : nat;
  cl_action : pyval;
  cl_coords : option (pyval * pyval);
  cl_marked : bool
}.

(** The text built by [_build_coordinate_error_context]. *)
Record coord_context : Type := {
  cc_kind : bounds_kind;
  cc_index : nat;
  cc_action : pyval;
  cc_x : Q;
  cc_y : Q;
  cc_x_problem : option axis_problem;
  cc_y_problem : option axis_problem;
  cc_sequence : list context_line
}.

Inductive message : Type :=
| MsgActionsMustBeList
| MsgMissingActionField
| MsgRequiresXY (action_type : pyval)
| MsgUnknownActionType (action_type : pyval)
| MsgInvalidCoordinateTypes (i : nat) (x y action : pyval)
| MsgCoordinate (ctx : coord_context)
| MsgHighActionCount (n : nat)
| MsgConsecutiveMoveTo (i : nat)
| MsgUnmatched (down_count up_count : nat).

Record diag : Type := {
  d_type : diag_type;
  d_index : option Z;
  d_message : message
}.

(** ** Action Stream Validator *)

(** [counts[k] += 1] *)
Definition dict_incr (counts : pydict nat) (k : string) : pydict nat :=
  match dict_get counts k with
  | Some n => dict_set counts k (S n)
  | None => counts
  end.

Definition zero_counts : pydict nat :=
  [("moveTo", 0%nat); ("click", 0%nat); ("mouseDown", 0%nat);
   ("mouseUp", 0%nat); ("unknown", 0%nat)].

(** The loop of [_count_actions].  [action.get] exists on dicts only, and
    [action_type in counts] hashes [action_type]. *)
Fixpoint count_actions_loop (counts : pydict nat) (actions : list pyval)
  : result (pydict nat) :=
  match actions with
  | [] => Ok counts
  | VDict action :: rest =>
      match get_or action "action" (VStr "unknown") with
      | VList _ | VDict _ => Raise TypeError
      | VStr action_type =>
          if dict_has counts action_type
          then count_actions_loop (dict_incr counts action_type) rest
          else count_actions_loop (dict_incr counts "unknown") rest
      | _ => count_actions_loop (dict_incr counts "unknown") rest
      end
  | _ :: _ => Raise AttributeError
  end.

Definition _count_actions (actions : list pyval) : result (pydict nat) :=
  count_actions_loop zero_counts actions.

(** The elements of an action list that are objects.  Once
    [_count_actions] has returned, these are all the elements. *)
Fixpoint dicts_of (actions : list pyval) : list adict :=
  match actions with
  | [] => []
  | VDict d :: rest => d :: dicts_of rest
  | _ :: rest => dicts_of rest
  end.

Definition is_str (v : pyval) (s : string) : bool :=
  match v with VStr t => String.eqb t s | _ => false end.

Definition valid_actions : list string :=
  ["moveTo"; "click"; "mouseDown"; "mouseUp"].

Definition syntax_error (i : nat) (m : message) : diag :=
  {| d_type := SYNTAX_ERROR; d_index := Some (Z.of_nat i); d_message := m |}.

(** The body of the loop of [_check_syntax_errors] for the action at
    index [i]. *)
Definition syntax_errors_at (i : nat) (action : adict) : list diag :=
  match dict_get action "action" with
  | None => [syntax_error i MsgMissingActionField]
  | Some action_type =>
      (if is_str action_type "moveTo" && negb (has_xy action)
       then [syntax_error i (MsgRequiresXY action_type)] else [])
      ++
      (if existsb (is_str action_type) valid_actions
       then [] else [syntax_error i (MsgUnknownActionType action_type)])
  end.

Fixpoint check_syntax_errors_from (i : nat) (actions : list adict) : list diag :=
  match actions with
  | [] => []
  | action :: rest =>
      syntax_errors_at i action ++ check_syntax_errors_from (S i) rest
  end.

Definition _check_syntax_errors (actions : list adict) : list diag :=
  check_syntax_errors_from 0 actions.

(** [_get_action_sequence_context(index, actions)], with the default
    [context_range] of 2. *)
Definition context_line_of (index i : nat) (action : adict) : context_line :=
  {| cl_index := i;
     cl_action := get_none action "action";
     cl_coords :=
       if has_xy action
       then Some (get_none action "x", get_none action "y") else None;
     cl_marked := (i =? index)%nat |}.

Definition _get_action_sequence_context (index : nat) (actions : list adict)
  : list context_line :=
  let start := (index - 2)%nat in
  let stop := Nat.min (length actions) (index + 2 + 1) in
  map (fun i => context_line_of index i (nth i actions []))
      (seq start (stop - start)).

Section Evaluator.

(** The float-only library functions. *)
Variable str_to_float : string -> option Q.  (* float(s) on a string; None: ValueError *)
Variable f_sqrt : Q -> Q.                    (* np.sqrt, ** 0.5 *)
Variable f_cos : Q -> Q.                     (* np.cos *)
Variable f_sin : Q -> Q.                     (* np.sin *)
Variable f_pi : Q.                           (* np.pi *)

(** The order in which a set of strings is listed.  A Python set iterates
    in the order of its hash table, which follows the string hashes, and
    these are seeded per process: within a process the order is a function
    of what the set was built from, and between processes it differs. *)
Variable list_of_set : list string -> list string.
                                             (* list(set(l)) *)
Variable list_of_set_difference : list string -> list string -> list string.
                                             (* list(set(a) - set(b)) *)

(** [float(v)] *)
Definition to_float (v : pyval) : result Q :=
  match v with
  | VBool b => Ok (if b then 1 else 0)
  | VInt n => Ok (inject_Z n)
  | VFloat q => Ok q
  | VStr s =>
      match str_to_float s with
      | Some q => Ok q
      | None => Raise ValueError
      end
  | _ => Raise TypeError
  end.

Definition axis_problem_of (v lo hi : Q) : option axis_problem :=
  if Qltb v lo then Some BelowRange
  else if Qltb hi v then Some AboveRange
  else None.

Definition _build_coordinate_error_context (self : DrawingEvaluator)
    (action : adict) (index : nat) (x y : Q) (error_type : bounds_kind)
    (actions : list adict) : coord_context :=
  {| cc_kind := error_type;
     cc_index := index;
     cc_action := get_or action "action" (VStr "unknown");
     cc_x := x;
     cc_y := y;
     cc_x_problem :=
       match error_type with
       | screen_bounds => axis_problem_of x 0 1500
       | canvas_bounds =>
           axis_problem_of (x - canvas_offset_x self) 0 (canvas_width self)
       end;
     cc_y_problem :=
       match error_type with
       | screen_bounds => axis_problem_of y 0 900
       | canvas_bounds =>
           axis_problem_of (y - canvas_offset_y self) 0 (canvas_height self)
       end;
     cc_sequence := _get_action_sequence_context index actions |}.

Definition coordinate_error (self : DrawingEvaluator) (action : adict)
    (i : nat) (x y : Q) (kind : bounds_kind) (actions : list adict) : diag :=
  {| d_type := COORDINATE_ERROR;
     d_index := Some (Z.of_nat i);
     d_message :=
       MsgCoordinate (_build_coordinate_error_context self action i x y kind actions) |}.

(** [x < 0 or x > 1500 or y < 0 or y > 900] *)
Definition off_screen (x y : Q) : bool :=
  Qltb x 0 || Qltb 1500 x || Qltb y 0 || Qltb 900 y.

(** The canvas test applied to a [mouseDown]. *)
Definition off_canvas (self : DrawingEvaluator) (x y : Q) : bool :=
  let canvas_x := x - canvas_offset_x self in
  let canvas_y := y - canvas_offset_y self in
  Qltb canvas_x 0 || Qltb (canvas_width self) canvas_x ||
  Qltb canvas_y 0 || Qltb (canvas_height self) canvas_y.

(** The body of the loop of [_check_coordinate_errors] for the action at
    index [i]; [actions] is the whole log. *)
Definition coordinate_errors_at (self : DrawingEvaluator)
    (actions : list adict) (i : nat) (action : adict) : list diag :=
  if has_xy action then
    match to_float (get_none action "x"), to_float (get_none action "y") with
    | Ok x, Ok y =>
        (if off_screen x y
         then [coordinate_error self action i x y screen_bounds actions]
         else [])
        ++
        (if act_is action "mouseDown" && off_canvas self x y
         then [coordinate_error self action i x y canvas_bounds actions]
         else [])
    | _, _ =>
        [syntax_error i
           (MsgInvalidCoordinateTypes i (get_none action "x")
              (get_none action "y") (get_none action "action"))]
    end
  else [].

Fixpoint check_coordinate_errors_from (self : DrawingEvaluator)
    (actions : list adict) (i : nat) (todo : list adict) : list diag :=
  match todo with
  | [] => []
  | action :: rest =>
      coordinate_errors_at self actions i action
      ++ check_coordinate_errors_from self actions (S i) rest
  end.

Definition _check_coordinate_errors (self : DrawingEvaluator)
    (actions : list adict) : list diag :=
  check_coordinate_errors_from self actions 0 actions.

(** The index of the first of three consecutive [moveTo] actions. *)
Fixpoint first_triple_moveTo (i : nat) (actions : list adict) : option nat :=
  match actions with
  | a :: rest =>
      if act_is a "moveTo" &&
         match rest with
         | b :: c :: _ => act_is b "moveTo" && act_is c "moveTo"
         | _ => false
         end
      then Some i
      else first_triple_moveTo (S i) rest
  | [] => None
  end.

Definition count_action (name : string) (actions : list adict) : nat :=
  length (filter (fun a => act_is a name = true) actions).

Definition warning (t : diag_type) (m : message) : diag :=
  {| d_type := t; d_index := None; d_message := m |}.

Definition _check_efficiency_warnings (actions : list adict) : list diag :=
  (if (1000 <? length actions)%nat
   then [warning EFFICIENCY_WARNING (MsgHighActionCount (length actions))]
   else [])
  ++
  match first_triple_moveTo 0 actions with
  | Some i => [warning EFFICIENCY_WARNING (MsgConsecutiveMoveTo i)]
  | None => []
  end
  ++
  (let down_count := count_action "mouseDown" actions in
   let up_count := count_action "mouseUp" actions in
   if (down_count =? up_count)%nat then []
   else [warning LOGIC_ERROR (MsgUnmatched down_count up_count)]).

(** ** Spatial Analyzer: button hits, segments, coarse coverage *)

(** [abs(x - tx) < 40 and abs(y - ty) < 40]; [and] does not look at [y]
    when the first test fails. *)
Definition near_tool (x y : pyval) (tx ty : Q) : result bool :=
  let* nx := num x in
  if Qltb (Qabs (nx - tx)) 40
  then let* ny := num y in Ok (Qltb (Qabs (ny - ty)) 40)
  else Ok false.

(** [for name, (tx, ty) in tool_positions.items(): if near: ...; break]:
    the first tool hit, by declaration order. *)
Fixpoint find_tool (x y : pyval) (tools : pydict (Q * Q))
  : result (option string) :=
  match tools with
  | [] => Ok None
  | (tool_name, (tx, ty)) :: rest =>
      let* hit := near_tool x y tx ty in
      if hit then Ok (Some tool_name) else find_tool x y rest
  end.

Definition hits_a_tool (self : DrawingEvaluator) (action : adict) : result bool :=
  let* t := find_tool (get_or action "x" (VInt 0)) (get_or action "y" (VInt 0))
              (tool_positions self) in
  Ok (match t with Some _ => true | None => false end).

Fixpoint count_tool_changes_loop (self : DrawingEvaluator) (tool_clicks : nat)
    (actions : list adict) : result nat :=
  match actions with
  | [] => Ok tool_clicks
  | action :: rest =>
      if act_is action "click" then
        let* hit := hits_a_tool self action in
        count_tool_changes_loop self
          (if hit then S tool_clicks else tool_clicks) rest
      else if act_is action "moveTo" && next_is_click rest then
        (* the hit test runs, the click itself is what gets counted *)
        let* _ := hits_a_tool self action in
        count_tool_changes_loop self tool_clicks rest
      else count_tool_changes_loop self tool_clicks rest
  end.

Definition _count_tool_changes (self : DrawingEvaluator)
    (actions : list adict) : result nat :=
  count_tool_changes_loop self 0 actions.

(** [405 <= x <= 741 and abs(y - 25) < 20] *)
Definition in_color_row (x y : pyval) : result bool :=
  let* nx := num x in
  if Qleb 405 nx && Qleb nx 741
  then let* ny := num y in Ok (Qltb (Qabs (ny - 25)) 20)
  else Ok false.

Fixpoint count_color_changes_loop (color_clicks : nat) (actions : list adict)
  : result nat :=
  match actions with
  | [] => Ok color_clicks
  | action :: rest =>
      if act_is action "click" then
        let* hit := in_color_row (get_or action "x" (VInt 0))
                                 (get_or action "y" (VInt 0)) in
        count_color_changes_loop
          (if hit then S color_clicks else color_clicks) rest
      else count_color_changes_loop color_clicks rest
  end.

Definition _count_color_changes (actions : list adict) : result nat :=
  count_color_changes_loop 0 actions.

(** [abs(x - cx) <= 12 and abs(y - cy) <= 8] *)
Definition near_color (x y : pyval) (cx cy : Q) : result bool :=
  let* nx := num x in
  if Qleb (Qabs (nx - cx)) 12
  then let* ny := num y in Ok (Qleb (Qabs (ny - cy)) 8)
  else Ok false.

Fixpoint find_color (x y : pyval) (colors : list (Q * Q * string))
  : result (option string) :=
  match colors with
  | [] => Ok None
  | (cx, cy, color) :: rest =>
      let* hit := near_color x y cx cy in
      if hit then Ok (Some color) else find_color x y rest
  end.

Fixpoint _detect_exact_colors_used (self : DrawingEvaluator)
    (actions : list adict) : result (list string) :=
  match actions with
  | [] => Ok []
  | action :: rest =>
      if act_is action "click" || (act_is action "moveTo" && next_is_click rest)
      then
        let* c := find_color (get_or action "x" (VInt 0))
                    (get_or action "y" (VInt 0)) (color_positions self) in
        let* colors_used := _detect_exact_colors_used self rest in
        Ok (match c with Some color => color :: colors_used | None => colors_used end)
      else _detect_exact_colors_used self rest
  end.

Fixpoint count_drawing_segments_loop (segments : nat) (in_segment : bool)
    (actions : list adict) : nat :=
  match actions with
  | [] => segments
  | action :: rest =>
      if act_is action "mouseDown" then
        if in_segment then count_drawing_segments_loop segments true rest
        else count_drawing_segments_loop (S segments) true rest
      else if act_is action "mouseUp" then
        count_drawing_segments_loop segments false rest
      else count_drawing_segments_loop segments in_segment rest
  end.

Definition _count_drawing_segments (actions : list adict) : nat :=
  count_drawing_segments_loop 0 false actions.

(** [0 <= canvas_x <= canvas_width and 0 <= canvas_y <= canvas_height] *)
Definition in_canvas (self : DrawingEvaluator) (canvas_x canvas_y : Q) : bool :=
  Qleb 0 canvas_x && Qleb canvas_x (canvas_width self) &&
  Qleb 0 canvas_y && Qleb canvas_y (canvas_height self).

(** The canvas-relative position of an action that has both coordinates. *)
Definition canvas_xy (self : DrawingEvaluator) (action : adict) : result (Q * Q) :=
  let* x := num (get_none action "x") in
  let canvas_x := x - canvas_offset_x self in
  let* y := num (get_none action "y") in
  let canvas_y := y - canvas_offset_y self in
  Ok (canvas_x, canvas_y).

(** The loop of [_estimate_canvas_coverage]: the positions, in order. *)
Fixpoint coverage_positions (self : DrawingEvaluator) (is_drawing : bool)
    (actions : list adict) : result (list (Q * Q)) :=
  match actions with
  | [] => Ok []
  | action :: rest =>
      let is_drawing :=
        if act_is action "mouseDown" then true
        else if act_is action "mouseUp" then false
        else is_drawing in
      if is_drawing && has_xy action then
        let* p := canvas_xy self action in
        let* positions := coverage_positions self is_drawing rest in
        Ok (if in_canvas self (fst p) (snd p) then p :: positions else positions)
      else coverage_positions self is_drawing rest
  end.

Definition list_max (d : Q) (l : list Q) : Q := fold_right Qmax d l.
Definition list_min (d : Q) (l : list Q) : Q := fold_right Qmin d l.

Definition _estimate_canvas_coverage (self : DrawingEvaluator)
    (actions : list adict) : result Q :=
  let* positions := coverage_positions self false actions in
  match positions with
  | [] => Ok 0
  | p :: ps =>
      let xs := map fst ps in
      let ys := map snd ps in
      let bbox_area :=
        (list_max (fst p) xs - list_min (fst p) xs) *
        (list_max (snd p) ys - list_min (snd p) ys) in
      let canvas_area := canvas_width self * canvas_height self in
      let* coverage := pdiv bbox_area canvas_area in
      Ok (py_round coverage 4)
  end.

(** ** Spatial Analyzer: the 20 x 20 coverage grid *)

(** The grid is the set of its marked cells [(gy, gx)]: [grid[gy, gx] = 1]
    adds the cell, [np.sum(grid)] is the number of cells. *)
Definition cell : Type := (Z * Z)%type.

Definition grid_size : Z := 20.

Definition mark (c : cell) (grid : gset cell) : gset cell := {[ c ]} ∪ grid.

(** [min(int((v / extent) * grid_size), grid_size - 1)] *)
Definition grid_index (v extent : Q) : result Z :=
  let* ratio := pdiv v extent in
  Ok (Z.min (py_int (ratio * inject_Z grid_size)) (grid_size - 1)).

(** The guarded marking shared by the pen, the circle and the line: a
    canvas-relative point inside the canvas marks its cell. *)
Definition mark_point (self : DrawingEvaluator) (grid : gset cell)
    (p : Q * Q) : result (gset cell) :=
  let '(x, y) := p in
  if in_canvas self x y then
    let* gx := grid_index x (canvas_width self) in
    let* gy := grid_index y (canvas_height self) in
    Ok (mark (gy, gx) grid)
  else Ok grid.

Fixpoint mark_points (self : DrawingEvaluator) (grid : gset cell)
    (ps : list (Q * Q)) : result (gset cell) :=
  match ps with
  | [] => Ok grid
  | p :: rest =>
      let* grid := mark_point self grid p in
      mark_points self grid rest
  end.

(** [range(lo, hi)] *)
Definition zrange (lo hi : Z) : list Z :=
  map (fun k => (lo + Z.of_nat k)%Z) (seq 0 (Z.to_nat (hi - lo))).

(** [np.linspace(a, b, n)] *)
Definition linspace (a b : Q) (n : Z) : result (list Q) :=
  if (n <? 0)%Z then Raise ValueError
  else if (n =? 1)%Z then Ok [a]
  else Ok (map (fun k => a + (b - a) * inject_Z k / inject_Z (n - 1))
               (zrange 0 n)).

(** The cells of the rectangle tool: every cell of the spanned index
    ranges. *)
Definition rectangle_cells (self : DrawingEvaluator) (cx1 cy1 cx2 cy2 : Q)
  : result (list cell) :=
  let min_x := Qmin cx1 cx2 in
  let max_x := Qmax cx1 cx2 in
  let min_y := Qmin cy1 cy2 in
  let max_y := Qmax cy1 cy2 in
  let* r1 := pdiv min_x (canvas_width self) in
  let min_gx := Z.max 0 (py_int (r1 * inject_Z grid_size)) in
  let* r2 := pdiv max_x (canvas_width self) in
  let max_gx := Z.min (grid_size - 1) (py_int (r2 * inject_Z grid_size)) in
  let* r3 := pdiv min_y (canvas_height self) in
  let min_gy := Z.max 0 (py_int (r3 * inject_Z grid_size)) in
  let* r4 := pdiv max_y (canvas_height self) in
  let max_gy := Z.min (grid_size - 1) (py_int (r4 * inject_Z grid_size)) in
  Ok (flat_map (fun gx => map (fun gy => (gy, gx)) (zrange min_gy (max_gy + 1)))
               (zrange min_gx (max_gx + 1))).

(** The sample points of the circle tool: 50 angles, and on each the
    radii [linspace(0, radius, int(radius / 20) + 1)]. *)
Definition circle_points (cx1 cy1 cx2 cy2 : Q) : result (list (Q * Q)) :=
  let radius := f_sqrt ((cx2 - cx1) ^ 2 + (cy2 - cy1) ^ 2) in
  let* angles := linspace 0 (2 * f_pi) 50 in
  let* radii := linspace 0 radius (py_int (radius / 20) + 1) in
  Ok (flat_map
        (fun angle =>
           map (fun r => (cx1 + r * f_cos angle, cy1 + r * f_sin angle)) radii)
        angles).

(** The sample points of the line tool. *)
Definition line_points (cx1 cy1 cx2 cy2 : Q) : list (Q * Q) :=
  let steps :=
    (py_int (Qmax (Qabs (cx2 - cx1)) (Qabs (cy2 - cy1))) + 1)%Z in
  map (fun i =>
         let t := inject_Z i / inject_Z (Z.max (steps - 1) 1) in
         (cx1 + t * (cx2 - cx1), cy1 + t * (cy2 - cy1)))
      (zrange 0 steps).

Definition _fill_shape_in_grid (self : DrawingEvaluator) (grid : gset cell)
    (tool : string) (start_pos end_pos : pyval * pyval) : result (gset cell) :=
  let '(x1, y1) := start_pos in
  let '(x2, y2) := end_pos in
  let* nx1 := num x1 in
  let cx1 := nx1 - canvas_offset_x self in
  let* ny1 := num y1 in
  let cy1 := ny1 - canvas_offset_y self in
  let* nx2 := num x2 in
  let cx2 := nx2 - canvas_offset_x self in
  let* ny2 := num y2 in
  let cy2 := ny2 - canvas_offset_y self in
  if String.eqb tool "rectangle" then
    let* cells := rectangle_cells self cx1 cy1 cx2 cy2 in
    Ok (fold_right mark grid cells)
  else if String.eqb tool "circle" then
    let* ps := circle_points cx1 cy1 cx2 cy2 in
    mark_points self grid ps
  else if String.eqb tool "line" then
    mark_points self grid (line_points cx1 cy1 cx2 cy2)
  else Ok grid.

(** The scratch state of [_estimate_canvas_coverage_accurate]. *)
Record DrawingState : Type := {
  grid : gset cell;
  is_drawing : bool;
  current_tool : string;
  mouse_down_pos : option (pyval * pyval);
  last_pos : pyval * pyval
}.

Definition initial_state : DrawingState :=
  {| grid := ∅;
     is_drawing := false;
     current_tool := "pen";
     mouse_down_pos := None;
     last_pos := (VInt 0, VInt 0) |}.

(** "Track tool selection": a click that carries both coordinates selects
    the tool it hits; a moveTo that hits a tool selects it when the next
    action is a click. *)
Definition select_tool (self : DrawingEvaluator) (tool : string)
    (action : adict) (rest : list adict) : result string :=
  if act_is action "click" && has_xy action then
    let* t := find_tool (get_none action "x") (get_none action "y")
                (tool_positions self) in
    Ok (match t with Some tool_name => tool_name | None => tool end)
  else if act_is action "moveTo" then
    let* t := find_tool (get_or action "x" (VInt 0)) (get_or action "y" (VInt 0))
                (tool_positions self) in
    Ok (match t with
        | Some tool_name => if next_is_click rest then tool_name else tool
        | None => tool
        end)
  else Ok tool.

Definition shape_tools : list string := ["rectangle"; "circle"; "line"].
Definition stroke_tools : list string := ["pen"; "eraser"].

(** "Handle shape tools" at a mouseUp: the shape between the mouseDown
    position and [up_pos] is rasterised when a segment is open, has a
    start position, and the tool is a shape tool. *)
Definition release_fill (self : DrawingEvaluator) (st : DrawingState)
    (tool : string) (up_pos : pyval * pyval) : result (gset cell) :=
  match mouse_down_pos st with
  | Some start_pos =>
      if is_drawing st && str_in tool shape_tools
      then _fill_shape_in_grid self (grid st) tool start_pos up_pos
      else Ok (grid st)
  | None => Ok (grid st)
  end.

(** "For pen/eraser, track movement while drawing". *)
Definition stroke_mark (self : DrawingEvaluator) (g : gset cell)
    (drawing : bool) (tool : string) (action : adict) : result (gset cell) :=
  if drawing && str_in tool stroke_tools && has_xy action then
    let* p := canvas_xy self action in
    mark_point self g p
  else Ok g.

(** One iteration of the loop; [rest] is what follows the action. *)
Definition coverage_step (self : DrawingEvaluator) (st : DrawingState)
    (action : adict) (rest : list adict) : result DrawingState :=
  let xy := (get_none action "x", get_none action "y") in
  let last := if has_xy action then xy else last_pos st in
  let* tool := select_tool self (current_tool st) action rest in
  let* (g, drawing, down) :=
    if act_is action "mouseDown" then
      Ok (grid st, true, Some (if has_xy action then xy else last))
    else if act_is action "mouseUp" then
      let* g := release_fill self st tool (if has_xy action then xy else last) in
      Ok (g, false, None)
    else Ok (grid st, is_drawing st, mouse_down_pos st) in
  let* g := stroke_mark self g drawing tool action in
  Ok {| grid := g; is_drawing := drawing; current_tool := tool;
        mouse_down_pos := down; last_pos := last |}.

Fixpoint coverage_loop (self : DrawingEvaluator) (st : DrawingState)
    (actions : list adict) : result DrawingState :=
  match actions with
  | [] => Ok st
  | action :: rest =>
      let* st := coverage_step self st action rest in
      coverage_loop self st rest
  end.

Definition total_cells : Z := (grid_size * grid_size)%Z.

(** [round(np.sum(grid) / total_cells, 4)] *)
Definition coverage_of (g : gset cell) : Q :=
  py_round (inject_Z (Z.of_nat (size g)) / inject_Z total_cells) 4.

Definition _estimate_canvas_coverage_accurate (self : DrawingEvaluator)
    (actions : list adict) : result Q :=
  let* st := coverage_loop self initial_state actions in
  Ok (coverage_of (grid st)).

(** ** Criteria *)

(** The criteria dict: each known key is present or absent; [other_keys]
    are the keys the evaluator never reads (they still make the dict
    non-empty, hence truthy). *)
Record Criteria : Type := {
  required_tools : option (list string);
  required_colors : option (list string);
  min_segments : option Z;
  min_coverage : option Q;
  prompt : option string;
  other_keys : list string
}.

Definition is_some {A} (o : option A) : bool :=
  match o with Some _ => true | None => false end.

(** [if criteria:] on the optional argument: [None] and [{}] are falsy. *)
Definition criteria_truthy (criteria : option Criteria) : bool :=
  match criteria with
  | None => false
  | Some c =>
      is_some (required_tools c) || is_some (required_colors c) ||
      is_some (min_segments c) || is_some (min_coverage c) ||
      is_some (prompt c) ||
      match other_keys c with [] => false | _ => true end
  end.

(** ** Spatial constraint and spatial accuracy *)

Definition mentions (p : string) (words : list string) : bool :=
  existsb (fun w => str_contains w p) words.

(** [_extract_spatial_constraints]: the value of the ['region'] key, or
    [None] for the empty dict. *)
Definition _extract_spatial_constraints (prompt : string) : option string :=
  if String.eqb prompt "" then None
  else
    let p := str_lower prompt in
    if mentions p ["top-left"; "upper-left"; "top left"] then Some "top-left"
    else if mentions p ["top-right"; "upper-right"; "top right"] then Some "top-right"
    else if mentions p ["bottom-left"; "lower-left"; "bottom left"] then Some "bottom-left"
    else if mentions p ["bottom-right"; "lower-right"; "bottom right"] then Some "bottom-right"
    else if mentions p ["center"; "middle"; "centre"] then Some "center"
    else if mentions p ["top"; "upper"] then Some "top"
    else if mentions p ["bottom"; "lower"] then Some "bottom"
    else if mentions p ["left"] then Some "left"
    else if mentions p ["right"] then Some "right"
    else None.

Definition is_none (v : pyval) : bool :=
  match v with VNone => true | _ => false end.

(** [lo_x <= px < lo_x + w and lo_y <= py < lo_y + h] on screen
    coordinates; returns the numeric point when it is on the canvas. *)
Definition on_canvas (self : DrawingEvaluator) (pos : pyval * pyval)
  : result (option (Q * Q)) :=
  let* px := num (fst pos) in
  if Qleb (canvas_offset_x self) px &&
     Qltb px (canvas_offset_x self + canvas_width self)
  then
    let* py := num (snd pos) in
    if Qleb (canvas_offset_y self) py &&
       Qltb py (canvas_offset_y self + canvas_height self)
    then Ok (Some (px, py))
    else Ok None
  else Ok None.

(** The loop of [_calculate_drawing_centroid]: the drawing points, in
    order.  The branches are tried in the order of the source. *)
Fixpoint drawing_points (self : DrawingEvaluator) (is_drawing : bool)
    (current_pos : option (pyval * pyval)) (actions : list adict)
  : result (list (Q * Q)) :=
  match actions with
  | [] => Ok []
  | action :: rest =>
      let action_type := get_or action "action" (VStr "") in
      let x := get_none action "x" in
      let y := get_none action "y" in
      if is_str action_type "moveTo" && negb (is_none x) && negb (is_none y) then
        drawing_points self is_drawing (Some (x, y)) rest
      else if is_str action_type "mouseDown" && is_some current_pos then
        match current_pos with
        | Some pos =>
            let* p := on_canvas self pos in
            let* points := drawing_points self true current_pos rest in
            Ok (match p with Some q => q :: points | None => points end)
        | None => drawing_points self true current_pos rest
        end
      else if is_str action_type "mouseUp" then
        drawing_points self false current_pos rest
      else if is_drawing && is_str action_type "moveTo"
              && negb (is_none x) && negb (is_none y) then
        let* p := on_canvas self (x, y) in
        let* points := drawing_points self is_drawing current_pos rest in
        Ok (match p with Some q => q :: points | None => points end)
      else drawing_points self is_drawing current_pos rest
  end.

Definition Qsum (l : list Q) : Q := fold_right Qplus 0 l.

Definition _calculate_drawing_centroid (self : DrawingEvaluator)
    (actions : list adict) : result (option (Q * Q)) :=
  let* points := drawing_points self false None actions in
  match points with
  | [] => Ok None
  | _ =>
      let n := inject_Z (Z.of_nat (length points)) in
      let avg_x := Qsum (map fst points) / n in
      let avg_y := Qsum (map snd points) / n in
      Ok (Some (avg_x - canvas_offset_x self, avg_y - canvas_offset_y self))
  end.

(** [region_centers.get(region)] *)
Definition region_center (self : DrawingEvaluator) (region : string)
  : option (Q * Q) :=
  let w := canvas_width self in
  let h := canvas_height self in
  let third_w := w / 3 in
  let third_h := h / 3 in
  dict_get
    [("top-left", (third_w / 2, third_h / 2));
     ("top", (w / 2, third_h / 2));
     ("top-right", (w - third_w / 2, third_h / 2));
     ("left", (third_w / 2, h / 2));
     ("center", (w / 2, h / 2));
     ("right", (w - third_w / 2, h / 2));
     ("bottom-left", (third_w / 2, h - third_h / 2));
     ("bottom", (w / 2, h - third_h / 2));
     ("bottom-right", (w - third_w / 2, h - third_h / 2))]
    region.

(** [_evaluate_spatial_accuracy]: [Ok None] is Python's [None]. *)
Definition _evaluate_spatial_accuracy (self : DrawingEvaluator)
    (actions : list adict) (constraints : option string)
  : result (option Q) :=
  match constraints with
  | None => Ok None
  | Some region =>
      let* centroid := _calculate_drawing_centroid self actions in
      match centroid with
      | None => Ok (Some 0)          (* No drawing, no accuracy *)
      | Some (cx, cy) =>
          match region_center self region with
          | None => Ok None
          | Some (target_x, target_y) =>
              let distance :=
                f_sqrt ((cx - target_x) ^ 2 + (cy - target_y) ^ 2) in
              let max_distance :=
                f_sqrt (canvas_width self ^ 2 + canvas_height self ^ 2) in
              let* ratio := pdiv distance max_distance in
              Ok (Some (Qmax 0 (1 - ratio)))
          end
      end
  end.

Definition opt_length {A} (o : option (list A)) : Z :=
  match o with Some l => Z.of_nat (length l) | None => 0%Z end.

Definition _calculate_action_efficiency (actions : list adict)
    (criteria : Criteria) : option Q :=
  let actual_action_count := Z.of_nat (length actions) in
  let min_actions :=
    (opt_length (required_tools criteria)
     + opt_length (required_colors criteria)
     + match min_segments criteria with Some n => n * 3 | None => 0 end)%Z in
  if (min_actions =? 0)%Z then None
  else
    let ratio := inject_Z actual_action_count / inject_Z min_actions in
    let efficiency :=
      if Qleb ratio 1.5 then 1
      else if Qleb ratio 2 then 0.8
      else if Qleb ratio 3 then 0.6
      else 0.4 in
    Some (py_round efficiency 3).

(** ** Criteria Evaluator *)

(** The scan shared by [_check_criteria] and [_verify_tool_actually_used]:
    find where the tool at [(tx, ty)] is first selected; the result is the
    list of the actions after the selection index. *)
Fixpoint find_tool_selection (tx ty : Q) (actions : list adict)
  : result (option (list adict)) :=
  match actions with
  | [] => Ok None
  | action :: rest =>
      if act_is action "moveTo" then
        let* hit := near_tool (get_or action "x" (VInt 0))
                      (get_or action "y" (VInt 0)) tx ty in
        if hit && next_is_click rest then Ok (Some (tl rest))
        else find_tool_selection tx ty rest
      else if act_is action "click" && dict_has action "x" then
        let* hit := near_tool (get_or action "x" (VInt 0))
                      (get_or action "y" (VInt 0)) tx ty in
        if hit then Ok (Some rest) else find_tool_selection tx ty rest
      else find_tool_selection tx ty rest
  end.

(** [for other_tool, (otx, oty) in items: if other_tool != tool and near:
    return True, False]: does the point hit another tool's button? *)
Fixpoint hits_other_tool (tool : string) (x y : pyval) (tools : pydict (Q * Q))
  : result bool :=
  match tools with
  | [] => Ok false
  | (other_tool, (otx, oty)) :: rest =>
      if String.eqb other_tool tool then hits_other_tool tool x y rest
      else
        let* hit := near_tool x y otx oty in
        if hit then Ok true else hits_other_tool tool x y rest
  end.

(** The second loop of [_verify_tool_actually_used]: was the tool used
    after its selection? *)
Fixpoint used_after_selection (self : DrawingEvaluator) (tool : string)
    (actions : list adict) : result bool :=
  match actions with
  | [] => Ok false
  | action :: rest =>
      if act_is action "mouseDown" then Ok true
      else if act_is action "moveTo" || act_is action "click" then
        let* other := hits_other_tool tool (get_or action "x" (VInt 0))
                        (get_or action "y" (VInt 0)) (tool_positions self) in
        if other then Ok false else used_after_selection self tool rest
      else used_after_selection self tool rest
  end.

(** Returns [(was_selected, was_used)]. *)
Definition _verify_tool_actually_used (self : DrawingEvaluator)
    (actions : list adict) (tool : string) : result (bool * bool) :=
  match dict_get (tool_positions self) tool with
  | None => Ok (false, false)
  | Some (tx, ty) =>
      let* sel := find_tool_selection tx ty actions in
      match sel with
      | None => Ok (false, false)
      | Some after =>
          let* used := used_after_selection self tool after in
          Ok (true, used)
      end
  end.

(** The body of the [required_tools] loop for one tool. *)
Definition check_tool (self : DrawingEvaluator) (actions : list adict)
    (results : adict) (tool : string) : result adict :=
  let* tool_used :=
    match dict_get (tool_positions self) tool with
    | None => Ok false
    | Some (tx, ty) =>
        let* sel := find_tool_selection tx ty actions in
        Ok (is_some sel)
    end in
  let results := dict_set results ("tool_" +:+ tool +:+ "_used") (VBool tool_used) in
  let* (was_selected, was_used) := _verify_tool_actually_used self actions tool in
  let results :=
    dict_set results ("tool_" +:+ tool +:+ "_selected") (VBool was_selected) in
  Ok (dict_set results ("tool_" +:+ tool +:+ "_actually_used") (VBool was_used)).

Fixpoint check_tools (self : DrawingEvaluator) (actions : list adict)
    (results : adict) (tools : list string) : result adict :=
  match tools with
  | [] => Ok results
  | tool :: rest =>
      let* results := check_tool self actions results tool in
      check_tools self actions results rest
  end.

(** The elements of [set(l)], each once; used for membership and size,
    which do not depend on the order. *)
Definition str_set (l : list string) : list string := remove_dups l.

Definition VStrs (l : list string) : pyval := VList (map VStr l).

Definition _check_criteria (self : DrawingEvaluator) (actions : list adict)
    (criteria : Criteria) : result adict :=
  let results : adict := [] in
  let* results :=
    match required_tools criteria with
    | Some tools => check_tools self actions results tools
    | None => Ok results
    end in
  let results :=
    match min_segments criteria with
    | Some n =>
        let actual_segments := Z.of_nat (_count_drawing_segments actions) in
        dict_set
          (dict_set results "min_segments_met" (VBool (n <=? actual_segments)%Z))
          "actual_segments" (VInt actual_segments)
    | None => results
    end in
  let* results :=
    match required_colors criteria with
    | Some colors =>
        let* color_clicks := _count_color_changes actions in
        let results :=
          dict_set results "colors_changed" (VInt (Z.of_nat color_clicks)) in
        let results :=
          dict_set results "min_colors_met"
            (VBool (length colors <=? color_clicks)%nat) in
        let* exact_colors := _detect_exact_colors_used self actions in
        let required := str_set colors in
        let used := str_set exact_colors in
        let matched_colors := filter (fun c => str_in c used = true) required in
        let results :=
          dict_set results "colors_exact_used"
            (VStrs (list_of_set exact_colors)) in
        let results :=
          dict_set results "colors_matched"
            (VInt (Z.of_nat (length matched_colors))) in
        let results :=
          dict_set results "colors_missing"
            (VStrs (list_of_set_difference colors exact_colors)) in
        Ok (dict_set results "min_colors_exact_met"
              (VBool (length required <=? length matched_colors)%nat))
    | None => Ok results
    end in
  match min_coverage criteria with
  | Some required =>
      let* coverage := _estimate_canvas_coverage self actions in
      let results := dict_set results "canvas_coverage" (VFloat coverage) in
      let results :=
        dict_set results "min_coverage_met" (VBool (Qleb required coverage)) in
      let* accurate_coverage := _estimate_canvas_coverage_accurate self actions in
      let results :=
        dict_set results "canvas_coverage_accurate" (VFloat accurate_coverage) in
      Ok (dict_set results "min_coverage_accurate_met"
            (VBool (Qleb required accurate_coverage)))
  | None => Ok results
  end.

(** ** The result dict *)

Inductive spatial_error : Type :=
| insufficient_coverage (actual required deficit : Q)
| incorrect_spatial_placement (accuracy : Q) (expected_region : pyval).

Record planning_error : Type := {
  pe_actual : Q;
  pe_required : Z;
  pe_deficit : Q
}.

Record ErrorClassification : Type := {
  spatial_errors : list spatial_error;
  tool_errors : list string;        (* missing_required_tool, by tool name *)
  color_errors : list string;       (* missing_required_color, by hex code *)
  planning_errors : list planning_error;
  syntax_errors : list diag
}.

Definition no_errors_classified : ErrorClassification :=
  {| spatial_errors := []; tool_errors := []; color_errors := [];
     planning_errors := []; syntax_errors := [] |}.

(** The dict [evaluate] fills and returns.  A key that is assigned only on
    some paths is an [option]: [None] means the key is absent. *)
Record EvaluationResult : Type := {
  total_actions : nat;
  action_breakdown : pydict nat;
  errors : list diag;
  warnings : list diag;
  metrics : adict;
  criteria_met : option adict;
  colors_required : option nat;
  results_min_coverage : option Q;     (* results["min_coverage"] *)
  score : option Q;
  error_classification : option ErrorClassification
}.

(** ** Scorer *)

(** [d.get(k, True)] followed by [not]: is the flag present and falsy? *)
Definition flag_failed (d : adict) (k : string) : bool :=
  match dict_get d k with
  | Some v => negb (truthy v)
  | None => false
  end.

(** [d.get(k) is not None] *)
Definition available (d : adict) (k : string) : bool :=
  match dict_get d k with
  | Some v => negb (is_none v)
  | None => false
  end.

(** The contribution of one [(key, value)] item to [tool_penalties]. *)
Definition tool_penalty_of (criteria_met : adict) (key : string) (value : pyval)
  : Q :=
  if str_endswith "_actually_used" key then
    if truthy value then 0 else 0.15
  else if str_startswith "tool_" key && str_endswith "_used" key then
    let tool_name := str_remove "_used" (str_remove "tool_" key) in
    if dict_has criteria_met ("tool_" +:+ tool_name +:+ "_actually_used")
    then 0
    else if truthy value then 0 else 0.15
  else 0.

Definition tool_penalties (criteria_met : adict) : Q :=
  fold_left (fun acc kv => acc + tool_penalty_of criteria_met (fst kv) (snd kv))
            criteria_met 0.

(** [0.05 * max(0, colors_required - n)] where [n] is the value stored
    under [key] (0 when absent). *)
Definition missing_color_penalty (results : EvaluationResult)
    (criteria_met : adict) (key : string) : result Q :=
  let required :=
    match colors_required results with
    | Some n => inject_Z (Z.of_nat n)
    | None => 0
    end in
  let* n := num (get_or criteria_met key (VInt 0)) in
  Ok (0.05 * Qmax 0 (required - n)).

Definition color_penalty (results : EvaluationResult) (criteria_met : adict)
  : result Q :=
  if available criteria_met "min_colors_exact_met" then
    if flag_failed criteria_met "min_colors_exact_met"
    then missing_color_penalty results criteria_met "colors_matched"
    else Ok 0
  else
    if flag_failed criteria_met "min_colors_met"
    then missing_color_penalty results criteria_met "colors_changed"
    else Ok 0.

Definition segment_penalty (criteria_met : adict) : Q :=
  if flag_failed criteria_met "min_segments_met" then 0.15 else 0.

Definition coverage_penalty (results : EvaluationResult) (criteria_met : adict)
  : result Q :=
  if available criteria_met "min_coverage_accurate_met" then
    if flag_failed criteria_met "min_coverage_accurate_met" then
      let actual_coverage :=
        get_or (metrics results) "canvas_coverage_accurate" (VInt 0) in
      let required_coverage :=
        match results_min_coverage results with Some r => r | None => 0 end in
      if Qltb 0 required_coverage then
        let* actual := num actual_coverage in
        let deficit := Qmax 0 (required_coverage - actual) in
        let deficit_ratio := deficit / required_coverage in
        Ok (deficit_ratio * 0.12)
      else Ok 0
    else Ok 0
  else
    if flag_failed criteria_met "min_coverage_met" then Ok 0.12 else Ok 0.

(** [if 10 <= action_count <= 500 and score >= 0.2: score += 0.05] *)
Definition with_bonus (action_count : nat) (score : Q) : Q :=
  if (10 <=? action_count)%nat && (action_count <=? 500)%nat && Qleb 0.2 score
  then score + 0.05 else score.

(** [max(0.0, min(1.0, round(score, 3)))] *)
Definition clamp_score (score : Q) : Q := Qmax 0 (Qmin 1 (py_round score 3)).

(** The running score after the criteria penalties, in source order. *)
Definition score_after_tools (criteria_met : adict) : Q :=
  1 - tool_penalties criteria_met.

Definition score_after_colors (results : EvaluationResult) (criteria_met : adict)
  : result Q :=
  let* p := color_penalty results criteria_met in
  Ok (score_after_tools criteria_met - p).

Definition score_after_segments (results : EvaluationResult)
    (criteria_met : adict) : result Q :=
  let* s := score_after_colors results criteria_met in
  Ok (s - segment_penalty criteria_met).

Definition score_after_coverage (results : EvaluationResult)
    (criteria_met : adict) : result Q :=
  let* s := score_after_segments results criteria_met in
  let* p := coverage_penalty results criteria_met in
  Ok (s - p).

Definition _calculate_score (results : EvaluationResult) : result Q :=
  let criteria_met :=
    match criteria_met results with Some d => d | None => [] end in
  let* s := score_after_coverage results criteria_met in
  let error_penalty := inject_Z (Z.of_nat (length (errors results))) * 0.08 in
  let warning_penalty := inject_Z (Z.of_nat (length (warnings results))) * 0.02 in
  let s := s - error_penalty in
  let s := s - warning_penalty in
  Ok (clamp_score (with_bonus (total_actions results) s)).

(** ** Error Classifier *)

(** [s in v] for a value read back from the metrics. *)
Definition py_contains_str (v : pyval) (s : string) : result bool :=
  match v with
  | VList l => Ok (existsb (fun e => is_str e s) l)
  | VStr t => Ok (str_contains s t)
  | VDict d => Ok (dict_has d s)
  | _ => Raise TypeError
  end.

Fixpoint missing_colors (exact_colors_used : pyval) (colors : list string)
  : result (list string) :=
  match colors with
  | [] => Ok []
  | color :: rest =>
      let* present := py_contains_str exact_colors_used color in
      let* others := missing_colors exact_colors_used rest in
      Ok (if present then others else color :: others)
  end.

Definition failed_tools (criteria_met : adict) : list string :=
  flat_map
    (fun kv =>
       if str_endswith "_actually_used" (fst kv) && negb (truthy (snd kv))
       then [str_remove "_actually_used" (str_remove "tool_" (fst kv))]
       else [])
    criteria_met.

Definition _classify_errors (results : EvaluationResult) (criteria : Criteria)
  : result ErrorClassification :=
  let criteria_met :=
    match criteria_met results with Some d => d | None => [] end in
  let tool_errors := failed_tools criteria_met in
  let* color_errors :=
    match required_colors criteria with
    | Some colors =>
        missing_colors (get_or (metrics results) "exact_colors_used" (VList []))
                       colors
    | None => Ok []
    end in
  let* coverage_errors :=
    match min_coverage criteria with
    | Some required_coverage =>
        let* actual_coverage :=
          num (get_or (metrics results) "canvas_coverage_accurate" (VInt 0)) in
        Ok (if Qltb actual_coverage required_coverage
            then [insufficient_coverage actual_coverage required_coverage
                    (required_coverage - actual_coverage)]
            else [])
    | None => Ok []
    end in
  let* planning_errors :=
    match min_segments criteria with
    | Some required_segments =>
        let* actual_segments :=
          num (get_or (metrics results) "drawing_segments" (VInt 0)) in
        Ok (if Qltb actual_segments (inject_Z required_segments)
            then [{| pe_actual := actual_segments;
                     pe_required := required_segments;
                     pe_deficit := inject_Z required_segments - actual_segments |}]
            else [])
    | None => Ok []
    end in
  let spatial_accuracy := get_none (metrics results) "spatial_accuracy" in
  let* placement_errors :=
    if is_none spatial_accuracy then Ok []
    else
      let* accuracy := num spatial_accuracy in
      if Qltb accuracy 0.7 then
        match get_or (metrics results) "spatial_constraints" (VDict []) with
        | VDict spatial_constraints =>
            Ok [incorrect_spatial_placement accuracy
                  (get_none spatial_constraints "region")]
        | _ => Raise AttributeError
        end
      else Ok [] in
  Ok {| spatial_errors := coverage_errors ++ placement_errors;
        tool_errors := tool_errors;
        color_errors := color_errors;
        planning_errors := planning_errors;
        syntax_errors := errors results |}.

(** ** evaluate *)

(** The result returned for an input that is not a list. *)
Definition not_a_list_result : EvaluationResult :=
  {| total_actions := 0;
     action_breakdown := [];
     errors :=
       [{| d_type := SYNTAX_ERROR; d_index := Some (-1)%Z;
           d_message := MsgActionsMustBeList |}];
     warnings := [];
     metrics :=
       [("tool_changes", VInt 0); ("color_changes", VInt 0);
        ("drawing_segments", VInt 0); ("canvas_coverage", VInt 0);
        ("canvas_coverage_accurate", VInt 0); ("exact_colors_used", VList [])];
     criteria_met := None;
     colors_required := None;
     results_min_coverage := None;
     score := Some 0;
     error_classification := None |}.

Definition opt_float (o : option Q) : pyval :=
  match o with Some q => VFloat q | None => VNone end.

Definition constraints_dict (o : option string) : pyval :=
  match o with Some r => VDict [("region", VStr r)] | None => VDict [] end.

Definition VNat (n : nat) : pyval := VInt (Z.of_nat n).

(** [criteria] when [if criteria:] holds. *)
Definition given (criteria : option Criteria) : option Criteria :=
  if criteria_truthy criteria then criteria else None.

(** The constraints of the branch
    [if criteria and "prompt" in criteria: ... else: {}]. *)
Definition spatial_constraints_of (criteria : option Criteria) : option string :=
  match given criteria with
  | Some c =>
      match prompt c with
      | Some p => _extract_spatial_constraints p
      | None => None
      end
  | None => None
  end.

Definition with_score (results : EvaluationResult) (s : Q) : EvaluationResult :=
  {| total_actions := total_actions results;
     action_breakdown := action_breakdown results;
     errors := errors results;
     warnings := warnings results;
     metrics := metrics results;
     criteria_met := criteria_met results;
     colors_required := colors_required results;
     results_min_coverage := results_min_coverage results;
     score := Some s;
     error_classification := error_classification results |}.

Definition with_classification (results : EvaluationResult)
    (c : ErrorClassification) : EvaluationResult :=
  {| total_actions := total_actions results;
     action_breakdown := action_breakdown results;
     errors := errors results;
     warnings := warnings results;
     metrics := metrics results;
     criteria_met := criteria_met results;
     colors_required := colors_required results;
     results_min_coverage := results_min_coverage results;
     score := score results;
     error_classification := Some c |}.

Definition evaluate (self : DrawingEvaluator) (actions : pyval)
    (ground_truth : pyval) (criteria : option Criteria)
  : result EvaluationResult :=
  match actions with
  | VList action_list =>
      let* counts := _count_actions action_list in
      let actions := dicts_of action_list in
      let errs := _check_syntax_errors actions
                  ++ _check_coordinate_errors self actions in
      let warns := _check_efficiency_warnings actions in
      let* tool_changes := _count_tool_changes self actions in
      let* color_changes := _count_color_changes actions in
      let drawing_segments := _count_drawing_segments actions in
      let* canvas_coverage := _estimate_canvas_coverage self actions in
      let* canvas_coverage_accurate :=
        _estimate_canvas_coverage_accurate self actions in
      let* exact_colors_used := _detect_exact_colors_used self actions in
      let spatial_constraints := spatial_constraints_of criteria in
      let* spatial_accuracy :=
        _evaluate_spatial_accuracy self actions spatial_constraints in
      let action_efficiency :=
        match given criteria with
        | Some c => _calculate_action_efficiency actions c
        | None => None
        end in
      let m : adict :=
        [("tool_changes", VNat tool_changes);
         ("color_changes", VNat color_changes);
         ("drawing_segments", VNat drawing_segments);
         ("canvas_coverage", VFloat canvas_coverage);
         ("canvas_coverage_accurate", VFloat canvas_coverage_accurate);
         ("exact_colors_used", VStrs exact_colors_used);
         ("spatial_accuracy", opt_float spatial_accuracy);
         ("spatial_constraints", constraints_dict spatial_constraints);
         ("action_efficiency", opt_float action_efficiency)] in
      let* met :=
        match given criteria with
        | Some c => let* d := _check_criteria self actions c in Ok (Some d)
        | None => Ok None
        end in
      let results :=
        {| total_actions := length action_list;
           action_breakdown := counts;
           errors := errs;
           warnings := warns;
           metrics := m;
           criteria_met := met;
           colors_required :=
             match given criteria with
             | Some c => option_map (@length string) (required_colors c)
             | None => None
             end;
           results_min_coverage :=
             match given criteria with
             | Some c => min_coverage c
             | None => None
             end;
           score := None;
           error_classification := None |} in
      let* s := _calculate_score results in
      let results := with_score results s in
      let* classification :=
        match given criteria with
        | Some c => _classify_errors results c
        | None => Ok no_errors_classified
        end in
      Ok (with_classification results classification)
  | _ => Ok not_a_list_result
  end.

(** ** Sample data *)

(** A layout that agrees with the constants of the source (canvas right
    edge 1090 and bottom edge 770 in the messages, the button positions
    (245, 25) and (453, 25) of the [__main__] log): a 1000 x 700 canvas at
    (90, 70), with a row of tool buttons and a row of colour swatches
    above it. *)
Definition sample_layout : DrawingEvaluator :=
  {| canvas_width := 1000;
     canvas_height := 700;
     canvas_offset_x := 90;
     canvas_offset_y := 70;
     color_positions := [(405, 25, "#000000"); (453, 25, "#FF0000")];
     tool_positions :=
       [("pen", (245, 25)); ("eraser", (295, 25)); ("rectangle", (345, 25))];
     tolerance := 40 |}.

Definition moveTo (x y : Q) : adict :=
  [("action", VStr "moveTo"); ("x", VFloat x); ("y", VFloat y)].

Definition bare (name : string) : adict := [("action", VStr name)].

(** The log and the criteria of the [__main__] block of the source. *)
Definition test_actions : list adict :=
  [moveTo 453 25; bare "click"; moveTo 245 25; bare "click";
   moveTo 590 420; bare "mouseDown"; moveTo 640 420; moveTo 665 445;
   moveTo 665 495; bare "mouseUp"].

Definition test_criteria : Criteria :=
  {| required_tools := Some ["pen"];
     min_segments := Some 1%Z;
     required_colors := Some ["#FF0000"];
     min_coverage := Some 0.01;
     prompt := None;
     other_keys := [] |}.

(** [[{"action": "click", "x": null, "y": 5}]] *)
Definition click_with_null_x : pyval :=
  VList [VDict [("action", VStr "click"); ("x", VNone); ("y", VInt 5)]].

(** Criteria that carry only a prompt. *)
Definition prompt_only (p : string) : Criteria :=
  {| required_tools := None; required_colors := None; min_segments := None;
     min_coverage := None; prompt := Some p; other_keys := [] |}.

(** A pen stroke, then a rectangle drawn from wherever the pointer was
    last seen: [moveTo(500,400), mouseDown, (insertion point) mouseUp,
    mouseDown, moveTo(345,25), click, mouseUp]. *)
Definition stroke_then_rectangle_pre : list adict :=
  [moveTo 500 400; bare "mouseDown"].

Definition stroke_then_rectangle_post : list adict :=
  [bare "mouseUp"; bare "mouseDown"; moveTo 345 25; bare "click";
   bare "mouseUp"].

(** The rectangle tool is selected, a segment opens, and the pen is
    selected during the segment by moveTo + click: [moveTo(345,25), click,
    moveTo(500,400), mouseDown, moveTo(245,25), (insertion point) click,
    moveTo(900,700), moveTo(510,410), mouseUp]. *)
Definition pen_reselected_pre : list adict :=
  [moveTo 345 25; bare "click"; moveTo 500 400; bare "mouseDown";
   moveTo 245 25].

Definition pen_reselected_post : list adict :=
  [bare "click"; moveTo 900 700; moveTo 510 410; bare "mouseUp"].

(** A pen stroke of the [__main__] log, split at its second point. *)
Definition pen_stroke_pre : list adict :=
  [moveTo 590 420; bare "mouseDown"; moveTo 640 420].

Definition pen_stroke_post : list adict :=
  [moveTo 665 495; bare "mouseUp"].

(** A result and its criteria flags as the scorer sees them when the
    accurate coverage check failed: required 0.01, measured 0.005. *)
Definition half_covered_flags : adict :=
  [("min_coverage_met", VBool false);
   ("canvas_coverage_accurate", VFloat 0.005);
   ("min_coverage_accurate_met", VBool false)].

Definition half_covered_results : EvaluationResult :=
  {| total_actions := 10;
     action_breakdown := zero_counts;
     errors := [];
     warnings := [];
     metrics := [("canvas_coverage_accurate", VFloat 0.005)];
     criteria_met := Some half_covered_flags;
     colors_required := None;
     results_min_coverage := Some 0.01;
     score := None;
     error_classification := None |}.

(** Stand-ins for the float library, to run the examples: an integer
    square root, and constants for the rest (the examples draw no
    circle). *)
Definition sample_str_to_float (s : string) : option Q := None.
Definition sample_sqrt (q : Q) : Q := inject_Z (Z.sqrt (Qfloor q)).
Definition sample_cos (q : Q) : Q := 1.
Definition sample_sin (q : Q) : Q := 0.
Definition sample_pi : Q := 3.14159.

(** Two ways a process can list a set: in order of first insertion, and
    in the opposite order. *)
Definition insertion_order (l : list string) : list string := remove_dups l.
Definition insertion_order_difference (a b : list string) : list string :=
  filter (fun c => str_in c b = false) (remove_dups a).
Definition opposite_order (l : list string) : list string :=
  rev (remove_dups l).
Definition opposite_order_difference (a b : list string) : list string :=
  rev (filter (fun c => str_in c b = false) (remove_dups a)).

Definition is_screen_bounds_error (d : diag) : bool :=
  match d_message d with
  | MsgCoordinate ctx =>
      match cc_kind ctx with screen_bounds => true | canvas_bounds => false end
  | _ => false
  end.

(** ** Auxiliary notions for the coverage loop *)

(** The loop of [_estimate_canvas_coverage_accurate] over the first part
    [pre] of a log whose remainder is [suffix]. *)
Fixpoint coverage_prefix (self : DrawingEvaluator) (st : DrawingState)
    (pre suffix : list adict) : result DrawingState :=
  match pre with
  | [] => Ok st
  | action :: rest =>
      let* st := coverage_step self st action (rest ++ suffix) in
      coverage_prefix self st rest suffix
  end.

Definition with_grid (g : gset cell) (st : DrawingState) : DrawingState :=
  {| grid := g; is_drawing := is_drawing st; current_tool := current_tool st;
     mouse_down_pos := mouse_down_pos st; last_pos := last_pos st |}.

Definition with_last (p : pyval * pyval) (st : DrawingState) : DrawingState :=
  {| grid := grid st; is_drawing := is_drawing st;
     current_tool := current_tool st;
     mouse_down_pos := mouse_down_pos st; last_pos := p |}.

(** The drawing flag after one action. *)
Definition next_drawing (drawing : bool) (action : adict) : bool :=
  if act_is action "mouseDown" then true
  else if act_is action "mouseUp" then false
  else drawing.

(** Is a segment open after the actions [l], starting from [drawing]? *)
Fixpoint drawing_after (drawing : bool) (l : list adict) : bool :=
  match l with
  | [] => drawing
  | action :: rest =>
      drawing_after (next_drawing drawing action) rest
  end.

(** The last-known position is overwritten before anything reads it: up
    to the first action that carries both coordinates there is no
    mouseDown and no moveTo. *)
Fixpoint lastpos_unread (l : list adict) : bool :=
  match l with
  | [] => true
  | action :: rest =>
      if has_xy action then true
      else if act_is action "mouseDown" || act_is action "moveTo" then false
      else lastpos_unread rest
  end.

(** No action of [l] (followed by [suffix]) selects a tool other than
    [tool]: the tool-selection step leaves [tool] in place throughout. *)
Fixpoint keeps_tool (self : DrawingEvaluator) (tool : string)
    (l suffix : list adict) : Prop :=
  match l with
  | [] => True
  | action :: rest =>
      select_tool self tool action (rest ++ suffix) = Ok tool
      /\ keeps_tool self tool rest suffix
  end.

Definition action_types : list string :=
  ["moveTo"; "click"; "mouseDown"; "mouseUp"; "unknown"].

Definition is_list (v : pyval) : bool :=
  match v with VList _ => true | _ => false end.

(** ** Auxiliary notions for the further properties *)


Definition counts_total (counts : pydict nat) : nat :=
  fold_right (fun kv acc => (snd kv + acc)%nat) 0%nat counts.

(** An action [_check_syntax_errors] has nothing to say about: it has an
    ["action"] field, its value is one of the four valid types, and a
    moveTo carries both coordinates. *)
Definition well_formed_action (action : adict) : bool :=
  match dict_get action "action" with
  | None => false
  | Some action_type =>
      existsb (is_str action_type) valid_actions
      && (negb (is_str action_type "moveTo") || has_xy action)
  end.

Definition is_logic_error (d : diag) : bool :=
  match d_type d with LOGIC_ERROR => true | _ => false end.

(** The cells of the 20 x 20 grid. *)
Definition grid_cells : list cell :=
  flat_map (fun gy => map (fun gx => (gy, gx)) (zrange 0 grid_size))
           (zrange 0 grid_size).

Definition full_grid : gset cell := list_to_set grid_cells.

(** [min_actions] of [_calculate_action_efficiency]. *)
Definition min_actions_of (criteria : Criteria) : Z :=
  (opt_length (required_tools criteria)
   + opt_length (required_colors criteria)
   + match min_segments criteria with Some n => n * 3 | None => 0 end)%Z.

(** The order on optional efficiency values: both absent, or both present
    and ordered. *)
Definition opt_Qle (a b : option Q) : Prop :=
  match a, b with
  | Some x, Some y => x <= y
  | None, None => True
  | _, _ => False
  end.

(** A result with its two diagnostic lists replaced. *)
Definition with_diagnostics (results : EvaluationResult)
    (errs warns : list diag) : EvaluationResult :=
  {| total_actions := total_actions results;
     action_breakdown := action_breakdown results;
     errors := errs;
     warnings := warns;
     metrics := metrics results;
     criteria_met := criteria_met results;
     colors_required := colors_required results;
     results_min_coverage := results_min_coverage results;
     score := score results;
     error_classification := error_classification results |}.

Definition is_insufficient_coverage (e : spatial_error) : bool :=
  match e with insufficient_coverage _ _ _ => true | _ => false end.

(** ** Feedback *)

(** The lines of [generate_feedback], before they are joined; a formatted
    number is kept as the number. *)
Inductive feedback_line : Type :=
| ErrorsHeader
| WarningsHeader
| MetricsHeader
| CriteriaHeader
| DiagLine (t : diag_type) (m : message)
| TotalActionsLine (n : nat)
| ToolChangesLine (v : pyval)
| ColorChangesLine (v : pyval)
| SegmentsLine (v : pyval)
| CoverageLine (coverage : Q)            (* [{...:.2%}] *)
| CriterionLine (key : string) (pass : bool)
| ScoreLine (s : Q).                     (* [{...:.2f}/1.00] *)

(** How [generate_feedback] can fail: a subscript on a missing key, or a
    numeric format applied to a value that is not a number. *)
Inductive feedback_error : Type :=
| KeyError (key : string)
| FormatError (v : pyval).

Inductive feedback_result (A : Type) : Type :=
| Feedback (a : A)
| FeedbackFails (e : feedback_error).
#[global] Arguments Feedback {A} a.
#[global] Arguments FeedbackFails {A} e.

Definition fbind {A B} (m : feedback_result A) (k : A -> feedback_result B)
  : feedback_result B :=
  match m with Feedback a => k a | FeedbackFails e => FeedbackFails e end.

(** [evaluation_results['metrics'][k]] *)
Definition metric (evaluation_results : EvaluationResult) (k : string)
  : feedback_result pyval :=
  match dict_get (metrics evaluation_results) k with
  | Some v => Feedback v
  | None => FeedbackFails (KeyError k)
  end.

(** The value under a [.2%] format specification. *)
Definition format_number (v : pyval) : feedback_result Q :=
  match v with
  | VBool b => Feedback (if b then 1 else 0)
  | VInt n => Feedback (inject_Z n)
  | VFloat q => Feedback q
  | _ => FeedbackFails (FormatError v)
  end.

Definition diag_line (d : diag) : feedback_line :=
  DiagLine (d_type d) (d_message d).

Definition criterion_line (kv : string * pyval) : feedback_line :=
  CriterionLine (fst kv) (truthy (snd kv)).

Definition generate_feedback (evaluation_results : EvaluationResult)
  : feedback_result (list feedback_line) :=
  let feedback :=
    match errors evaluation_results with
    | [] => []
    | _ => ErrorsHeader :: map diag_line (firstn 5 (errors evaluation_results))
    end in
  let feedback :=
    feedback ++
    match warnings evaluation_results with
    | [] => []
    | _ => WarningsHeader
           :: map diag_line (firstn 3 (warnings evaluation_results))
    end in
  let feedback :=
    feedback ++ [MetricsHeader;
                 TotalActionsLine (total_actions evaluation_results)] in
  fbind (metric evaluation_results "tool_changes") (fun tool_changes =>
  let feedback := feedback ++ [ToolChangesLine tool_changes] in
  fbind (metric evaluation_results "color_changes") (fun color_changes =>
  let feedback := feedback ++ [ColorChangesLine color_changes] in
  fbind (metric evaluation_results "drawing_segments") (fun drawing_segments =>
  let feedback := feedback ++ [SegmentsLine drawing_segments] in
  fbind (metric evaluation_results "canvas_coverage") (fun canvas_coverage =>
  fbind (format_number canvas_coverage) (fun coverage =>
  let feedback := feedback ++ [CoverageLine coverage] in
  let feedback :=
    feedback ++
    match criteria_met evaluation_results with
    | Some d => CriteriaHeader :: map criterion_line d
    | None => []
    end in
  match score evaluation_results with
  | Some s => Feedback (feedback ++ [ScoreLine s])
  | None => FeedbackFails (KeyError "score")
  end))))).

Definition is_diag_line (l : feedback_line) : bool :=
  match l with DiagLine _ _ => true | _ => false end.

Definition feedback_metric_keys : list string :=
  ["tool_changes"; "color_changes"; "drawing_segments"; "canvas_coverage"].

(** The claim's words for the drawing: the in-canvas points visited during
    an open segment.  A segment is open from a mouseDown to the next
    mouseUp; the pointer is where the last action that carried both
    coordinates put it; the points visited are the pointer's position at
    each mouseDown and at each moveTo with coordinates of an open segment.
    In-canvas is the test of the centroid pass. *)
Fixpoint visited_points (self : DrawingEvaluator) (is_open : bool)
    (pointer : option (pyval * pyval)) (actions : list adict)
  : result (list (Q * Q)) :=
  match actions with
  | [] => Ok []
  | action :: rest =>
      let x := get_none action "x" in
      let y := get_none action "y" in
      let has_position := negb (is_none x) && negb (is_none y) in
      let pointer := if has_position then Some (x, y) else pointer in
      let is_open :=
        if act_is action "mouseDown" then true
        else if act_is action "mouseUp" then false
        else is_open in
      if is_open && (act_is action "mouseDown"
                     || (act_is action "moveTo" && has_position)) then
        match pointer with
        | Some pos =>
            let* p := on_canvas self pos in
            let* points := visited_points self is_open pointer rest in
            Ok (match p with Some q => q :: points | None => points end)
        | None => visited_points self is_open pointer rest
        end
      else visited_points self is_open pointer rest
  end.

(** The centroid of a list of screen points, relative to the canvas. *)
Definition centroid_of (self : DrawingEvaluator) (points : list (Q * Q))
  : Q * Q :=
  let n := inject_Z (Z.of_nat (length points)) in
  (Qsum (map fst points) / n - canvas_offset_x self,
   Qsum (map snd points) / n - canvas_offset_y self).

(** ** Results that differ in the order of a set *)

(** The entries of [criteria_met] that hold a set turned into a list. *)
Definition set_valued_keys : list string :=
  ["colors_exact_used"; "colors_missing"].

(** Two entries agree when they have the same key and the same value, or,
    under a set-valued key, lists of the same strings in some order. *)
Definition entry_agrees (kv1 kv2 : string * pyval) : Prop :=
  fst kv1 = fst kv2
  /\ (snd kv1 = snd kv2
      \/ (In (fst kv1) set_valued_keys
          /\ exists l1 l2,
               snd kv1 = VStrs l1 /\ snd kv2 = VStrs l2
               /\ Permutation l1 l2)).

Definition flags_agree (d1 d2 : adict) : Prop := Forall2 entry_agrees d1 d2.

(** Two results agree when they are equal in every field, up to the order
    of the set-valued entries of [criteria_met]. *)
Definition results_agree (r1 r2 : EvaluationResult) : Prop :=
  total_actions r1 = total_actions r2
  /\ action_breakdown r1 = action_breakdown r2
  /\ errors r1 = errors r2
  /\ warnings r1 = warnings r2
  /\ metrics r1 = metrics r2
  /\ colors_required r1 = colors_required r2
  /\ results_min_coverage r1 = results_min_coverage r2
  /\ score r1 = score r2
  /\ error_classification r1 = error_classification r2
  /\ match criteria_met r1, criteria_met r2 with
     | Some d1, Some d2 => flags_agree d1 d2
     | None, None => True
     | _, _ => False
     end.

(** A log that clicks the black and the red swatch, and criteria that
    require both colours. *)
Definition two_colour_actions : list adict :=
  [moveTo 405 25; bare "click"; moveTo 453 25; bare "click"].

Definition two_colour_criteria : Criteria :=
  {| required_tools := None;
     min_segments := None;
     required_colors := Some ["#000000"; "#FF0000"];
     min_coverage := None;
     prompt := None;
     other_keys := [] |}.

(** * Properties *)

(** ** Non-list input *)

Lemma evaluate_not_a_list self actions ground_truth criteria :
  is_list actions = false ->
  evaluate self actions ground_truth criteria = Ok not_a_list_result.
Proof.
  intros Hnl. destruct actions; simpl in Hnl; try discriminate; reflexivity.
Qed.

(** C2 (as amended): every input that is not a list yields the same
    fixed result, whatever the criteria and the layout: score 0, exactly
    one error, a top-level SYNTAX_ERROR (index -1), no warnings, no
    criteria or classification entries, and a metrics dict holding the six
    base metrics, all zero or empty (not the empty dict). *)
Theorem non_list_input_result :
  forall self actions ground_truth criteria,
    is_list actions = false ->
    evaluate self actions ground_truth criteria = Ok not_a_list_result
    /\ score not_a_list_result = Some 0
    /\ (exists e, errors not_a_list_result = [e]
                  /\ d_type e = SYNTAX_ERROR /\ d_index e = Some (-1)%Z)
    /\ warnings not_a_list_result = []
    /\ criteria_met not_a_list_result = None
    /\ error_classification not_a_list_result = None
    /\ map fst (metrics not_a_list_result)
       = ["tool_changes"; "color_changes"; "drawing_segments";
          "canvas_coverage"; "canvas_coverage_accurate"; "exact_colors_used"]
    /\ Forall (fun kv => truthy (snd kv) = false) (metrics not_a_list_result).
Proof.
  intros self actions ground_truth criteria Hnl.
  split.
  - apply evaluate_not_a_list. exact Hnl.
  - repeat split; try reflexivity.
    + eexists; repeat split; reflexivity.
    + repeat constructor.
Qed.

(** ** The empty log *)

(** C4: the empty action list with no criteria gives no error, no warning,
    the five per-type counts 0, both coverage metrics 0, and score 1. *)
Theorem empty_log_scores_one :
  forall self ground_truth,
  exists r,
    evaluate self (VList []) ground_truth None = Ok r
    /\ errors r = []
    /\ warnings r = []
    /\ total_actions r = 0%nat
    /\ map fst (action_breakdown r) = action_types
    /\ Forall (fun kv => snd kv = 0%nat) (action_breakdown r)
    /\ dict_get (metrics r) "canvas_coverage" = Some (VFloat 0)
    /\ dict_get (metrics r) "canvas_coverage_accurate" = Some (VFloat 0)
    /\ score r = Some 1.
Proof.
  intros self ground_truth.
  eexists. split; [ vm_compute; reflexivity | ].
  repeat split; try reflexivity.
  repeat constructor.
Qed.

(** ** Malformed action content *)

(** C3: a click whose x is null is reported by the coordinate check as a
    SYNTAX_ERROR, and then makes the analysis passes raise: [evaluate]
    fails with TypeError on this one-element list, for every layout and
    every criteria.  A list element that is not an object fails earlier,
    in [_count_actions], with AttributeError. *)
Theorem evaluate_raises_on_null_coordinate :
  forall self ground_truth criteria,
    evaluate self click_with_null_x ground_truth criteria = Raise TypeError
    /\ (exists e,
          _check_coordinate_errors self
            [[("action", VStr "click"); ("x", VNone); ("y", VInt 5)]] = [e]
          /\ d_type e = SYNTAX_ERROR)
    /\ evaluate self (VList [VInt 5]) ground_truth criteria
       = Raise AttributeError.
Proof.
  intros self ground_truth criteria. split; [ | split; [ | reflexivity ] ].
  - unfold evaluate, click_with_null_x.
    change (_count_actions _) with
      (Ok [("moveTo", 0%nat); ("click", 1%nat); ("mouseDown", 0%nat);
           ("mouseUp", 0%nat); ("unknown", 0%nat)]).
    cbn [bind dicts_of].
    unfold _count_tool_changes.
    cbn [count_tool_changes_loop act_is dict_get String.eqb Ascii.eqb Bool.eqb].
    unfold hits_a_tool.
    destruct (tool_positions self) as [|[name [tx ty]] tools] eqn:Htools;
      reflexivity.
  - eexists; split; reflexivity.
Qed.

(** ** The score *)

(** Split a hypothesis [(let* x := m in k) = Ok _] into [m = Ok a] and the
    continuation. *)
Ltac inv_bind H :=
  match type of H with
  | bind ?m _ = Ok _ =>
      let E := fresh "E" in
      destruct m eqn:E; cbn [bind] in H; [ | discriminate H ]
  end.

Lemma Qleb_le a b : Qleb a b = true <-> a <= b.
Proof. unfold Qleb. apply Qle_bool_iff. Qed.

Lemma Qleb_gt a b : Qleb a b = false <-> b < a.
Proof.
  unfold Qleb. split; intros H.
  - apply Qnot_le_lt. intros Hle. apply Qle_bool_iff in Hle. congruence.
  - destruct (Qle_bool a b) eqn:E; [ | reflexivity ].
    apply Qle_bool_iff in E. lra.
Qed.

Lemma Qltb_lt a b : Qltb a b = true <-> a < b.
Proof.
  unfold Qltb. rewrite negb_true_iff. apply (Qleb_gt b a).
Qed.

Lemma Qltb_ge a b : Qltb a b = false <-> b <= a.
Proof.
  unfold Qltb. rewrite negb_false_iff. apply (Qleb_le b a).
Qed.

Lemma clamp_score_range x : 0 <= clamp_score x <= 1.
Proof.
  unfold clamp_score, Qmax, Qmin.
  destruct (Qleb 1 (py_round x 3)) eqn:E1.
  - destruct (Qleb 0 1) eqn:E0; [ lra | apply Qleb_gt in E0; lra ].
  - apply Qleb_gt in E1.
    destruct (Qleb 0 (py_round x 3)) eqn:E0.
    + apply Qleb_le in E0. lra.
    + lra.
Qed.

Lemma py_round_thousandths x : exists k : Z, py_round x 3 == k # 1000.
Proof.
  unfold py_round. eexists. rewrite Qred_correct. reflexivity.
Qed.

Lemma clamp_score_thousandths x : exists k : Z, clamp_score x == k # 1000.
Proof.
  unfold clamp_score, Qmax, Qmin.
  destruct (Qleb 1 (py_round x 3)).
  - destruct (Qleb 0 1); [ exists 1000%Z | exists 0%Z ]; reflexivity.
  - destruct (Qleb 0 (py_round x 3)).
    + apply py_round_thousandths.
    + exists 0%Z. reflexivity.
Qed.

Lemma _calculate_score_clamped results s :
  _calculate_score results = Ok s ->
  exists running,
    s = clamp_score
          (with_bonus (total_actions results)
             (running
              - inject_Z (Z.of_nat (length (errors results))) * 0.08
              - inject_Z (Z.of_nat (length (warnings results))) * 0.02)).
Proof.
  unfold _calculate_score. intros H. inv_bind H.
  injection H as <-. eexists. reflexivity.
Qed.

Lemma evaluate_score self action_list ground_truth criteria r :
  evaluate self (VList action_list) ground_truth criteria = Ok r ->
  exists results s,
    _calculate_score results = Ok s
    /\ score r = Some s
    /\ total_actions results = total_actions r
    /\ errors results = errors r
    /\ warnings results = warnings r.
Proof.
  unfold evaluate. intros H. cbv zeta in H.
  repeat inv_bind H.
  injection H as <-. cbn.
  eexists. eexists. split; [ eassumption | ]. repeat split.
Qed.

(** C1: whenever [evaluate] returns a result, on any input whatever, its
    score lies in [0, 1] and is a whole number of thousandths; for a list
    the score is the clamp max(0, min(1, round(., 3))) of the running score
    after the criteria penalties, the per-error and per-warning penalties
    and the bonus. *)
Theorem score_in_unit_interval :
  forall self actions ground_truth criteria r,
    evaluate self actions ground_truth criteria = Ok r ->
    exists s, score r = Some s
              /\ 0 <= s <= 1
              /\ (exists k : Z, s == k # 1000)
              /\ (is_list actions = true ->
                  exists running,
                    s = clamp_score
                          (with_bonus (total_actions r)
                             (running
                              - inject_Z (Z.of_nat (length (errors r))) * 0.08
                              - inject_Z (Z.of_nat (length (warnings r))) * 0.02))).
Proof.
  intros self actions ground_truth criteria r H.
  destruct (is_list actions) eqn:Hl.
  - destruct actions; try discriminate Hl.
    apply evaluate_score in H as (results & s & Hs & Hr & Hn & He & Hw).
    apply _calculate_score_clamped in Hs as [running Hx].
    rewrite Hn, He, Hw in Hx.
    exists s. split; [ exact Hr | ]. rewrite Hx.
    split; [ apply clamp_score_range | ].
    split; [ apply clamp_score_thousandths | ].
    intros _. exists running. reflexivity.
  - rewrite (evaluate_not_a_list self actions ground_truth criteria Hl) in H.
    injection H as <-.
    exists 0. split; [ reflexivity | ].
    split; [ lra | ].
    split; [ exists 0%Z; reflexivity | discriminate ].
Qed.

(** ** What [evaluate] puts in its result *)

Lemma dict_get_set_eq {V} (d : pydict V) k v :
  dict_get (dict_set d k v) k = Some v.
Proof.
  induction d as [|[k' v'] d IH]; cbn.
  - rewrite String.eqb_refl. reflexivity.
  - destruct (String.eqb k' k) eqn:E; cbn.
    + rewrite String.eqb_refl. reflexivity.
    + rewrite E. exact IH.
Qed.

Lemma dict_get_set_ne {V} (d : pydict V) k k' v :
  String.eqb k k' = false ->
  dict_get (dict_set d k v) k' = dict_get d k'.
Proof.
  intros Hne. induction d as [|[k0 v0] d IH]; cbn.
  - rewrite Hne. reflexivity.
  - destruct (String.eqb k0 k) eqn:E; cbn.
    + apply String.eqb_eq in E. subst k0. rewrite Hne. reflexivity.
    + destruct (String.eqb k0 k'); [ reflexivity | exact IH ].
Qed.

(** The pieces of a result returned for a list, read back from the passes
    that produced them. *)
Lemma evaluate_inv self action_list ground_truth criteria r :
  evaluate self (VList action_list) ground_truth criteria = Ok r ->
  let actions := dicts_of action_list in
  exists accurate accuracy,
    _estimate_canvas_coverage_accurate self actions = Ok accurate
    /\ _evaluate_spatial_accuracy self actions (spatial_constraints_of criteria)
       = Ok accuracy
    /\ dict_get (metrics r) "canvas_coverage_accurate" = Some (VFloat accurate)
    /\ dict_get (metrics r) "spatial_accuracy" = Some (opt_float accuracy)
    /\ errors r = _check_syntax_errors actions
                  ++ _check_coordinate_errors self actions
    /\ match given criteria with
       | Some c =>
           results_min_coverage r = min_coverage c
           /\ exists d, _check_criteria self actions c = Ok d
                        /\ criteria_met r = Some d
       | None => results_min_coverage r = None /\ criteria_met r = None
       end.
Proof.
  unfold evaluate. intros H. cbv zeta in H.
  repeat inv_bind H.
  injection H as <-. cbn.
  exists a3, a5. repeat split; try assumption.
  destruct (given criteria) as [c|]; cbn.
  - inv_bind E6. injection E6 as <-.
    split; [ reflexivity | ].
    eexists. split; [ first [ eassumption | reflexivity ] | reflexivity ].
  - injection E6 as <-. split; reflexivity.
Qed.

Lemma _check_criteria_coverage self actions c d required :
  _check_criteria self actions c = Ok d ->
  min_coverage c = Some required ->
  exists accurate,
    _estimate_canvas_coverage_accurate self actions = Ok accurate
    /\ dict_get d "min_coverage_accurate_met"
       = Some (VBool (Qleb required accurate)).
Proof.
  unfold _check_criteria. intros H Hreq. cbv zeta in H. rewrite Hreq in H.
  repeat inv_bind H.
  injection H as <-.
  eexists. split; [ reflexivity | ]. apply dict_get_set_eq.
Qed.

(** ** The coverage penalty *)



(** ** Spatial accuracy *)

Lemma extracted_region_has_center self p region :
  _extract_spatial_constraints p = Some region ->
  exists tx ty, region_center self region = Some (tx, ty).
Proof.
  unfold _extract_spatial_constraints. intros H.
  repeat match type of H with
         | (if ?b then _ else _) = _ => destruct b
         end;
    try discriminate H; injection H as <-; eexists; eexists; reflexivity.
Qed.

Lemma spatial_constraints_have_center self criteria region :
  spatial_constraints_of criteria = Some region ->
  exists tx ty, region_center self region = Some (tx, ty).
Proof.
  unfold spatial_constraints_of. intros H.
  destruct (given criteria) as [c|]; [ | discriminate H ].
  destruct (prompt c) as [p|]; [ | discriminate H ].
  eapply extracted_region_has_center. exact H.
Qed.

(** ** Screen bounds *)

Lemma count_actions_loop_dicts counts action_list c :
  count_actions_loop counts action_list = Ok c ->
  action_list = map VDict (dicts_of action_list).
Proof.
  revert counts. induction action_list as [|v l IH]; intros counts H.
  - reflexivity.
  - cbn in H. destruct v; try discriminate H. cbn. f_equal.
    destruct (get_or d "action" (VStr "unknown")); try discriminate H;
      try (eapply IH; exact H).
    destruct (dict_has counts s); eapply IH; exact H.
Qed.

Lemma evaluate_all_dicts self action_list ground_truth criteria r :
  evaluate self (VList action_list) ground_truth criteria = Ok r ->
  action_list = map VDict (dicts_of action_list).
Proof.
  unfold evaluate. intros H. cbv zeta in H. inv_bind H.
  eapply count_actions_loop_dicts. exact E.
Qed.

Lemma coordinate_errors_at_index self actions i action d :
  In d (coordinate_errors_at self actions i action) ->
  d_index d = Some (Z.of_nat i).
Proof.
  unfold coordinate_errors_at. intros H.
  destruct (has_xy action); [ | contradiction ].
  destruct (to_float (get_none action "x")) as [x|];
    destruct (to_float (get_none action "y")) as [y|];
    try (destruct H as [<-|[]]; reflexivity).
  apply in_app_or in H. destruct H as [H|H].
  - destruct (off_screen x y); [ | contradiction ].
    destruct H as [<-|[]]. reflexivity.
  - destruct (act_is action "mouseDown" && off_canvas self x y);
      [ | contradiction ].
    destruct H as [<-|[]]. reflexivity.
Qed.

Lemma in_check_coordinate_errors_from self actions k todo d :
  In d (check_coordinate_errors_from self actions k todo) <->
  exists j action,
    nth_error todo j = Some action
    /\ In d (coordinate_errors_at self actions (k + j) action).
Proof.
  revert k. induction todo as [|a todo IH]; intros k; cbn.
  - split; [ contradiction | ]. intros (j & action & H & _).
    destruct j; discriminate H.
  - rewrite in_app_iff, IH. split.
    + intros [H|(j & action & Hn & H)].
      * exists 0%nat, a. rewrite Nat.add_0_r. split; [ reflexivity | exact H ].
      * exists (S j), action. rewrite Nat.add_succ_r. split; assumption.
    + intros (j & action & Hn & H). destruct j as [|j].
      * injection Hn as <-. rewrite Nat.add_0_r in H. left. exact H.
      * right. exists j, action. rewrite Nat.add_succ_r in H.
        split; assumption.
Qed.

Lemma syntax_errors_type i actions d :
  In d (check_syntax_errors_from i actions) ->
  d_type d = SYNTAX_ERROR /\ is_screen_bounds_error d = false.
Proof.
  revert i. induction actions as [|a l IH]; intros i H; cbn in H.
  - contradiction.
  - apply in_app_or in H. destruct H as [H|H]; [ | eapply IH; exact H ].
    unfold syntax_errors_at in H.
    destruct (dict_get a "action") as [t|].
    + apply in_app_or in H. destruct H as [H|H].
      * destruct (is_str t "moveTo" && negb (has_xy a)); [ | contradiction ].
        destruct H as [<-|[]]. split; reflexivity.
      * destruct (existsb (is_str t) valid_actions); [ contradiction | ].
        destruct H as [<-|[]]. split; reflexivity.
    + destruct H as [<-|[]]. split; reflexivity.
Qed.

Lemma off_screen_false x y :
  off_screen x y = false <-> (0 <= x <= 1500 /\ 0 <= y <= 900).
Proof.
  unfold off_screen. rewrite !orb_false_iff, !Qltb_ge. tauto.
Qed.

Lemma off_screen_true x y :
  off_screen x y = true <-> (x < 0 \/ 1500 < x \/ y < 0 \/ 900 < y).
Proof.
  unfold off_screen. rewrite !orb_true_iff, !Qltb_lt. tauto.
Qed.

(** C9: the screen-bounds check is inclusive.  For the action at index
    [i] of an evaluated log, with float coordinates (x, y): if
    0 <= x <= 1500 and 0 <= y <= 900 (x = 1500 and y = 900 included) the
    result holds no screen-bounds error for index [i], and no
    COORDINATE_ERROR at all for it unless the action is a mouseDown (which
    has its own canvas check); if a coordinate lies strictly outside (such
    as x = 1500.0001) the result holds the screen-bounds COORDINATE_ERROR
    of that action. *)
Theorem screen_bounds_inclusive :
  forall self action_list ground_truth criteria r i action x y,
    evaluate self (VList action_list) ground_truth criteria = Ok r ->
    nth_error action_list i = Some (VDict action) ->
    has_xy action = true ->
    to_float (get_none action "x") = Ok x ->
    to_float (get_none action "y") = Ok y ->
    (0 <= x <= 1500 -> 0 <= y <= 900 ->
     forall d, In d (errors r) -> d_index d = Some (Z.of_nat i) ->
               is_screen_bounds_error d = false
               /\ (act_is action "mouseDown" = false ->
                   d_type d <> COORDINATE_ERROR))
    /\ (x < 0 \/ 1500 < x \/ y < 0 \/ 900 < y ->
        exists d, In d (errors r)
                  /\ d_type d = COORDINATE_ERROR
                  /\ d_index d = Some (Z.of_nat i)
                  /\ is_screen_bounds_error d = true).
Proof.
  intros self action_list ground_truth criteria r i action x y He Hn Hxy Hx Hy.
  pose proof (evaluate_all_dicts _ _ _ _ _ He) as Hd.
  apply evaluate_inv in He as (_ & _ & _ & _ & _ & _ & Herr & _).
  cbv zeta in Herr.
  set (actions := dicts_of action_list) in *.
  assert (Hn' : nth_error actions i = Some action).
  { rewrite Hd in Hn. rewrite nth_error_map in Hn.
    match type of Hn with
    | option_map _ ?t = _ => destruct t as [a|] eqn:En
    end; cbn in Hn; [ injection Hn as ->; exact En | discriminate Hn ]. }
  split.
  - intros Hbx Hby d Hin Hidx.
    rewrite Herr in Hin. apply in_app_or in Hin. destruct Hin as [Hin|Hin].
    + apply syntax_errors_type in Hin as [Ht Hs].
      split; [ exact Hs | ]. intros _. rewrite Ht. discriminate.
    + apply in_check_coordinate_errors_from in Hin as (j & a' & Hj & Hin).
      cbn in Hin.
      pose proof (coordinate_errors_at_index _ _ _ _ _ Hin) as Hidx'.
      rewrite Hidx in Hidx'. injection Hidx' as Hij.
      apply Nat2Z.inj in Hij. subst j.
      rewrite Hn' in Hj. injection Hj as <-.
      unfold coordinate_errors_at in Hin. rewrite Hxy, Hx, Hy in Hin.
      assert (Hoff : off_screen x y = false)
        by (apply off_screen_false; split; assumption).
      rewrite Hoff in Hin. cbn [app] in Hin.
      destruct (act_is action "mouseDown"); cbn [andb] in Hin.
      * destruct (off_canvas self x y); [ | contradiction ].
        destruct Hin as [<-|[]].
        split; [ reflexivity | intros Hf; discriminate Hf ].
      * contradiction.
  - intros Hout. apply off_screen_true in Hout.
    exists (coordinate_error self action i x y screen_bounds actions).
    split; [ | repeat split ].
    rewrite Herr. apply in_or_app. right.
    apply in_check_coordinate_errors_from.
    exists i, action. split; [ exact Hn' | ].
    cbn. unfold coordinate_errors_at. rewrite Hxy, Hx, Hy, Hout.
    left. reflexivity.
Qed.

(** ** The coverage grid only grows *)

Lemma coverage_loop_app self st pre suffix :
  coverage_loop self st (pre ++ suffix)
  = (let* st' := coverage_prefix self st pre suffix in
     coverage_loop self st' suffix).
Proof.
  revert st. induction pre as [|a pre IH]; intros st; cbn.
  - reflexivity.
  - destruct (coverage_step self st a (pre ++ suffix)); cbn;
      [ apply IH | reflexivity ].
Qed.

Lemma select_tool_rest self tool action r1 r2 :
  next_is_click r1 = next_is_click r2 ->
  select_tool self tool action r1 = select_tool self tool action r2.
Proof. intros H. unfold select_tool. rewrite H. reflexivity. Qed.

Lemma coverage_step_rest self st action r1 r2 :
  next_is_click r1 = next_is_click r2 ->
  coverage_step self st action r1 = coverage_step self st action r2.
Proof.
  intros H. unfold coverage_step.
  rewrite (select_tool_rest self _ action r1 r2 H). reflexivity.
Qed.

Lemma next_is_click_app pre s1 s2 :
  next_is_click s1 = next_is_click s2 ->
  next_is_click (pre ++ s1) = next_is_click (pre ++ s2).
Proof. intros H. destruct pre; [ exact H | reflexivity ]. Qed.

Lemma coverage_prefix_suffix self st pre s1 s2 :
  next_is_click s1 = next_is_click s2 ->
  coverage_prefix self st pre s1 = coverage_prefix self st pre s2.
Proof.
  intros H. revert st. induction pre as [|a pre IH]; intros st; cbn.
  - reflexivity.
  - rewrite (coverage_step_rest self st a (pre ++ s1) (pre ++ s2)
               (next_is_click_app pre s1 s2 H)).
    destruct (coverage_step self st a (pre ++ s2)); cbn;
      [ apply IH | reflexivity ].
Qed.

(** Each marking operation adds a set of cells that does not depend on
    what the grid already holds. *)
Lemma mark_point_adds self g p g1 :
  mark_point self g p = Ok g1 ->
  exists extra : gset cell,
    g1 = extra ∪ g /\ forall g', mark_point self g' p = Ok (extra ∪ g').
Proof.
  unfold mark_point. destruct p as [x y]. intros H.
  destruct (in_canvas self x y).
  - inv_bind H. inv_bind H. injection H as <-.
    exists {[ (a0, a) ]}. split; [ reflexivity | ]. intros g'. reflexivity.
  - injection H as <-. exists ∅. split.
    + symmetry. apply (left_id_L ∅ (∪)).
    + intros g'. f_equal. symmetry. apply (left_id_L ∅ (∪)).
Qed.

Lemma mark_points_adds self ps g g1 :
  mark_points self g ps = Ok g1 ->
  exists extra : gset cell,
    g1 = extra ∪ g /\ forall g', mark_points self g' ps = Ok (extra ∪ g').
Proof.
  revert g g1. induction ps as [|p ps IH]; intros g g1 H; cbn in H.
  - injection H as <-. exists ∅. split.
    + symmetry. apply (left_id_L ∅ (∪)).
    + intros g'. cbn. f_equal. symmetry. apply (left_id_L ∅ (∪)).
  - inv_bind H.
    destruct (mark_point_adds _ _ _ _ E) as (e1 & -> & H1).
    destruct (IH _ _ H) as (e2 & -> & H2).
    exists (e2 ∪ e1). split.
    + apply (assoc_L (∪)).
    + intros g'. cbn. rewrite H1. cbn. rewrite H2. f_equal.
      apply (assoc_L (∪)).
Qed.

Lemma fold_mark_adds (cells : list cell) (g : gset cell) :
  fold_right mark g cells = list_to_set cells ∪ g.
Proof.
  induction cells as [|c cells IH]; cbn.
  - symmetry. apply (left_id_L ∅ (∪)).
  - rewrite IH. unfold mark. apply (assoc_L (∪)).
Qed.

Lemma _fill_shape_in_grid_adds self g tool start_pos end_pos g1 :
  _fill_shape_in_grid self g tool start_pos end_pos = Ok g1 ->
  exists extra : gset cell,
    g1 = extra ∪ g
    /\ forall g', _fill_shape_in_grid self g' tool start_pos end_pos
                  = Ok (extra ∪ g').
Proof.
  unfold _fill_shape_in_grid. destruct start_pos as [x1 y1].
  destruct end_pos as [x2 y2]. intros H. cbv zeta in H. cbv zeta.
  repeat inv_bind H.
  destruct (String.eqb tool "rectangle").
  - inv_bind H. injection H as <-.
    exists (list_to_set a3). split; [ apply fold_mark_adds | ].
    intros g'. cbn [bind]. rewrite E3. cbn [bind].
    f_equal. apply fold_mark_adds.
  - destruct (String.eqb tool "circle").
    + inv_bind H.
      destruct (mark_points_adds _ _ _ _ H) as (e & -> & He).
      exists e. split; [ reflexivity | ].
      intros g'. cbn [bind]. rewrite E3. cbn [bind]. apply He.
    + destruct (String.eqb tool "line").
      * destruct (mark_points_adds _ _ _ _ H) as (e & -> & He).
        exists e. split; [ reflexivity | ].
        intros g'. cbn [bind]. apply He.
      * injection H as <-. exists ∅. split.
        -- symmetry. apply (left_id_L ∅ (∪)).
        -- intros g'. cbn [bind]. f_equal. symmetry. apply (left_id_L ∅ (∪)).
Qed.

Lemma union_empty_grid (g : gset cell) : g = ∅ ∪ g.
Proof. symmetry. apply (left_id_L ∅ (∪)). Qed.

Lemma release_fill_adds self st tool up_pos g1 :
  release_fill self st tool up_pos = Ok g1 ->
  exists extra : gset cell,
    g1 = extra ∪ grid st
    /\ forall g', release_fill self (with_grid g' st) tool up_pos
                  = Ok (extra ∪ g').
Proof.
  unfold release_fill.
  cbn [with_grid grid is_drawing current_tool mouse_down_pos last_pos].
  intros H.
  destruct (mouse_down_pos st) as [start_pos|].
  - destruct (is_drawing st && str_in tool shape_tools).
    + apply _fill_shape_in_grid_adds in H. exact H.
    + injection H as <-. exists ∅. split; [ apply union_empty_grid | ].
      intros g'. rewrite <- union_empty_grid. reflexivity.
  - injection H as <-. exists ∅. split; [ apply union_empty_grid | ].
    intros g'. rewrite <- union_empty_grid. reflexivity.
Qed.

Lemma stroke_mark_adds self g drawing tool action g1 :
  stroke_mark self g drawing tool action = Ok g1 ->
  exists extra : gset cell,
    g1 = extra ∪ g
    /\ forall g', stroke_mark self g' drawing tool action = Ok (extra ∪ g').
Proof.
  unfold stroke_mark. intros H.
  destruct (drawing && str_in tool stroke_tools && has_xy action).
  - inv_bind H. destruct (mark_point_adds _ _ _ _ H) as (e & -> & He).
    exists e. split; [ reflexivity | ]. intros g'. cbn. apply He.
  - injection H as <-. exists ∅. split; [ apply union_empty_grid | ].
    intros g'. rewrite <- union_empty_grid. reflexivity.
Qed.

Lemma coverage_step_adds self st action rest s :
  coverage_step self st action rest = Ok s ->
  exists extra : gset cell,
    grid s = extra ∪ grid st
    /\ forall g', coverage_step self (with_grid g' st) action rest
                  = Ok (with_grid (extra ∪ g') s).
Proof.
  unfold coverage_step. cbv zeta. intros H.
  inv_bind H. rename a into tool.
  inv_bind H. destruct a as [[g0 drawing] down].
  inv_bind H. rename a into g1. injection H as <-.
  destruct (stroke_mark_adds _ _ _ _ _ _ E1) as (e2 & -> & H2).
  assert (H1 : exists e1 : gset cell,
             g0 = e1 ∪ grid st /\
             forall g',
               (if act_is action "mouseDown"
                then Ok (grid (with_grid g' st), true,
                         Some (if has_xy action
                               then (get_none action "x", get_none action "y")
                               else if has_xy action
                                    then (get_none action "x",
                                          get_none action "y")
                                    else last_pos (with_grid g' st)))
                else if act_is action "mouseUp"
                     then let* g := release_fill self (with_grid g' st) tool
                                      (if has_xy action
                                       then (get_none action "x",
                                             get_none action "y")
                                       else if has_xy action
                                            then (get_none action "x",
                                                  get_none action "y")
                                            else last_pos (with_grid g' st)) in
                          Ok (g, false, None)
                     else Ok (grid (with_grid g' st),
                              is_drawing (with_grid g' st),
                              mouse_down_pos (with_grid g' st)))
               = Ok (e1 ∪ g', drawing, down)).
  { destruct (act_is action "mouseDown").
    - injection E0 as <- <- <-. exists ∅.
      split; [ apply union_empty_grid | ].
      intros g'. cbn. rewrite <- union_empty_grid. reflexivity.
    - destruct (act_is action "mouseUp").
      + inv_bind E0. injection E0 as <- <- <-.
        destruct (release_fill_adds _ _ _ _ _ E2) as (e1 & -> & H1).
        exists e1. split; [ reflexivity | ].
        intros g'. cbn [with_grid last_pos]. rewrite H1. reflexivity.
      + injection E0 as <- <- <-. exists ∅.
        split; [ apply union_empty_grid | ].
        intros g'. cbn. rewrite <- union_empty_grid. reflexivity. }
  destruct H1 as (e1 & -> & H1).
  exists (e2 ∪ e1). split; [ cbn; apply (assoc_L (∪)) | ].
  intros g'.
  change (current_tool (with_grid g' st)) with (current_tool st).
  rewrite E. cbn [bind]. rewrite H1. cbn [bind]. rewrite H2. cbn [bind].
  unfold with_grid. cbn. do 2 f_equal. apply (assoc_L (∪)).
Qed.

Lemma coverage_loop_adds self actions st s :
  coverage_loop self st actions = Ok s ->
  exists extra : gset cell,
    grid s = extra ∪ grid st
    /\ forall g', coverage_loop self (with_grid g' st) actions
                  = Ok (with_grid (extra ∪ g') s).
Proof.
  revert st s. induction actions as [|a l IH]; intros st s H; cbn in H.
  - injection H as <-. exists ∅. split; [ apply union_empty_grid | ].
    intros g'. cbn. rewrite <- union_empty_grid. reflexivity.
  - inv_bind H. rename a0 into s1.
    destruct (coverage_step_adds _ _ _ _ _ E) as (e1 & Hg1 & H1).
    destruct (IH _ _ H) as (e2 & Hg2 & H2).
    exists (e2 ∪ e1). split.
    + rewrite Hg2, Hg1. apply (assoc_L (∪)).
    + intros g'. cbn. rewrite H1. cbn [bind].
      specialize (H2 (e1 ∪ g')).
      replace (with_grid (e1 ∪ g') s1) with
        (with_grid (e1 ∪ g') (with_grid (e1 ∪ g') s1)) by reflexivity.
      assert (Hw : forall g st0, coverage_loop self (with_grid g (with_grid g st0)) l
                            = coverage_loop self (with_grid g st0) l)
        by reflexivity.
      rewrite Hw.
      transitivity (coverage_loop self (with_grid (e1 ∪ g') s1) l);
        [ reflexivity | ].
      rewrite H2. f_equal. unfold with_grid. cbn. f_equal.
      apply (assoc_L (∪)).
Qed.

(** ** The coverage value *)

Lemma round_half_even_comp q q' :
  q == q' -> round_half_even q = round_half_even q'.
Proof.
  intros H. unfold round_half_even.
  rewrite (Qfloor_comp _ _ H).
  assert (Hc : Qcompare (q - inject_Z (Qfloor q')) (1 # 2)
               = Qcompare (q' - inject_Z (Qfloor q')) (1 # 2)).
  { apply Qcompare_comp; [ rewrite H; reflexivity | reflexivity ]. }
  rewrite Hc. reflexivity.
Qed.

Lemma round_half_even_Z k : round_half_even (inject_Z k) = k.
Proof.
  unfold round_half_even. rewrite Qfloor_Z.
  assert (Hc : Qcompare (inject_Z k - inject_Z k) (1 # 2) = Lt).
  { apply Qlt_alt.
    setoid_replace (inject_Z k - inject_Z k) with 0 using relation Qeq by ring.
    reflexivity. }
  rewrite Hc. reflexivity.
Qed.

Lemma coverage_of_exact (g : gset cell) :
  coverage_of g == inject_Z (25 * Z.of_nat (size g)) / 10000.
Proof.
  unfold coverage_of, py_round. rewrite Qred_correct.
  set (n := Z.of_nat (size g)).
  assert (H : inject_Z n / inject_Z total_cells * inject_Z (10 ^ Z.of_nat 4)
              == inject_Z (25 * n)).
  { rewrite inject_Z_mult.
    change (inject_Z total_cells) with 400.
    change (inject_Z (10 ^ Z.of_nat 4)) with 10000.
    change (inject_Z 25) with 25. field. }
  rewrite (round_half_even_comp _ _ H), round_half_even_Z.
  change (Z.to_pos (10 ^ Z.of_nat 4)) with 10000%positive.
  rewrite (Qmake_Qdiv (25 * n) 10000). reflexivity.
Qed.

Lemma coverage_of_mono (g g' : gset cell) :
  g ⊆ g' -> coverage_of g <= coverage_of g'.
Proof.
  intros H. rewrite !coverage_of_exact.
  apply subseteq_size in H.
  unfold Qdiv. apply Qmult_le_compat_r; [ | discriminate ].
  rewrite <- Zle_Qle. lia.
Qed.

Lemma coverage_of_positive (g : gset cell) c :
  c ∈ g -> 0 < coverage_of g.
Proof.
  intros H. rewrite coverage_of_exact.
  assert (Hs : (0 < size g)%nat).
  { destruct (size g) eqn:E; [ | lia ].
    apply size_empty_inv in E. set_solver. }
  unfold Qdiv. apply Qmult_lt_0_compat; [ | reflexivity ].
  change 0 with (inject_Z 0). rewrite <- Zlt_Qlt. lia.
Qed.

(** ** The default tool *)

Lemma coverage_step_fields self st action rest s :
  coverage_step self st action rest = Ok s ->
  select_tool self (current_tool st) action rest = Ok (current_tool s)
  /\ is_drawing s = next_drawing (is_drawing st) action
  /\ exists g0, stroke_mark self g0 (is_drawing s) (current_tool s) action
                = Ok (grid s).
Proof.
  unfold coverage_step, next_drawing. cbv zeta. intros H.
  inv_bind H. rename a into tool.
  inv_bind H. destruct a as [[g0 drawing] down].
  inv_bind H. injection H as <-. cbn.
  split; [ reflexivity | ]. split; [ | exists g0; exact E1 ].
  destruct (act_is action "mouseDown").
  - injection E0 as _ <- _. reflexivity.
  - destruct (act_is action "mouseUp").
    + inv_bind E0. injection E0 as _ <- _. reflexivity.
    + injection E0 as _ <- _. reflexivity.
Qed.

Lemma drawing_after_app drawing l1 l2 :
  drawing_after drawing (l1 ++ l2)
  = drawing_after (drawing_after drawing l1) l2.
Proof.
  revert drawing. induction l1 as [|a l1 IH]; intros drawing; cbn.
  - reflexivity.
  - apply IH.
Qed.

Lemma keeps_tool_app self tool l1 l2 suffix :
  keeps_tool self tool (l1 ++ l2) suffix ->
  keeps_tool self tool l1 (l2 ++ suffix) /\ keeps_tool self tool l2 suffix.
Proof.
  induction l1 as [|a l1 IH]; cbn.
  - intros H. split; [ exact I | exact H ].
  - rewrite <- app_assoc. intros [Ha H].
    destruct (IH H) as [H1 H2]. repeat split; assumption.
Qed.

Lemma coverage_prefix_keeps_tool self pre suffix st s :
  coverage_prefix self st pre suffix = Ok s ->
  keeps_tool self (current_tool st) pre suffix ->
  current_tool s = current_tool st
  /\ is_drawing s = drawing_after (is_drawing st) pre.
Proof.
  revert st. induction pre as [|a pre IH]; intros st H Hk; cbn in H.
  - injection H as <-. split; reflexivity.
  - inv_bind H. rename a0 into s1. destruct Hk as [Ha Hk].
    destruct (coverage_step_fields _ _ _ _ _ E) as (Ht & Hd & _).
    rewrite Ha in Ht. injection Ht as Ht.
    rewrite Ht in Hk.
    destruct (IH _ H Hk) as [IHt IHd].
    split; [ congruence | ].
    rewrite IHd, Hd. reflexivity.
Qed.

(** C10: the coverage scratch state starts with the tool "pen".  In a
    log [pre ++ a :: post] where no action up to and including [a] selects
    another tool (no tool button was clicked yet), if a segment is open at
    [a] and [a] carries an in-canvas point, the cell of that point is
    marked in the final grid and canvas_coverage_accurate is positive. *)
Theorem default_tool_is_pen :
  forall self pre a post st_final cx cy,
    coverage_loop self initial_state (pre ++ a :: post) = Ok st_final ->
    keeps_tool self (current_tool initial_state) (pre ++ [a]) post ->
    drawing_after false (pre ++ [a]) = true ->
    has_xy a = true ->
    canvas_xy self a = Ok (cx, cy) ->
    in_canvas self cx cy = true ->
    current_tool initial_state = "pen"
    /\ exists gx gy,
         grid_index cx (canvas_width self) = Ok gx
         /\ grid_index cy (canvas_height self) = Ok gy
         /\ (gy, gx) ∈ grid st_final
         /\ _estimate_canvas_coverage_accurate self (pre ++ a :: post)
            = Ok (coverage_of (grid st_final))
         /\ 0 < coverage_of (grid st_final).
Proof.
  intros self pre a post st_final cx cy Hloop Hk Hopen Hxy Hc Hin.
  split; [ reflexivity | ].
  pose proof Hloop as H.
  rewrite coverage_loop_app in H. inv_bind H. rename a0 into s1.
  cbn in H. inv_bind H. rename a0 into s2.
  apply keeps_tool_app in Hk as [Hpre [Ha _]]. cbn [app] in Hpre, Ha.
  destruct (coverage_prefix_keeps_tool _ _ _ _ _ E Hpre) as [Ht1 Hd1].
  destruct (coverage_step_fields _ _ _ _ _ E0) as (Ht2 & Hd2 & g0 & Hm).
  rewrite Ht1, Ha in Ht2. injection Ht2 as Ht2.
  rewrite drawing_after_app in Hopen. cbn in Hopen, Hd1.
  assert (Hd : is_drawing s2 = true).
  { rewrite Hd2, Hd1. exact Hopen. }
  unfold stroke_mark in Hm. rewrite Hd, <- Ht2, Hxy, Hc in Hm.
  cbn in Hm. rewrite Hin in Hm.
  inv_bind Hm. rename a0 into gx. inv_bind Hm. rename a0 into gy.
  injection Hm as Hg2.
  destruct (coverage_loop_adds _ _ _ _ H) as (extra & Hgf & _).
  assert (Hcell : (gy, gx) ∈ grid st_final).
  { rewrite Hgf. apply elem_of_union. right. rewrite <- Hg2. unfold mark.
    apply elem_of_union. left. apply elem_of_singleton. reflexivity. }
  exists gx, gy. repeat split; try assumption; try reflexivity.
  - unfold _estimate_canvas_coverage_accurate. rewrite Hloop. reflexivity.
  - eapply coverage_of_positive. exact Hcell.
Qed.

(** ** Inserting a stroke point *)

Lemma find_tool_numeric x y tools :
  exists t, find_tool (VFloat x) (VFloat y) tools = Ok t.
Proof.
  induction tools as [|[name [tx ty]] tools IH].
  - eexists. reflexivity.
  - cbn [find_tool]. unfold near_tool. cbn [num bind].
    destruct (Qltb (Qabs (x - tx)) 40); cbn [bind].
    + destruct (Qltb (Qabs (y - ty)) 40); [ eexists; reflexivity | exact IH ].
    + exact IH.
Qed.

Lemma stroke_not_shape tool :
  str_in tool stroke_tools = true -> str_in tool shape_tools = false.
Proof.
  unfold str_in, stroke_tools, shape_tools. cbn. intros H.
  rewrite orb_false_r in H. apply orb_true_iff in H.
  destruct H as [H|H]; apply String.eqb_eq in H; subst tool; reflexivity.
Qed.

Lemma grid_index_ok v extent :
  ~ extent == 0 -> exists k, grid_index v extent = Ok k.
Proof.
  intros H. unfold grid_index, pdiv.
  destruct (Qeq_bool extent 0) eqn:E.
  - apply Qeq_bool_iff in E. contradiction.
  - cbn. eexists. reflexivity.
Qed.

(** The step at an inserted in-canvas [moveTo], in an open stroke
    segment, when no click follows: the tool and the segment are
    unchanged, a cell is marked, the last-known position moves. *)
Lemma coverage_step_inserted self st x y post :
  is_drawing st = true ->
  str_in (current_tool st) stroke_tools = true ->
  next_is_click post = false ->
  in_canvas self (x - canvas_offset_x self) (y - canvas_offset_y self) = true ->
  ~ canvas_width self == 0 ->
  ~ canvas_height self == 0 ->
  exists extra : gset cell,
    coverage_step self st (moveTo x y) post
    = Ok (with_last (VFloat x, VFloat y) (with_grid (extra ∪ grid st) st)).
Proof.
  intros Hd Ht Hn Hin Hw Hh.
  unfold coverage_step. cbv zeta.
  change (has_xy (moveTo x y)) with true.
  change (act_is (moveTo x y) "mouseDown") with false.
  change (act_is (moveTo x y) "mouseUp") with false.
  change (get_none (moveTo x y) "x") with (VFloat x).
  change (get_none (moveTo x y) "y") with (VFloat y).
  assert (Hsel : select_tool self (current_tool st) (moveTo x y) post
                 = Ok (current_tool st)).
  { unfold select_tool.
    change (act_is (moveTo x y) "click") with false.
    change (act_is (moveTo x y) "moveTo") with true.
    change (get_or (moveTo x y) "x" (VInt 0)) with (VFloat x).
    change (get_or (moveTo x y) "y" (VInt 0)) with (VFloat y).
    cbn [andb]. rewrite Hn.
    destruct (find_tool_numeric x y (tool_positions self)) as [t ->].
    cbn. destruct t; reflexivity. }
  rewrite Hsel. cbn [bind].
  unfold stroke_mark. rewrite Hd, Ht.
  change (has_xy (moveTo x y)) with true. cbn [andb].
  change (canvas_xy self (moveTo x y))
    with (Ok (x - canvas_offset_x self, y - canvas_offset_y self)).
  cbn [bind]. unfold mark_point. rewrite Hin.
  destruct (grid_index_ok (x - canvas_offset_x self) _ Hw) as [gx ->].
  destruct (grid_index_ok (y - canvas_offset_y self) _ Hh) as [gy ->].
  cbn [bind]. exists {[ (gy, gx) ]}.
  unfold with_last, with_grid, mark. cbn. rewrite Hd. reflexivity.
Qed.

Lemma coverage_step_has_xy self st p action rest :
  has_xy action = true ->
  coverage_step self (with_last p st) action rest
  = coverage_step self st action rest.
Proof.
  intros H. unfold coverage_step, release_fill. cbv zeta. rewrite H.
  reflexivity.
Qed.

Lemma coverage_step_last_unread self st p action rest s :
  has_xy action = false ->
  act_is action "mouseDown" = false ->
  act_is action "moveTo" = false ->
  str_in (current_tool st) stroke_tools = true ->
  coverage_step self st action rest = Ok s ->
  coverage_step self (with_last p st) action rest = Ok (with_last p s)
  /\ current_tool s = current_tool st.
Proof.
  intros Hxy Hdown Hmove Ht.
  unfold coverage_step, select_tool, release_fill, stroke_mark. cbv zeta.
  cbn [with_last grid is_drawing current_tool mouse_down_pos last_pos].
  rewrite Hxy, Hdown, Hmove, !andb_false_r. cbn [bind].
  rewrite (stroke_not_shape _ Ht), !andb_false_r.
  destruct (act_is action "mouseUp"); [ destruct (mouse_down_pos st) | ];
    cbn [bind]; rewrite ?andb_false_r; cbn [bind]; intros H;
    injection H as <-; split; reflexivity.
Qed.

Lemma with_last_same s : with_last (last_pos s) s = s.
Proof. destruct s. reflexivity. Qed.

Lemma coverage_loop_last_unread self actions st p s :
  lastpos_unread actions = true ->
  str_in (current_tool st) stroke_tools = true ->
  coverage_loop self st actions = Ok s ->
  exists p', coverage_loop self (with_last p st) actions = Ok (with_last p' s).
Proof.
  revert st. induction actions as [|a l IH]; intros st Hu Ht H; cbn in H.
  - injection H as <-. exists p. reflexivity.
  - inv_bind H. rename a0 into s1. cbn in Hu.
    destruct (has_xy a) eqn:Hxy.
    + exists (last_pos s). cbn.
      rewrite (coverage_step_has_xy _ _ _ _ _ Hxy), E. cbn [bind].
      rewrite with_last_same. exact H.
    + destruct (act_is a "mouseDown") eqn:Hdown; [ discriminate Hu | ].
      destruct (act_is a "moveTo") eqn:Hmove; [ discriminate Hu | ].
      cbn in Hu.
      destruct (coverage_step_last_unread _ _ p _ _ _ Hxy Hdown Hmove Ht E)
        as [Hs Htool].
      rewrite <- Htool in Ht.
      destruct (IH s1 Hu Ht H) as [p' Hp'].
      exists p'. cbn. rewrite Hs. cbn [bind]. exact Hp'.
Qed.

(** C6 (as amended): let [st] be the scratch state at the insertion
    point of a log [pre ++ post], with a segment open and the tool pen or
    eraser.  Inserting there a moveTo to an in-canvas point gives a
    canvas_coverage_accurate that is defined and not smaller, provided
    the action after the insertion point is not a click and, up to the
    next action carrying both coordinates, there is no mouseDown and no
    moveTo (the canvas has a non-zero width and height). *)
Theorem inserted_stroke_point_monotone :
  forall self pre post x y st c,
    ~ canvas_width self == 0 ->
    ~ canvas_height self == 0 ->
    coverage_prefix self initial_state pre post = Ok st ->
    is_drawing st = true ->
    str_in (current_tool st) stroke_tools = true ->
    in_canvas self (x - canvas_offset_x self) (y - canvas_offset_y self) = true ->
    next_is_click post = false ->
    lastpos_unread post = true ->
    _estimate_canvas_coverage_accurate self (pre ++ post) = Ok c ->
    exists c',
      _estimate_canvas_coverage_accurate self (pre ++ moveTo x y :: post) = Ok c'
      /\ c <= c'.
Proof.
  intros self pre post x y st c Hw Hh Hpre Hd Ht Hin Hn Hu Hc.
  unfold _estimate_canvas_coverage_accurate in Hc |- *.
  inv_bind Hc. rename a into sf. injection Hc as <-.
  rewrite coverage_loop_app, Hpre in E. cbn [bind] in E.
  rewrite coverage_loop_app.
  rewrite (coverage_prefix_suffix self initial_state pre
             (moveTo x y :: post) post) by (cbn; symmetry; exact Hn).
  rewrite Hpre. cbn [bind coverage_loop].
  destruct (coverage_step_inserted self st x y post Hd Ht Hn Hin Hw Hh)
    as [e ->].
  cbn [bind].
  destruct (coverage_loop_adds _ _ _ _ E) as (extra & Hgf & Hadd).
  specialize (Hadd (e ∪ grid st)).
  destruct (coverage_loop_last_unread self post
              (with_grid (e ∪ grid st) st) (VFloat x, VFloat y) _
              Hu Ht Hadd) as [p' ->].
  cbn [bind]. eexists. split; [ reflexivity | ].
  apply coverage_of_mono. cbn. rewrite Hgf.
  intros cl Hcl. apply elem_of_union in Hcl.
  apply elem_of_union. destruct Hcl as [Hcl|Hcl].
  - left. exact Hcl.
  - right. apply elem_of_union. right. exact Hcl.
Qed.

(** * Further properties of the evaluator *)

(** ** Action counts *)

Lemma dict_set_keys {V} (d : pydict V) k v :
  dict_has d k = true -> map fst (dict_set d k v) = map fst d.
Proof.
  unfold dict_has. induction d as [|[k' v'] d IH]; cbn.
  - discriminate.
  - destruct (String.eqb k' k) eqn:E; cbn.
    + intros _. apply String.eqb_eq in E. subst k'. reflexivity.
    + intros H. f_equal. apply IH. exact H.
Qed.

Lemma dict_set_total counts k n :
  dict_get counts k = Some n ->
  counts_total (dict_set counts k (S n)) = S (counts_total counts).
Proof.
  induction counts as [|[k' n'] d IH]; cbn [dict_get dict_set].
  - discriminate.
  - destruct (String.eqb k' k) eqn:E.
    + intros H. injection H as ->. reflexivity.
    + intros H. change (counts_total ((k', n') :: dict_set d k (S n)))
        with (n' + counts_total (dict_set d k (S n)))%nat.
      rewrite (IH H).
      change (counts_total ((k', n') :: d)) with (n' + counts_total d)%nat.
      lia.
Qed.

Lemma dict_incr_total counts k :
  dict_has counts k = true ->
  counts_total (dict_incr counts k) = S (counts_total counts)
  /\ map fst (dict_incr counts k) = map fst counts.
Proof.
  intros H. unfold dict_incr. pose proof H as H'. unfold dict_has in H.
  destruct (dict_get counts k) as [n|] eqn:G; [ | discriminate H ].
  split; [ apply dict_set_total; exact G | apply dict_set_keys; exact H' ].
Qed.

Lemma count_actions_loop_total counts actions c :
  map fst counts = action_types ->
  count_actions_loop counts actions = Ok c ->
  map fst c = action_types
  /\ counts_total c = (counts_total counts + length actions)%nat.
Proof.
  revert counts. induction actions as [|v l IH]; intros counts Hk H; cbn in H.
  - injection H as <-. split; [ exact Hk | cbn; lia ].
  - assert (Hunknown : dict_has counts "unknown" = true).
    { destruct counts as [|[k1 n1] [|[k2 n2] [|[k3 n3] [|[k4 n4] [|[k5 n5] [|]]]]]];
        try discriminate Hk.
      injection Hk as -> -> -> -> ->. reflexivity. }
    assert (Hstep : forall k, dict_has counts k = true ->
              count_actions_loop (dict_incr counts k) l = Ok c ->
              map fst c = action_types
              /\ counts_total c = (counts_total counts + length (v :: l))%nat).
    { intros k Hhas Hl.
      destruct (dict_incr_total counts k Hhas) as [Ht Hkeys].
      destruct (IH (dict_incr counts k)) as [Hc1 Hc2];
        [ rewrite Hkeys; exact Hk | exact Hl | ].
      split; [ exact Hc1 | ]. rewrite Hc2, Ht. cbn. lia. }
    destruct v; try discriminate H.
    destruct (get_or d "action" (VStr "unknown")); try discriminate H;
      try (apply (Hstep "unknown" Hunknown H)).
    destruct (dict_has counts s) eqn:Hs.
    + apply (Hstep s Hs H).
    + apply (Hstep "unknown" Hunknown H).
Qed.

(** X1: whenever [_count_actions] returns, the breakdown has exactly the
    five keys moveTo, click, mouseDown, mouseUp, unknown, and its counts add
    up to the number of actions: every action is counted once. *)
Theorem action_counts_sum_to_length :
  forall actions counts,
    _count_actions actions = Ok counts ->
    map fst counts = action_types
    /\ counts_total counts = length actions.
Proof.
  intros actions counts H.
  destruct (count_actions_loop_total zero_counts actions counts eq_refl H)
    as [Hk Ht].
  split; [ exact Hk | exact Ht ].
Qed.

(** ** Syntax errors *)

Lemma syntax_errors_at_nil i action :
  syntax_errors_at i action = [] <-> well_formed_action action = true.
Proof.
  unfold syntax_errors_at, well_formed_action.
  destruct (dict_get action "action") as [t|]; [ | split; discriminate ].
  destruct (existsb (is_str t) valid_actions);
    destruct (is_str t "moveTo"); destruct (has_xy action); cbn;
    split; try discriminate; reflexivity.
Qed.

Lemma check_syntax_errors_from_nil i actions :
  check_syntax_errors_from i actions = [] <->
  forallb well_formed_action actions = true.
Proof.
  revert i. induction actions as [|a l IH]; intros i; cbn.
  - split; reflexivity.
  - rewrite andb_true_iff, <- (IH (S i)), <- (syntax_errors_at_nil i a).
    split.
    + intros H. apply app_eq_nil in H. exact H.
    + intros [H1 H2]. rewrite H1, H2. reflexivity.
Qed.

Lemma syntax_errors_at_index i action d :
  In d (syntax_errors_at i action) ->
  d_index d = Some (Z.of_nat i) /\ well_formed_action action = false.
Proof.
  intros H.
  assert (Hw : well_formed_action action = false).
  { destruct (well_formed_action action) eqn:E; [ | reflexivity ].
    apply (proj2 (syntax_errors_at_nil i action)) in E.
    rewrite E in H. contradiction. }
  split; [ | exact Hw ].
  unfold syntax_errors_at in H.
  destruct (dict_get action "action") as [t|].
  - apply in_app_or in H. destruct H as [H|H].
    + destruct (is_str t "moveTo" && negb (has_xy action)); [ | contradiction ].
      destruct H as [<-|[]]. reflexivity.
    + destruct (existsb (is_str t) valid_actions); [ contradiction | ].
      destruct H as [<-|[]]. reflexivity.
  - destruct H as [<-|[]]. reflexivity.
Qed.

Lemma check_syntax_errors_from_index k actions d :
  In d (check_syntax_errors_from k actions) ->
  exists j action,
    nth_error actions j = Some action
    /\ d_index d = Some (Z.of_nat (k + j))
    /\ well_formed_action action = false.
Proof.
  revert k. induction actions as [|a l IH]; intros k H; cbn in H.
  - contradiction.
  - apply in_app_or in H. destruct H as [H|H].
    + apply syntax_errors_at_index in H as [Hi Hw].
      exists 0%nat, a. rewrite Nat.add_0_r. repeat split; assumption.
    + destruct (IH _ H) as (j & action & Hn & Hi & Hw).
      exists (S j), action. rewrite Nat.add_succ_r. repeat split; assumption.
Qed.

(** X2: [_check_syntax_errors] returns no error exactly when every action
    has an "action" field holding one of moveTo, click, mouseDown, mouseUp
    and every moveTo carries both x and y; and each error it returns
    carries the index of an action that breaks this. *)
Theorem syntax_errors_characterised :
  forall actions,
    (_check_syntax_errors actions = [] <->
     forallb well_formed_action actions = true)
    /\ (forall d, In d (_check_syntax_errors actions) ->
          exists i action,
            nth_error actions i = Some action
            /\ d_index d = Some (Z.of_nat i)
            /\ d_type d = SYNTAX_ERROR
            /\ well_formed_action action = false).
Proof.
  intros actions. split.
  - apply check_syntax_errors_from_nil.
  - intros d H. pose proof (syntax_errors_type _ _ _ H) as [Ht _].
    apply check_syntax_errors_from_index in H as (j & action & Hn & Hi & Hw).
    exists j, action. repeat split; assumption.
Qed.

(** ** Efficiency warnings *)

Lemma count_action_cons name a l :
  count_action name (a :: l)
  = ((if act_is a name then 1 else 0) + count_action name l)%nat.
Proof.
  unfold count_action. rewrite filter_cons.
  destruct (decide (act_is a name = true)) as [H|H].
  - rewrite H. reflexivity.
  - destruct (act_is a name); [ contradiction H; reflexivity | reflexivity ].
Qed.

(** Are the actions at positions [j], [j+1], [j+2] three moveTo? *)
Lemma first_triple_moveTo_spec k actions :
  match first_triple_moveTo k actions with
  | Some i =>
      exists j a b c,
        i = (k + j)%nat
        /\ nth_error actions j = Some a
        /\ nth_error actions (S j) = Some b
        /\ nth_error actions (S (S j)) = Some c
        /\ act_is a "moveTo" = true
        /\ act_is b "moveTo" = true
        /\ act_is c "moveTo" = true
        /\ (forall j' a' b' c',
              (j' < j)%nat ->
              nth_error actions j' = Some a' ->
              nth_error actions (S j') = Some b' ->
              nth_error actions (S (S j')) = Some c' ->
              act_is a' "moveTo" && act_is b' "moveTo" && act_is c' "moveTo"
              = false)
  | None =>
      forall j a b c,
        nth_error actions j = Some a ->
        nth_error actions (S j) = Some b ->
        nth_error actions (S (S j)) = Some c ->
        act_is a "moveTo" && act_is b "moveTo" && act_is c "moveTo" = false
  end.
Proof.
  revert k. induction actions as [|a l IH]; intros k.
  - cbn. intros j a b c H. destruct j; discriminate H.
  - cbn [first_triple_moveTo].
    destruct (act_is a "moveTo" &&
              match l with
              | b :: c :: _ => act_is b "moveTo" && act_is c "moveTo"
              | _ => false
              end) eqn:E.
    + destruct l as [|b [|c l']]; try (rewrite andb_false_r in E; discriminate E).
      apply andb_true_iff in E as [Ha E]. apply andb_true_iff in E as [Hb Hc].
      exists 0%nat, a, b, c. rewrite Nat.add_0_r.
      repeat split; try assumption; try reflexivity.
      intros j' a' b' c' Hlt. lia.
    + specialize (IH (S k)).
      assert (Hhead : forall b c,
                 nth_error (a :: l) 1 = Some b ->
                 nth_error (a :: l) 2 = Some c ->
                 act_is a "moveTo" && act_is b "moveTo" && act_is c "moveTo"
                 = false).
      { intros b c Hb Hc. destruct l as [|b0 [|c0 l']]; try discriminate.
        cbn in Hb, Hc. injection Hb as <-. injection Hc as <-.
        rewrite <- andb_assoc. exact E. }
      destruct (first_triple_moveTo (S k) l) as [i|].
      * destruct IH as (j & x & y & z & Hi & Hx & Hy & Hz & Hax & Hay & Haz & Hfirst).
        exists (S j), x, y, z. rewrite Nat.add_succ_r.
        repeat split; try assumption.
        intros j' a' b' c' Hlt Ha' Hb' Hc'.
        destruct j' as [|j'].
        -- cbn in Ha'. injection Ha' as <-. apply Hhead; assumption.
        -- apply (Hfirst j' a' b' c'); [ lia | assumption .. ].
      * intros j x y z Hx Hy Hz. destruct j as [|j].
        -- cbn in Hx. injection Hx as <-. apply Hhead; assumption.
        -- apply (IH j x y z); assumption.
Qed.

(** X3: [_check_efficiency_warnings] returns at most three warnings.  The
    consecutive-moveTo warning, when present, reports the first index at
    which three moveTo actions follow one another (three moveTo start at
    that index and at no smaller one), and it is absent exactly when the
    log has no such triple.  The LOGIC_ERROR warning is present
    exactly when the numbers of mouseDown and mouseUp actions differ, and it
    carries both numbers. *)
Theorem efficiency_warnings_characterised :
  forall actions,
    let warns := _check_efficiency_warnings actions in
    let down_count := count_action "mouseDown" actions in
    let up_count := count_action "mouseUp" actions in
    (length warns <= 3)%nat
    /\ (forall i, In (warning EFFICIENCY_WARNING (MsgConsecutiveMoveTo i)) warns ->
          first_triple_moveTo 0 actions = Some i)
    /\ (first_triple_moveTo 0 actions = None ->
        forall j a b c,
          nth_error actions j = Some a ->
          nth_error actions (S j) = Some b ->
          nth_error actions (S (S j)) = Some c ->
          act_is a "moveTo" && act_is b "moveTo" && act_is c "moveTo" = false)
    /\ (forall i, first_triple_moveTo 0 actions = Some i ->
          In (warning EFFICIENCY_WARNING (MsgConsecutiveMoveTo i)) warns
          /\ exists a b c,
               nth_error actions i = Some a
               /\ nth_error actions (S i) = Some b
               /\ nth_error actions (S (S i)) = Some c
               /\ act_is a "moveTo" && act_is b "moveTo" && act_is c "moveTo"
                  = true
               /\ (forall j a' b' c',
                     (j < i)%nat ->
                     nth_error actions j = Some a' ->
                     nth_error actions (S j) = Some b' ->
                     nth_error actions (S (S j)) = Some c' ->
                     act_is a' "moveTo" && act_is b' "moveTo"
                     && act_is c' "moveTo" = false))
    /\ (down_count <> up_count <->
        In (warning LOGIC_ERROR (MsgUnmatched down_count up_count)) warns)
    /\ (forall d, In d warns -> is_logic_error d = true ->
          d = warning LOGIC_ERROR (MsgUnmatched down_count up_count)).
Proof.
  intros actions. cbv zeta. unfold _check_efficiency_warnings.
  set (down_count := count_action "mouseDown" actions).
  set (up_count := count_action "mouseUp" actions).
  set (high := if (1000 <? length actions)%nat
               then [warning EFFICIENCY_WARNING
                       (MsgHighActionCount (length actions))]
               else []).
  set (logic := if (down_count =? up_count)%nat then []
                else [warning LOGIC_ERROR (MsgUnmatched down_count up_count)]).
  assert (Hhigh : forall d, In d high ->
            d = warning EFFICIENCY_WARNING (MsgHighActionCount (length actions))).
  { intros d H. unfold high in H.
    destruct (1000 <? length actions)%nat; [ | contradiction ].
    destruct H as [<-|[]]. reflexivity. }
  assert (Hlogic : forall d, In d logic <->
            d = warning LOGIC_ERROR (MsgUnmatched down_count up_count)
            /\ down_count <> up_count).
  { intros d. unfold logic.
    destruct (Nat.eqb_spec down_count up_count) as [He|He]; cbn.
    - split; [ contradiction | intros [_ H]; contradiction ].
    - split; [ intros [<-|[]]; split; [ reflexivity | exact He ]
             | intros [-> _]; left; reflexivity ]. }
  pose proof (first_triple_moveTo_spec 0 actions) as Hspec.
  destruct (first_triple_moveTo 0 actions) as [i0|] eqn:Ht.
  - split; [ | split; [ | split; [ | split; [ | split ] ] ] ].
    + rewrite !length_app. cbn [length].
      assert (length high <= 1)%nat
        by (unfold high; destruct (1000 <? length actions)%nat; cbn; lia).
      assert (length logic <= 1)%nat
        by (unfold logic; destruct (down_count =? up_count)%nat; cbn; lia).
      lia.
    + intros i H. rewrite !in_app_iff in H. destruct H as [H|[H|H]].
      * apply Hhigh in H. discriminate H.
      * destruct H as [H|[]]. injection H as ->. reflexivity.
      * apply Hlogic in H as [H _]. discriminate H.
    + discriminate.
    + intros i H. injection H as <-. split.
      * rewrite !in_app_iff. right. left. left. reflexivity.
      * destruct Hspec
          as (j & a & b & c & Hi & Ha & Hb & Hc & Ma & Mb & Mc & Hmin).
        cbn in Hi. subst j. exists a, b, c. rewrite Ma, Mb, Mc.
        split; [ exact Ha | ]. split; [ exact Hb | ]. split; [ exact Hc | ].
        split; [ reflexivity | exact Hmin ].
    + rewrite !in_app_iff. split.
      * intros He. right. right. apply Hlogic. split; [ reflexivity | exact He ].
      * intros [H|[H|H]].
        -- apply Hhigh in H. discriminate H.
        -- destruct H as [H|[]]. discriminate H.
        -- apply Hlogic in H as [_ H]. exact H.
    + intros d H Hl. rewrite !in_app_iff in H. destruct H as [H|[H|H]].
      * apply Hhigh in H. subst d. discriminate Hl.
      * destruct H as [<-|[]]. discriminate Hl.
      * apply Hlogic in H as [H _]. exact H.
  - split; [ | split; [ | split; [ | split; [ | split ] ] ] ].
    + rewrite !length_app. cbn [length].
      assert (length high <= 1)%nat
        by (unfold high; destruct (1000 <? length actions)%nat; cbn; lia).
      assert (length logic <= 1)%nat
        by (unfold logic; destruct (down_count =? up_count)%nat; cbn; lia).
      lia.
    + intros i H. rewrite !in_app_iff in H. destruct H as [H|[H|H]].
      * apply Hhigh in H. discriminate H.
      * contradiction.
      * apply Hlogic in H as [H _]. discriminate H.
    + intros _. exact Hspec.
    + discriminate.
    + rewrite !in_app_iff. split.
      * intros He. right. right. apply Hlogic. split; [ reflexivity | exact He ].
      * intros [H|[H|H]].
        -- apply Hhigh in H. discriminate H.
        -- contradiction.
        -- apply Hlogic in H as [_ H]. exact H.
    + intros d H Hl. rewrite !in_app_iff in H. destruct H as [H|[H|H]].
      * apply Hhigh in H. subst d. discriminate Hl.
      * contradiction.
      * apply Hlogic in H as [H _]. exact H.
Qed.

(** ** Segments and button clicks *)

Lemma count_drawing_segments_loop_bounds actions segments in_segment :
  let n := count_drawing_segments_loop segments in_segment actions in
  (segments <= n)%nat
  /\ (n <= segments + count_action "mouseDown" actions)%nat
  /\ (n <= segments + count_action "mouseUp" actions
           + (if in_segment then 0 else 1))%nat
  /\ (in_segment = false ->
      (0 < count_action "mouseDown" actions)%nat -> (segments < n)%nat).
Proof.
  cbv zeta. revert segments in_segment.
  induction actions as [|a l IH]; intros segments in_segment.
  - cbn. repeat split; try lia; destruct in_segment; lia.
  - cbn [count_drawing_segments_loop]. rewrite !count_action_cons.
    destruct (act_is a "mouseDown") eqn:Hd.
    + assert (Hu : act_is a "mouseUp" = false).
      { unfold act_is in Hd |- *.
        destruct (dict_get a "action") as [[]|]; try discriminate Hd.
        apply String.eqb_eq in Hd. subst s. reflexivity. }
      rewrite Hu. destruct in_segment.
      * destruct (IH segments true) as (H1 & H2 & H3 & _).
        split; [ lia | ]. split; [ lia | ]. split; [ lia | discriminate ].
      * destruct (IH (S segments) true) as (H1 & H2 & H3 & _).
        split; [ lia | ]. split; [ lia | ]. split; [ lia | intros; lia ].
    + destruct (act_is a "mouseUp") eqn:Hu.
      * destruct (IH segments false) as (H1 & H2 & H3 & H4).
        split; [ lia | ]. split; [ lia | ].
        split; [ destruct in_segment; lia | ].
        intros _ Hpos. apply H4; [ reflexivity | lia ].
      * destruct (IH segments in_segment) as (H1 & H2 & H3 & H4).
        split; [ lia | ]. split; [ lia | ]. split; [ lia | ].
        intros Hin Hpos. apply H4; [ exact Hin | lia ].
Qed.

(** X4: the number of drawing segments is at most the number of mouseDown
    actions and at most one more than the number of mouseUp actions (only
    the last segment can stay open); it is at least 1 as soon as the log
    has a mouseDown. *)
Theorem drawing_segments_bounds :
  forall actions,
    (_count_drawing_segments actions <= count_action "mouseDown" actions)%nat
    /\ (_count_drawing_segments actions
        <= count_action "mouseUp" actions + 1)%nat
    /\ ((0 < count_action "mouseDown" actions)%nat ->
        (1 <= _count_drawing_segments actions)%nat).
Proof.
  intros actions. unfold _count_drawing_segments.
  destruct (count_drawing_segments_loop_bounds actions 0 false)
    as (_ & H2 & H3 & H4).
  cbv zeta in H2, H3, H4. split; [ lia | ]. split; [ lia | ].
  intros Hpos. specialize (H4 eq_refl Hpos). lia.
Qed.

Lemma count_tool_changes_loop_bound self actions n m :
  count_tool_changes_loop self n actions = Ok m ->
  (n <= m <= n + count_action "click" actions)%nat.
Proof.
  revert n. induction actions as [|a l IH]; intros n H; cbn in H.
  - injection H as <-. cbn. lia.
  - rewrite count_action_cons.
    destruct (act_is a "click") eqn:Hc.
    + inv_bind H. specialize (IH _ H). destruct a0; lia.
    + destruct (act_is a "moveTo" && next_is_click l).
      * inv_bind H. specialize (IH _ H). lia.
      * specialize (IH _ H). lia.
Qed.

Lemma count_color_changes_loop_bound actions n m :
  count_color_changes_loop n actions = Ok m ->
  (n <= m <= n + count_action "click" actions)%nat.
Proof.
  revert n. induction actions as [|a l IH]; intros n H; cbn in H.
  - injection H as <-. cbn. lia.
  - rewrite count_action_cons.
    destruct (act_is a "click") eqn:Hc.
    + inv_bind H. specialize (IH _ H). destruct a0; lia.
    + specialize (IH _ H). lia.
Qed.

(** X5: the tool_changes and color_changes metrics count click actions
    only: each is at most the number of click actions of the log (a moveTo
    onto a button adds nothing by itself). *)
Theorem button_changes_at_most_clicks :
  forall self actions,
    (forall n, _count_tool_changes self actions = Ok n ->
               (n <= count_action "click" actions)%nat)
    /\ (forall n, _count_color_changes actions = Ok n ->
                  (n <= count_action "click" actions)%nat).
Proof.
  intros self actions. split; intros n H.
  - apply count_tool_changes_loop_bound in H. lia.
  - apply count_color_changes_loop_bound in H. lia.
Qed.

Lemma find_color_in_table x y colors color :
  find_color x y colors = Ok (Some color) ->
  In color (map snd colors).
Proof.
  induction colors as [|[[cx cy] c] colors IH]; cbn; intros H.
  - discriminate H.
  - inv_bind H. destruct a.
    + injection H as <-. left. reflexivity.
    + right. apply IH. exact H.
Qed.

(** X6: every hex code [_detect_exact_colors_used] returns is the code of
    a swatch of the layout, and it returns at most one code per click or
    moveTo action. *)
Theorem exact_colors_come_from_layout :
  forall self actions colors_used,
    _detect_exact_colors_used self actions = Ok colors_used ->
    Forall (fun color => In color (map snd (color_positions self))) colors_used
    /\ (length colors_used
        <= count_action "click" actions + count_action "moveTo" actions)%nat.
Proof.
  intros self actions. induction actions as [|a l IH]; intros colors_used H.
  - cbn in H. injection H as <-. split; [ constructor | cbn; lia ].
  - cbn [_detect_exact_colors_used] in H. rewrite !count_action_cons.
    destruct (act_is a "click" || act_is a "moveTo" && next_is_click l) eqn:E.
    + inv_bind H. inv_bind H. injection H as <-.
      destruct (IH _ eq_refl) as [IH1 IH2].
      assert (Hone : (1 <= (if act_is a "click" then 1 else 0)
                           + (if act_is a "moveTo" then 1 else 0))%nat).
      { destruct (act_is a "click"); [ lia | ].
        destruct (act_is a "moveTo"); [ lia | discriminate E ]. }
      destruct a0 as [color|].
      * split.
        -- constructor; [ | exact IH1 ].
           eapply find_color_in_table. exact E0.
        -- cbn [length]. lia.
      * split; [ exact IH1 | lia ].
    + destruct (IH _ H) as [IH1 IH2]. split; [ exact IH1 | lia ].
Qed.

(** ** Rounding *)

Lemma round_half_even_floor q :
  (Qfloor q <= round_half_even q <= Qfloor q + 1)%Z.
Proof.
  unfold round_half_even.
  destruct (Qcompare (q - inject_Z (Qfloor q)) (1 # 2)); [ | lia | lia ].
  destruct (Z.even (Qfloor q)); lia.
Qed.

Lemma round_half_even_mono q q' :
  q <= q' -> (round_half_even q <= round_half_even q')%Z.
Proof.
  intros H. pose proof (Qfloor_resp_le _ _ H) as Hf.
  destruct (Z.eq_dec (Qfloor q) (Qfloor q')) as [He|Hne].
  - unfold round_half_even. rewrite <- He.
    destruct (Qcompare (q - inject_Z (Qfloor q)) (1 # 2)) eqn:C;
      destruct (Qcompare (q' - inject_Z (Qfloor q)) (1 # 2)) eqn:C';
      try (destruct (Z.even (Qfloor q)); lia); try lia.
    + apply Qeq_alt in C. apply Qlt_alt in C'. lra.
    + apply Qgt_alt in C. apply Qeq_alt in C'. lra.
    + apply Qgt_alt in C. apply Qlt_alt in C'. lra.
  - pose proof (round_half_even_floor q). pose proof (round_half_even_floor q').
    lia.
Qed.

Lemma py_round_mono q q' nd : q <= q' -> py_round q nd <= py_round q' nd.
Proof.
  intros H. unfold py_round. rewrite !Qred_correct.
  assert (Hs : (0 < 10 ^ Z.of_nat nd)%Z) by (apply Z.pow_pos_nonneg; lia).
  assert (Hm : q * inject_Z (10 ^ Z.of_nat nd)
               <= q' * inject_Z (10 ^ Z.of_nat nd)).
  { apply Qmult_le_compat_r; [ exact H | ].
    change 0 with (inject_Z 0). rewrite <- Zle_Qle. lia. }
  apply round_half_even_mono in Hm.
  unfold Qle. cbn [Qnum Qden]. nia.
Qed.

Lemma py_round_unit_interval q nd : 0 <= q <= 1 -> 0 <= py_round q nd <= 1.
Proof.
  intros [H0 H1].
  assert (Hz : py_round 0 nd == 0).
  { unfold py_round. rewrite Qred_correct.
    rewrite (round_half_even_comp (0 * inject_Z (10 ^ Z.of_nat nd)) (inject_Z 0))
      by ring.
    rewrite round_half_even_Z. reflexivity. }
  assert (Ho : py_round 1 nd == 1).
  { unfold py_round. rewrite Qred_correct.
    rewrite (round_half_even_comp (1 * inject_Z (10 ^ Z.of_nat nd))
               (inject_Z (10 ^ Z.of_nat nd))) by ring.
    rewrite round_half_even_Z.
    assert (Hs : (0 < 10 ^ Z.of_nat nd)%Z) by (apply Z.pow_pos_nonneg; lia).
    unfold Qeq. cbn [Qnum Qden]. rewrite Z2Pos.id by exact Hs. lia. }
  split.
  - rewrite <- Hz. apply py_round_mono. exact H0.
  - rewrite <- Ho. apply py_round_mono. exact H1.
Qed.

(** ** Coarse coverage *)

Lemma coverage_positions_in_canvas self actions is_drawing positions :
  coverage_positions self is_drawing actions = Ok positions ->
  Forall (fun p => in_canvas self (fst p) (snd p) = true) positions.
Proof.
  revert is_drawing positions.
  induction actions as [|a l IH]; intros is_drawing positions H.
  - cbn in H. injection H as <-. constructor.
  - cbn [coverage_positions] in H. cbv zeta in H.
    set (d := if act_is a "mouseDown" then true
              else if act_is a "mouseUp" then false else is_drawing) in H.
    destruct (d && has_xy a).
    + inv_bind H. inv_bind H. injection H as <-.
      specialize (IH d _ E0).
      destruct (in_canvas self (fst a0) (snd a0)) eqn:Hin.
      * constructor; assumption.
      * exact IH.
    + eapply IH. exact H.
Qed.

Lemma in_canvas_bounds self x y :
  in_canvas self x y = true ->
  0 <= x <= canvas_width self /\ 0 <= y <= canvas_height self.
Proof.
  unfold in_canvas. rewrite !andb_true_iff, !Qleb_le.
  intros [[[H1 H2] H3] H4]. split; split; assumption.
Qed.

Lemma list_max_bounds lo hi d l :
  lo <= d <= hi -> Forall (fun v => lo <= v <= hi) l ->
  lo <= list_max d l <= hi /\ d <= list_max d l.
Proof.
  intros Hd Hl. induction Hl as [|v l Hv Hl IH].
  - cbn. split; [ exact Hd | lra ].
  - change (list_max d (v :: l)) with (Qmax v (list_max d l)).
    destruct IH as [IH1 IH2]. unfold Qmax.
    destruct (Qleb v (list_max d l)) eqn:E.
    + split; [ exact IH1 | exact IH2 ].
    + apply Qleb_gt in E. split; [ exact Hv | lra ].
Qed.

Lemma list_min_bounds lo hi d l :
  lo <= d <= hi -> Forall (fun v => lo <= v <= hi) l ->
  lo <= list_min d l <= hi /\ list_min d l <= d.
Proof.
  intros Hd Hl. induction Hl as [|v l Hv Hl IH].
  - cbn. split; [ exact Hd | lra ].
  - change (list_min d (v :: l)) with (Qmin v (list_min d l)).
    destruct IH as [IH1 IH2]. unfold Qmin.
    destruct (Qleb v (list_min d l)) eqn:E.
    + apply Qleb_le in E. split; [ exact Hv | lra ].
    + split; [ exact IH1 | exact IH2 ].
Qed.

(** X7: the coarse (bounding-box) coverage, whenever it is returned, lies
    in [0, 1]; it is 0 for a log with no in-canvas point in an open
    segment. *)
Theorem coarse_coverage_in_unit_interval :
  forall self actions c,
    _estimate_canvas_coverage self actions = Ok c ->
    0 <= c <= 1
    /\ (coverage_positions self false actions = Ok [] -> c = 0).
Proof.
  intros self actions c H. unfold _estimate_canvas_coverage in H.
  inv_bind H. rename a into positions.
  pose proof (coverage_positions_in_canvas _ _ _ _ E) as Hall.
  destruct positions as [|p ps].
  - injection H as <-. split; [ lra | reflexivity ].
  - split; [ | intros Hn; discriminate Hn ].
    cbv zeta in H. inv_bind H. injection H as <-.
    apply py_round_unit_interval.
    inversion Hall as [|p' ps' Hp Hps]; subst.
    apply in_canvas_bounds in Hp as [Hpx Hpy].
    assert (Hxs : Forall (fun v => 0 <= v <= canvas_width self) (map fst ps)).
    { apply List.Forall_map. eapply List.Forall_impl; [ | exact Hps ].
      intros q Hq. apply in_canvas_bounds in Hq. exact (proj1 Hq). }
    assert (Hys : Forall (fun v => 0 <= v <= canvas_height self) (map snd ps)).
    { apply List.Forall_map. eapply List.Forall_impl; [ | exact Hps ].
      intros q Hq. apply in_canvas_bounds in Hq. exact (proj2 Hq). }
    destruct (list_max_bounds _ _ _ _ Hpx Hxs) as [Hmx1 Hmx2].
    destruct (list_min_bounds _ _ _ _ Hpx Hxs) as [Hnx1 Hnx2].
    destruct (list_max_bounds _ _ _ _ Hpy Hys) as [Hmy1 Hmy2].
    destruct (list_min_bounds _ _ _ _ Hpy Hys) as [Hny1 Hny2].
    unfold pdiv in E0.
    destruct (Qeq_bool (canvas_width self * canvas_height self) 0) eqn:Hz;
      [ discriminate E0 | ].
    injection E0 as <-.
    assert (Hne : ~ canvas_width self * canvas_height self == 0).
    { intros Heq. apply Qeq_bool_iff in Heq. congruence. }
    set (w := canvas_width self) in Hmx1, Hnx1, Hne |- *.
    set (h := canvas_height self) in Hmy1, Hny1, Hne |- *.
    set (dx := list_max (fst p) (map fst ps) - list_min (fst p) (map fst ps)).
    set (dy := list_max (snd p) (map snd ps) - list_min (snd p) (map snd ps)).
    assert (Hdx : 0 <= dx <= w) by (unfold dx; lra).
    assert (Hdy : 0 <= dy <= h) by (unfold dy; lra).
    assert (Hw : 0 <= w) by lra. assert (Hh : 0 <= h) by lra.
    assert (Hpos : 0 < w * h).
    { assert (0 <= w * h) by (apply Qmult_le_0_compat; assumption).
      destruct (Qlt_le_dec 0 (w * h)) as [Hl|Hl]; [ exact Hl | ].
      exfalso. apply Hne. lra. }
    split.
    + apply Qle_shift_div_l; [ exact Hpos | ].
      rewrite Qmult_0_l. apply Qmult_le_0_compat; lra.
    + apply Qle_shift_div_r; [ exact Hpos | ].
      rewrite Qmult_1_l.
      apply Qle_trans with (dx * h).
      * rewrite (Qmult_comm dx dy), (Qmult_comm dx h).
        apply Qmult_le_compat_r; lra.
      * apply Qmult_le_compat_r; lra.
Qed.

(** ** The grid stays inside its 20 x 20 bounds *)

Lemma zrange_In z lo hi : In z (zrange lo hi) <-> (lo <= z < hi)%Z.
Proof.
  unfold zrange. rewrite in_map_iff. split.
  - intros (k & <- & Hk). apply in_seq in Hk. lia.
  - intros H. exists (Z.to_nat (z - lo)). split; [ lia | ].
    apply in_seq. lia.
Qed.

Lemma full_grid_spec (c : cell) :
  c ∈ full_grid
  <-> (0 <= fst c < grid_size)%Z /\ (0 <= snd c < grid_size)%Z.
Proof.
  unfold full_grid, grid_cells. rewrite elem_of_list_to_set, list_elem_of_In.
  rewrite in_flat_map. split.
  - intros (gy & Hgy & Hc). apply in_map_iff in Hc as (gx & <- & Hgx).
    apply zrange_In in Hgy. apply zrange_In in Hgx. cbn. lia.
  - intros [Hy Hx]. exists (fst c). split; [ apply zrange_In; lia | ].
    apply in_map_iff. exists (snd c). split.
    + destruct c; reflexivity.
    + apply zrange_In. lia.
Qed.

Lemma full_grid_size : size full_grid = 400%nat.
Proof. vm_compute. reflexivity. Qed.

Lemma py_int_nonneg q : 0 <= q -> (0 <= py_int q)%Z.
Proof.
  intros H. unfold py_int.
  assert (E : Qle_bool 0 q = true) by (apply Qle_bool_iff; exact H).
  rewrite E. change 0%Z with (Qfloor 0). apply Qfloor_resp_le. exact H.
Qed.

Lemma grid_index_range v extent k :
  0 <= v <= extent -> grid_index v extent = Ok k -> (0 <= k < grid_size)%Z.
Proof.
  intros [Hv Hle] H. unfold grid_index, pdiv in H.
  destruct (Qeq_bool extent 0) eqn:E; [ discriminate H | ].
  cbn [bind] in H. injection H as <-.
  assert (Hne : ~ extent == 0).
  { intros Heq. apply Qeq_bool_iff in Heq. congruence. }
  assert (Hpos : 0 < extent).
  { destruct (Qlt_le_dec 0 extent) as [Hl|Hl]; [ exact Hl | ].
    exfalso. apply Hne. lra. }
  assert (Hr : 0 <= v / extent * inject_Z grid_size).
  { apply Qmult_le_0_compat; [ | discriminate ].
    apply Qle_shift_div_l; [ exact Hpos | lra ]. }
  apply py_int_nonneg in Hr. unfold grid_size in Hr |- *. lia.
Qed.

Lemma mark_point_bounded (self : DrawingEvaluator) (g : gset cell)
    (p : Q * Q) (g1 : gset cell) :
  g ⊆ full_grid -> mark_point self g p = Ok g1 -> g1 ⊆ full_grid.
Proof.
  intros Hg H. unfold mark_point in H. destruct p as [x y].
  destruct (in_canvas self x y) eqn:Hin.
  - apply in_canvas_bounds in Hin as [Hx Hy].
    inv_bind H. inv_bind H. injection H as <-.
    apply (grid_index_range _ _ _ Hx) in E.
    apply (grid_index_range _ _ _ Hy) in E0.
    unfold mark. apply union_subseteq. split; [ | exact Hg ].
    apply singleton_subseteq_l. apply full_grid_spec. cbn.
    split; assumption.
  - injection H as <-. exact Hg.
Qed.

Lemma mark_points_bounded (self : DrawingEvaluator) (ps : list (Q * Q))
    (g g1 : gset cell) :
  g ⊆ full_grid -> mark_points self g ps = Ok g1 -> g1 ⊆ full_grid.
Proof.
  revert g g1. induction ps as [|p ps IH]; intros g g1 Hg H; cbn in H.
  - injection H as <-. exact Hg.
  - inv_bind H. eapply IH; [ | exact H ].
    eapply mark_point_bounded; [ exact Hg | exact E ].
Qed.

Lemma rectangle_cells_bounded (self : DrawingEvaluator) (cx1 cy1 cx2 cy2 : Q)
    (cells : list cell) (g : gset cell) :
  g ⊆ full_grid ->
  rectangle_cells self cx1 cy1 cx2 cy2 = Ok cells ->
  fold_right mark g cells ⊆ full_grid.
Proof.
  intros Hg H. rewrite fold_mark_adds.
  apply union_subseteq. split; [ | exact Hg ].
  unfold rectangle_cells in H. cbv zeta in H.
  repeat inv_bind H. injection H as <-.
  intros c Hc. apply elem_of_list_to_set, list_elem_of_In in Hc.
  apply in_flat_map in Hc as (gx & Hgx & Hc).
  apply in_map_iff in Hc as (gy & <- & Hgy).
  apply zrange_In in Hgx. apply zrange_In in Hgy.
  apply full_grid_spec. unfold grid_size in Hgx, Hgy |- *. cbn. lia.
Qed.

Lemma _fill_shape_in_grid_bounded (self : DrawingEvaluator) (g : gset cell)
    (tool : string) (start_pos end_pos : pyval * pyval) (g1 : gset cell) :
  g ⊆ full_grid ->
  _fill_shape_in_grid self g tool start_pos end_pos = Ok g1 ->
  g1 ⊆ full_grid.
Proof.
  intros Hg H. unfold _fill_shape_in_grid in H.
  destruct start_pos as [x1 y1]. destruct end_pos as [x2 y2].
  cbv zeta in H. repeat inv_bind H.
  destruct (String.eqb tool "rectangle").
  - inv_bind H. injection H as <-.
    eapply rectangle_cells_bounded; [ exact Hg | exact E3 ].
  - destruct (String.eqb tool "circle").
    + inv_bind H. eapply mark_points_bounded; [ exact Hg | exact H ].
    + destruct (String.eqb tool "line").
      * eapply mark_points_bounded; [ exact Hg | exact H ].
      * injection H as <-. exact Hg.
Qed.

Lemma coverage_step_bounded (self : DrawingEvaluator) (st : DrawingState)
    (action : adict) (rest : list adict) (s : DrawingState) :
  grid st ⊆ full_grid ->
  coverage_step self st action rest = Ok s -> grid s ⊆ full_grid.
Proof.
  intros Hg H. unfold coverage_step in H. cbv zeta in H.
  inv_bind H. rename a into tool.
  inv_bind H. destruct a as [[g0 drawing] down].
  inv_bind H. injection H as <-. cbn [grid].
  assert (H0 : g0 ⊆ full_grid).
  { destruct (act_is action "mouseDown").
    - injection E0 as <- _ _. exact Hg.
    - destruct (act_is action "mouseUp").
      + inv_bind E0. injection E0 as <- _ _.
        unfold release_fill in E2.
        destruct (mouse_down_pos st) as [start_pos|].
        * destruct (is_drawing st && str_in tool shape_tools).
          -- eapply _fill_shape_in_grid_bounded; [ exact Hg | exact E2 ].
          -- injection E2 as <-. exact Hg.
        * injection E2 as <-. exact Hg.
      + injection E0 as <- _ _. exact Hg. }
  unfold stroke_mark in E1.
  destruct (drawing && str_in tool stroke_tools && has_xy action).
  - inv_bind E1. eapply mark_point_bounded; [ exact H0 | exact E1 ].
  - injection E1 as <-. exact H0.
Qed.

Lemma coverage_loop_bounded (self : DrawingEvaluator) (actions : list adict)
    (st s : DrawingState) :
  grid st ⊆ full_grid ->
  coverage_loop self st actions = Ok s -> grid s ⊆ full_grid.
Proof.
  revert st s. induction actions as [|a l IH]; intros st s Hg H; cbn in H.
  - injection H as <-. exact Hg.
  - inv_bind H. eapply IH; [ | exact H ].
    eapply coverage_step_bounded; [ exact Hg | exact E ].
Qed.

(** X8: the accurate coverage, whenever it is returned, is k/400 for a
    number k of marked cells between 0 and 400, hence lies in [0, 1]: every
    cell the pen, the eraser and the three shape tools mark has both
    indices in 0..19. *)
Theorem accurate_coverage_counts_cells :
  forall self actions c,
    _estimate_canvas_coverage_accurate self actions = Ok c ->
    exists st,
      coverage_loop self initial_state actions = Ok st
      /\ (forall gy gx, (gy, gx) ∈ grid st ->
            (0 <= gy <= 19)%Z /\ (0 <= gx <= 19)%Z)
      /\ (size (grid st) <= 400)%nat
      /\ c == inject_Z (Z.of_nat (size (grid st))) / 400
      /\ 0 <= c <= 1.
Proof.
  intros self actions c H. unfold _estimate_canvas_coverage_accurate in H.
  inv_bind H. rename a into st. injection H as <-.
  assert (Hb : grid st ⊆ full_grid).
  { eapply coverage_loop_bounded; [ | exact E ].
    cbn. apply empty_subseteq. }
  assert (Hs : (size (grid st) <= 400)%nat).
  { rewrite <- full_grid_size. apply subseteq_size. exact Hb. }
  assert (Hc : coverage_of (grid st)
               == inject_Z (Z.of_nat (size (grid st))) / 400).
  { rewrite coverage_of_exact, inject_Z_mult.
    change (inject_Z 25) with 25. field. }
  exists st. split; [ reflexivity | ]. split; [ | split; [ exact Hs | ] ].
  - intros gy gx Hin. apply Hb, full_grid_spec in Hin.
    unfold grid_size in Hin. cbn in Hin. lia.
  - split; [ exact Hc | ]. rewrite Hc. split.
    + apply Qle_shift_div_l; [ reflexivity | ].
      rewrite Qmult_0_l. change 0 with (inject_Z 0). rewrite <- Zle_Qle. lia.
    + apply Qle_shift_div_r; [ reflexivity | ].
      rewrite Qmult_1_l. change 400 with (inject_Z 400).
      rewrite <- Zle_Qle. lia.
Qed.

(** X9: marked cells are never cleared.  Running the coverage loop from any
    scratch state keeps every cell already marked, so the coverage of the
    grid does not decrease; the eraser in particular marks cells exactly as
    the pen does. *)
Theorem coverage_grid_only_grows :
  forall self st actions s,
    coverage_loop self st actions = Ok s ->
    grid st ⊆ grid s
    /\ coverage_of (grid st) <= coverage_of (grid s)
    /\ (forall g drawing action,
          stroke_mark self g drawing "eraser" action
          = stroke_mark self g drawing "pen" action).
Proof.
  intros self st actions s H.
  destruct (coverage_loop_adds _ _ _ _ H) as (extra & Hg & _).
  assert (Hsub : grid st ⊆ grid s).
  { rewrite Hg. apply union_subseteq_r. }
  split; [ exact Hsub | ]. split; [ apply coverage_of_mono; exact Hsub | ].
  intros g drawing action. reflexivity.
Qed.

(** ** The drawing centroid *)

Lemma on_canvas_bounds self pos q :
  on_canvas self pos = Ok (Some q) ->
  canvas_offset_x self <= fst q < canvas_offset_x self + canvas_width self
  /\ canvas_offset_y self <= snd q < canvas_offset_y self + canvas_height self.
Proof.
  unfold on_canvas. intros H. inv_bind H.
  destruct (Qleb (canvas_offset_x self) a
            && Qltb a (canvas_offset_x self + canvas_width self)) eqn:Hx;
    [ | discriminate H ].
  inv_bind H.
  destruct (Qleb (canvas_offset_y self) a0
            && Qltb a0 (canvas_offset_y self + canvas_height self)) eqn:Hy;
    [ | discriminate H ].
  injection H as <-. cbn.
  apply andb_true_iff in Hx as [Hx1 Hx2]. apply andb_true_iff in Hy as [Hy1 Hy2].
  apply Qleb_le in Hx1, Hy1. apply Qltb_lt in Hx2, Hy2.
  split; split; assumption.
Qed.

Lemma drawing_points_on_canvas self actions :
  forall d cur points,
    drawing_points self d cur actions = Ok points ->
    Forall (fun q =>
              canvas_offset_x self <= fst q
                < canvas_offset_x self + canvas_width self
              /\ canvas_offset_y self <= snd q
                < canvas_offset_y self + canvas_height self) points.
Proof.
  induction actions as [|a l IH]; intros d cur points H.
  - cbn in H. injection H as <-. constructor.
  - cbn [drawing_points] in H. cbv zeta in H.
    destruct (is_str (get_or a "action" (VStr "")) "moveTo"
              && negb (is_none (get_none a "x"))
              && negb (is_none (get_none a "y"))).
    { eapply IH. exact H. }
    destruct (is_str (get_or a "action" (VStr "")) "mouseDown" && is_some cur).
    { destruct cur as [pos|]; [ | eapply IH; exact H ].
      inv_bind H. inv_bind H. injection H as <-.
      specialize (IH _ _ _ E0).
      destruct a0 as [q|]; [ | exact IH ].
      constructor; [ eapply on_canvas_bounds; exact E | exact IH ]. }
    destruct (is_str (get_or a "action" (VStr "")) "mouseUp").
    { eapply IH. exact H. }
    destruct (d && is_str (get_or a "action" (VStr "")) "moveTo"
              && negb (is_none (get_none a "x"))
              && negb (is_none (get_none a "y"))).
    { inv_bind H. inv_bind H. injection H as <-.
      specialize (IH _ _ _ E0).
      destruct a0 as [q|]; [ | exact IH ].
      constructor; [ eapply on_canvas_bounds; exact E | exact IH ]. }
    eapply IH. exact H.
Qed.

Lemma drawing_points_flag self actions :
  forall d d' cur,
    drawing_points self d cur actions = drawing_points self d' cur actions.
Proof.
  induction actions as [|a l IH]; intros d d' cur; [ reflexivity | ].
  cbn [drawing_points]. cbv zeta.
  destruct (is_str (get_or a "action" (VStr "")) "moveTo") eqn:Hm;
    destruct (negb (is_none (get_none a "x"))) eqn:Hx;
    destruct (negb (is_none (get_none a "y"))) eqn:Hy;
    cbn [andb]; try (apply IH);
    rewrite ?andb_false_r; cbn [andb];
    try (destruct (is_str (get_or a "action" (VStr "")) "mouseDown"
                   && is_some cur);
         [ reflexivity
         | destruct (is_str (get_or a "action" (VStr "")) "mouseUp");
           [ reflexivity | apply IH ] ]).
Qed.

Lemma is_str_act_is a name :
  name <> "" -> is_str (get_or a "action" (VStr "")) name = act_is a name.
Proof.
  intros Hne. unfold get_or, act_is.
  destruct (dict_get a "action") as [v|]; [ reflexivity | ].
  cbn. destruct name; [ contradiction Hne; reflexivity | reflexivity ].
Qed.

Lemma drawing_points_length self actions :
  forall d cur points,
    drawing_points self d cur actions = Ok points ->
    (length points <= count_action "mouseDown" actions)%nat.
Proof.
  induction actions as [|a l IH]; intros d cur points H.
  - cbn in H. injection H as <-. cbn. lia.
  - rewrite count_action_cons.
    cbn [drawing_points] in H. cbv zeta in H.
    rewrite !(is_str_act_is a "mouseDown") in H by discriminate.
    destruct (is_str (get_or a "action" (VStr "")) "moveTo") eqn:Hm;
      destruct (negb (is_none (get_none a "x"))) eqn:Hx;
      destruct (negb (is_none (get_none a "y"))) eqn:Hy;
      cbn [andb] in H;
      try (specialize (IH _ _ _ H); lia);
      rewrite ?andb_false_r in H; cbn [andb] in H.
    all: destruct (act_is a "mouseDown") eqn:Hd; cbn [andb] in H.
    all: try (destruct cur as [pos|]; cbn [is_some] in H;
              [ inv_bind H; inv_bind H; injection H as <-;
                specialize (IH _ _ _ E0);
                destruct a0; cbn [length]; lia | ]).
    all: try (destruct (is_str (get_or a "action" (VStr "")) "mouseUp")).
    all: try (specialize (IH _ _ _ H); lia).
Qed.

Lemma Qsum_bounds lo hi l :
  Forall (fun v => lo <= v < hi) l ->
  inject_Z (Z.of_nat (length l)) * lo <= Qsum l
  /\ Qsum l <= inject_Z (Z.of_nat (length l)) * hi
  /\ (l <> [] -> Qsum l < inject_Z (Z.of_nat (length l)) * hi).
Proof.
  induction 1 as [|v l Hv Hl IH].
  - change (inject_Z (Z.of_nat (length (@nil Q)))) with 0.
    change (Qsum []) with 0.
    split; [ lra | ]. split; [ lra | ]. intros Hne. contradiction Hne.
    reflexivity.
  - destruct IH as (IH1 & IH2 & _).
    change (Qsum (v :: l)) with (v + Qsum l).
    change (length (v :: l)) with (S (length l)).
    rewrite Nat2Z.inj_succ. unfold Z.succ. rewrite inject_Z_plus.
    change (inject_Z 1) with 1.
    set (n := inject_Z (Z.of_nat (length l))) in IH1, IH2 |- *.
    split; [ lra | ]. split; [ lra | ]. intros _. lra.
Qed.

Lemma average_bounds lo hi l :
  l <> [] -> Forall (fun v => lo <= v < hi) l ->
  lo <= Qsum l / inject_Z (Z.of_nat (length l)) < hi.
Proof.
  intros Hne Hl. destruct (Qsum_bounds _ _ _ Hl) as (H1 & _ & H2).
  specialize (H2 Hne).
  assert (Hn : 0 < inject_Z (Z.of_nat (length l))).
  { change 0 with (inject_Z 0). rewrite <- Zlt_Qlt.
    destruct l; [ contradiction Hne; reflexivity | cbn; lia ]. }
  split.
  - apply Qle_shift_div_l; [ exact Hn | ]. lra.
  - apply Qlt_shift_div_r; [ exact Hn | ]. lra.
Qed.

(** X10: a centroid, when there is one, lies inside the canvas: its
    canvas-relative coordinates are in [0, width) x [0, height). *)
Theorem centroid_inside_canvas :
  forall self actions c,
    _calculate_drawing_centroid self actions = Ok (Some c) ->
    0 <= fst c < canvas_width self /\ 0 <= snd c < canvas_height self.
Proof.
  intros self actions c H. unfold _calculate_drawing_centroid in H.
  inv_bind H. rename a into points.
  pose proof (drawing_points_on_canvas _ _ _ _ _ E) as Hall.
  destruct points as [|p ps]; [ discriminate H | ].
  injection H as <-. cbn [fst snd].
  set (points := p :: ps) in Hall |- *.
  assert (Hne : map fst points <> []) by discriminate.
  assert (Hne' : map snd points <> []) by discriminate.
  assert (Hx : Forall (fun v => canvas_offset_x self <= v
                          < canvas_offset_x self + canvas_width self)
                 (map fst points)).
  { apply List.Forall_map. eapply List.Forall_impl; [ | exact Hall ].
    intros q Hq. exact (proj1 Hq). }
  assert (Hy : Forall (fun v => canvas_offset_y self <= v
                          < canvas_offset_y self + canvas_height self)
                 (map snd points)).
  { apply List.Forall_map. eapply List.Forall_impl; [ | exact Hall ].
    intros q Hq. exact (proj2 Hq). }
  pose proof (average_bounds _ _ _ Hne Hx) as Ax.
  pose proof (average_bounds _ _ _ Hne' Hy) as Ay.
  rewrite length_map in Ax, Ay.
  change (0 <= Qsum (map fst points) / inject_Z (Z.of_nat (length points))
               - canvas_offset_x self < canvas_width self
          /\ 0 <= Qsum (map snd points) / inject_Z (Z.of_nat (length points))
                  - canvas_offset_y self < canvas_height self).
  split; lra.
Qed.

(** X11: only the positions at which the button is pressed enter the
    centroid.  The points collected do not depend on whether a segment is
    open (the branch for a moveTo during a segment is never reached, the
    first branch takes every moveTo with coordinates), and there is at most
    one point per mouseDown. *)
Theorem centroid_uses_press_positions :
  forall self actions,
    (forall d d' cur,
        drawing_points self d cur actions = drawing_points self d' cur actions)
    /\ (forall d cur points,
          drawing_points self d cur actions = Ok points ->
          (length points <= count_action "mouseDown" actions)%nat)
    /\ (count_action "mouseDown" actions = 0%nat ->
        forall c, _calculate_drawing_centroid self actions <> Ok (Some c)).
Proof.
  intros self actions. split; [ apply drawing_points_flag | ].
  split; [ apply drawing_points_length | ].
  intros H0 c Hc. unfold _calculate_drawing_centroid in Hc.
  inv_bind Hc. apply drawing_points_length in E. rewrite H0 in E.
  destruct a; [ discriminate Hc | cbn in E; lia ].
Qed.

(** ** Spatial accuracy of a drawing *)

Lemma visited_points_idle self actions pointer :
  count_action "mouseDown" actions = 0%nat ->
  visited_points self false pointer actions = Ok [].
Proof.
  revert pointer. induction actions as [|a l IH]; intros pointer H.
  - reflexivity.
  - rewrite count_action_cons in H.
    destruct (act_is a "mouseDown") eqn:Hd; [ discriminate H | ].
    cbn [visited_points]. cbv zeta. rewrite Hd.
    destruct (act_is a "mouseUp"); cbn [andb orb]; apply IH; exact H.
Qed.

(** C8 (as amended): in the result of [evaluate] on a list, the
    spatial_accuracy metric is null when no region is detected (criteria
    absent or empty, no prompt, or no region keyword in it).  When a region
    is detected and no drawing exists (no in-canvas point visited during an
    open segment) it is 0.0, not null; otherwise it is
    max(0, 1 - distance(centroid, region centre) / canvas diagonal), for the
    centroid of the in-canvas points visited during open segments.  The two
    cases with a region are stated for the logs on which the centroid pass
    collects exactly the visited points, as it does on every log without a
    mouseDown. *)
Theorem spatial_accuracy_metric :
  forall self action_list ground_truth criteria r,
    evaluate self (VList action_list) ground_truth criteria = Ok r ->
    let actions := dicts_of action_list in
    match spatial_constraints_of criteria with
    | None => dict_get (metrics r) "spatial_accuracy" = Some VNone
    | Some region =>
        (count_action "mouseDown" actions = 0%nat ->
         visited_points self false None actions = Ok []
         /\ dict_get (metrics r) "spatial_accuracy" = Some (VFloat 0))
        /\ (forall points,
              visited_points self false None actions = Ok points ->
              drawing_points self false None actions = Ok points ->
              match points with
              | [] =>
                  dict_get (metrics r) "spatial_accuracy" = Some (VFloat 0)
              | _ :: _ =>
                  exists tx ty,
                    region_center self region = Some (tx, ty)
                    /\ dict_get (metrics r) "spatial_accuracy"
                       = Some (VFloat
                           (Qmax 0
                              (1 - f_sqrt
                                     ((fst (centroid_of self points) - tx) ^ 2
                                      + (snd (centroid_of self points) - ty) ^ 2)
                                   / f_sqrt (canvas_width self ^ 2
                                             + canvas_height self ^ 2))))
              end)
    end.
Proof.
  intros self action_list ground_truth criteria r He. cbv zeta.
  apply evaluate_inv in He as (accurate & accuracy & _ & Hsa & _ & Hm & _).
  cbv zeta in Hsa.
  destruct (spatial_constraints_of criteria) as [region|] eqn:Hsc.
  - destruct (spatial_constraints_have_center self _ _ Hsc) as (tx & ty & Hc).
    unfold _evaluate_spatial_accuracy in Hsa. inv_bind Hsa.
    rename a into centroid.
    unfold _calculate_drawing_centroid in E. inv_bind E. rename a into pts.
    split.
    + intros H0. split; [ apply visited_points_idle; exact H0 | ].
      pose proof (drawing_points_length _ _ _ _ _ E0) as Hlen.
      rewrite H0 in Hlen.
      destruct pts as [|p ps]; [ | cbn in Hlen; lia ].
      injection E as <-. injection Hsa as <-. exact Hm.
    + intros points _ Hd. injection Hd as <-.
      destruct pts as [|p ps].
      * injection E as <-. injection Hsa as <-. exact Hm.
      * injection E as <-. rewrite Hc in Hsa. cbv zeta in Hsa.
        inv_bind Hsa. injection Hsa as <-.
        exists tx, ty. split; [ exact Hc | ].
        unfold pdiv in E.
        destruct (Qeq_bool _ 0); [ discriminate E | ].
        injection E as <-. exact Hm.
  - cbn in Hsa. injection Hsa as <-. exact Hm.
Qed.

(** ** Tool verification *)

Lemma count_action_app name l l' :
  count_action name (l ++ l')
  = (count_action name l + count_action name l')%nat.
Proof.
  induction l as [|a l IH]; [ reflexivity | ].
  change ((a :: l) ++ l') with (a :: (l ++ l')).
  rewrite !count_action_cons, IH. lia.
Qed.

Lemma find_tool_selection_click tx ty actions after :
  find_tool_selection tx ty actions = Ok (Some after) ->
  exists pre, actions = pre ++ after /\ (0 < count_action "click" pre)%nat.
Proof.
  revert after. induction actions as [|a l IH]; intros after H.
  - discriminate H.
  - cbn [find_tool_selection] in H.
    assert (Hrec : find_tool_selection tx ty l = Ok (Some after) ->
                   exists pre, a :: l = pre ++ after
                               /\ (0 < count_action "click" pre)%nat).
    { intros H'. destruct (IH _ H') as (pre & -> & Hc).
      exists (a :: pre). split; [ reflexivity | ].
      rewrite count_action_cons. lia. }
    destruct (act_is a "moveTo").
    + inv_bind H. destruct (a0 && next_is_click l) eqn:Hh; [ | auto ].
      injection H as <-. apply andb_true_iff in Hh as [_ Hn].
      destruct l as [|b l']; [ discriminate Hn | ]. cbn in Hn.
      exists [a; b]. split; [ reflexivity | ].
      rewrite !count_action_cons, Hn. lia.
    + destruct (act_is a "click" && dict_has a "x") eqn:Hc; [ | auto ].
      inv_bind H. destruct a0; [ | auto ].
      injection H as <-. apply andb_true_iff in Hc as [Hc _].
      exists [a]. split; [ reflexivity | ].
      rewrite count_action_cons, Hc. cbn. lia.
Qed.

Lemma used_after_selection_press self tool actions :
  used_after_selection self tool actions = Ok true ->
  (0 < count_action "mouseDown" actions)%nat.
Proof.
  induction actions as [|a l IH]; intros H; [ discriminate H | ].
  cbn [used_after_selection] in H. rewrite count_action_cons.
  destruct (act_is a "mouseDown"); [ lia | ].
  destruct (act_is a "moveTo" || act_is a "click").
  - inv_bind H. destruct a0; [ discriminate H | ]. specialize (IH H). lia.
  - specialize (IH H). lia.
Qed.

Lemma app_cancel_prefix (s a b : string) : s +:+ a = s +:+ b -> a = b.
Proof.
  induction s as [|c s IH]; cbn; intros H; [ exact H | ].
  injection H as H. exact (IH H).
Qed.

Lemma tool_key_used_ne tool suffix :
  suffix <> "_used" ->
  String.eqb ("tool_" +:+ tool +:+ suffix) ("tool_" +:+ tool +:+ "_used") = false.
Proof.
  intros Hne. apply String.eqb_neq. intros H.
  apply app_cancel_prefix, app_cancel_prefix in H. contradiction.
Qed.

(** The entries whose key starts with [tool_] are the ones the
    [required_tools] loop wrote: the later steps of [_check_criteria] write
    other keys. *)
Lemma _check_criteria_tool_entries self actions c d0 d rest :
  match required_tools c with
  | Some tools => check_tools self actions [] tools
  | None => Ok []
  end = Ok d0 ->
  _check_criteria self actions c = Ok d ->
  dict_get d ("tool_" +:+ rest) = dict_get d0 ("tool_" +:+ rest).
Proof.
  intros H0 H. unfold _check_criteria in H. cbv zeta in H.
  inv_bind H. pose proof (eq_trans (eq_sym E) H0) as Heq.
  injection Heq as ->. clear E.
  inv_bind H.
  destruct (required_colors c) as [cols|].
  - inv_bind E. inv_bind E. injection E as <-.
    destruct (min_segments c) as [n|]; destruct (min_coverage c) as [req|].
    + inv_bind H. inv_bind H. injection H as <-.
      rewrite !dict_get_set_ne by reflexivity. reflexivity.
    + injection H as <-.
      rewrite !dict_get_set_ne by reflexivity. reflexivity.
    + inv_bind H. inv_bind H. injection H as <-.
      rewrite !dict_get_set_ne by reflexivity. reflexivity.
    + injection H as <-.
      rewrite !dict_get_set_ne by reflexivity. reflexivity.
  - injection E as <-.
    destruct (min_segments c) as [n|]; destruct (min_coverage c) as [req|].
    + inv_bind H. inv_bind H. injection H as <-.
      rewrite !dict_get_set_ne by reflexivity. reflexivity.
    + injection H as <-.
      rewrite !dict_get_set_ne by reflexivity. reflexivity.
    + inv_bind H. inv_bind H. injection H as <-.
      rewrite !dict_get_set_ne by reflexivity. reflexivity.
    + injection H as <-. reflexivity.
Qed.

(** X12: [_verify_tool_actually_used] never reports a tool as used without
    reporting it as selected; a selection needs a button of that name in
    the layout and a click in the log, a use needs a mouseDown after the
    selecting click.  When the tool is the only required tool, the flags
    [_check_criteria] returns for it are the two components:
    [tool_<name>_used] and [tool_<name>_selected] hold [was_selected],
    [tool_<name>_actually_used] holds [was_used]. *)
Theorem tool_verification_sound :
  forall self actions tool was_selected was_used,
    _verify_tool_actually_used self actions tool = Ok (was_selected, was_used) ->
    (was_used = true -> was_selected = true)
    /\ (was_selected = true ->
        dict_has (tool_positions self) tool = true
        /\ exists pre after,
             actions = pre ++ after
             /\ (0 < count_action "click" pre)%nat
             /\ (was_used = true -> (0 < count_action "mouseDown" after)%nat))
    /\ (forall c d,
          required_tools c = Some [tool] ->
          _check_criteria self actions c = Ok d ->
          dict_get d ("tool_" +:+ tool +:+ "_used") = Some (VBool was_selected)
          /\ dict_get d ("tool_" +:+ tool +:+ "_selected")
             = Some (VBool was_selected)
          /\ dict_get d ("tool_" +:+ tool +:+ "_actually_used")
             = Some (VBool was_used)).
Proof.
  intros self actions tool was_selected was_used H.
  assert (Hstep : forall results r,
            check_tool self actions results tool = Ok r ->
            dict_get r ("tool_" +:+ tool +:+ "_used") = Some (VBool was_selected)
            /\ dict_get r ("tool_" +:+ tool +:+ "_selected")
               = Some (VBool was_selected)
            /\ dict_get r ("tool_" +:+ tool +:+ "_actually_used")
               = Some (VBool was_used)).
  { intros results r Hr. unfold check_tool in Hr. rewrite H in Hr.
    inv_bind Hr. cbn [bind] in Hr. injection Hr as <-.
    assert (Hsel : a = was_selected).
    { unfold _verify_tool_actually_used in H.
      destruct (dict_get (tool_positions self) tool) as [[tx ty]|].
      - inv_bind E. injection E as <-. cbn [bind] in H.
        destruct a0 as [after|].
        + inv_bind H. injection H as <- _. reflexivity.
        + injection H as <- _. reflexivity.
      - injection E as <-. injection H as <- _. reflexivity. }
    subst a. split; [ | split ].
    - rewrite !dict_get_set_ne by (apply tool_key_used_ne; discriminate).
      apply dict_get_set_eq.
    - rewrite dict_get_set_ne.
      + apply dict_get_set_eq.
      + apply String.eqb_neq. intros Heq.
        apply app_cancel_prefix, app_cancel_prefix in Heq. discriminate Heq.
    - apply dict_get_set_eq. }
  assert (Hkeys : forall c d,
            required_tools c = Some [tool] ->
            _check_criteria self actions c = Ok d ->
            dict_get d ("tool_" +:+ tool +:+ "_used") = Some (VBool was_selected)
            /\ dict_get d ("tool_" +:+ tool +:+ "_selected")
               = Some (VBool was_selected)
            /\ dict_get d ("tool_" +:+ tool +:+ "_actually_used")
               = Some (VBool was_used)).
  { intros c d Hreq Hd.
    destruct (check_tool self actions [] tool) as [d0|e] eqn:Hd0.
    - assert (Htools : match required_tools c with
                       | Some tools => check_tools self actions [] tools
                       | None => Ok []
                       end = Ok d0).
      { rewrite Hreq. cbn [check_tools]. rewrite Hd0. reflexivity. }
      rewrite !(_check_criteria_tool_entries _ _ _ _ _ _ Htools Hd).
      apply (Hstep _ _ Hd0).
    - unfold _check_criteria in Hd. cbv zeta in Hd. rewrite Hreq in Hd.
      cbn [check_tools] in Hd. rewrite Hd0 in Hd. discriminate Hd. }
  unfold _verify_tool_actually_used in H. unfold dict_has.
  destruct (dict_get (tool_positions self) tool) as [[tx ty]|].
  - inv_bind H. destruct a as [after|].
    + inv_bind H. injection H as <- <-.
      destruct (find_tool_selection_click _ _ _ _ E) as (pre & Hpre & Hclick).
      split; [ reflexivity | ]. split; [ | exact Hkeys ].
      intros _. split; [ reflexivity | ].
      exists pre, after. split; [ exact Hpre | ]. split; [ exact Hclick | ].
      intros ->. eapply used_after_selection_press. exact E0.
    + injection H as <- <-. split; [ discriminate | ].
      split; [ discriminate | exact Hkeys ].
  - injection H as <- <-. split; [ discriminate | ].
    split; [ discriminate | exact Hkeys ].
Qed.

(** ** Action efficiency *)

(** X13: the action efficiency is absent exactly when the estimated
    minimum number of actions is 0; otherwise it is one of 1, 0.8, 0.6 and
    0.4, and a longer log never gets a higher value than a shorter one
    under the same criteria. *)
Theorem action_efficiency_levels :
  forall criteria actions,
    (_calculate_action_efficiency actions criteria = None
     <-> min_actions_of criteria = 0%Z)
    /\ (forall e, _calculate_action_efficiency actions criteria = Some e ->
          e == 1 \/ e == 0.8 \/ e == 0.6 \/ e == 0.4)
    /\ (forall longer,
          (length actions <= length longer)%nat ->
          opt_Qle (_calculate_action_efficiency longer criteria)
                  (_calculate_action_efficiency actions criteria)).
Proof.
  intros criteria actions. unfold _calculate_action_efficiency. cbv zeta.
  fold (min_actions_of criteria). set (m := min_actions_of criteria).
  destruct (Z.eqb_spec m 0) as [Hm|Hm].
  { split; [ split; [ intros _; exact Hm | reflexivity ] | ].
    split; [ discriminate | ]. intros longer _. exact I. }
  split; [ split; [ discriminate | intros H0; exfalso; exact (Hm H0) ] | ].
  assert (R1 : py_round 1 3 == 1) 
    by (unfold Qeq; vm_compute; reflexivity).
  assert (R2 : py_round 0.8 3 == 0.8) 
    by (unfold Qeq; vm_compute; reflexivity).
  assert (R3 : py_round 0.6 3 == 0.6) 
    by (unfold Qeq; vm_compute; reflexivity).
  assert (R4 : py_round 0.4 3 == 0.4) 
    by (unfold Qeq; vm_compute; reflexivity).
  split.
  - intros e He. injection He as <-.
    destruct (Qleb _ 1.5); [ left; exact R1 | ].
    destruct (Qleb _ 2); [ right; left; exact R2 | ].
    destruct (Qleb _ 3); [ right; right; left; exact R3 | ].
    right; right; right; exact R4.
  - intros longer Hlen. cbn [opt_Qle].
    apply py_round_mono.
    set (r := inject_Z (Z.of_nat (length actions)) / inject_Z m).
    set (r' := inject_Z (Z.of_nat (length longer)) / inject_Z m).
    assert (Hn : inject_Z (Z.of_nat (length actions))
                 <= inject_Z (Z.of_nat (length longer))).
    { rewrite <- Zle_Qle. lia. }
    assert (H0 : 0 <= inject_Z (Z.of_nat (length actions))).
    { change 0 with (inject_Z 0). rewrite <- Zle_Qle. lia. }
    assert (Hr : r <= r' \/ (r <= 0 /\ r' <= 0)).
    { destruct (Z.lt_total m 0) as [Hneg|[Hz|Hpos]]; [ | contradiction | ].
      - right.
        assert (Him : inject_Z m < 0).
        { change 0 with (inject_Z 0). rewrite <- Zlt_Qlt. exact Hneg. }
        assert (Hnp : forall k : Q, 0 <= k -> k / inject_Z m <= 0).
        { intros k Hk. destruct (Qlt_le_dec 0 (k / inject_Z m)) as [Hp|Hp];
            [ exfalso | exact Hp ].
          assert (Hmul : k / inject_Z m * inject_Z m == k) by (field; lra).
          assert (Hopp : 0 < - inject_Z m) by lra.
          pose proof (Qmult_lt_0_compat _ _ Hp Hopp) as Hprod. lra. }
        split; apply Hnp; lra.
      - left. unfold r, r', Qdiv. apply Qmult_le_compat_r; [ exact Hn | ].
        apply Qlt_le_weak, Qinv_lt_0_compat.
        change 0 with (inject_Z 0). rewrite <- Zlt_Qlt. exact Hpos. }
    destruct (Qleb r' 1.5) eqn:A1; destruct (Qleb r 1.5) eqn:B1;
      try (apply Qleb_le in A1); try (apply Qleb_gt in A1);
      try (apply Qleb_le in B1); try (apply Qleb_gt in B1);
      try lra;
      destruct (Qleb r' 2) eqn:A2; try (destruct (Qleb r 2) eqn:B2);
      try (apply Qleb_le in A2); try (apply Qleb_gt in A2);
      try (apply Qleb_le in B2); try (apply Qleb_gt in B2);
      try lra;
      destruct (Qleb r' 3) eqn:A3; try (destruct (Qleb r 3) eqn:B3);
      try (apply Qleb_le in A3); try (apply Qleb_gt in A3);
      try (apply Qleb_le in B3); try (apply Qleb_gt in B3);
      lra.
Qed.

(** ** The scorer *)

Lemma with_bonus_mono n x x' : x <= x' -> with_bonus n x <= with_bonus n x'.
Proof.
  intros H. unfold with_bonus.
  destruct ((10 <=? n)%nat && (n <=? 500)%nat); cbn [andb]; [ | exact H ].
  destruct (Qleb 0.2 x) eqn:E; destruct (Qleb 0.2 x') eqn:E';
    try (apply Qleb_le in E); try (apply Qleb_gt in E);
    try (apply Qleb_le in E'); try (apply Qleb_gt in E'); lra.
Qed.

Lemma clamp_score_mono x x' : x <= x' -> clamp_score x <= clamp_score x'.
Proof.
  intros H. apply (py_round_mono _ _ 3) in H.
  unfold clamp_score, Qmax, Qmin.
  destruct (Qleb 1 (py_round x 3)) eqn:A; destruct (Qleb 1 (py_round x' 3)) eqn:A';
    try (apply Qleb_le in A); try (apply Qleb_gt in A);
    try (apply Qleb_le in A'); try (apply Qleb_gt in A').
  - lra.
  - lra.
  - destruct (Qleb 0 (py_round x 3)) eqn:B; destruct (Qleb 0 1) eqn:B';
      try (apply Qleb_le in B); try (apply Qleb_gt in B);
      try (apply Qleb_le in B'); try (apply Qleb_gt in B'); lra.
  - destruct (Qleb 0 (py_round x 3)) eqn:B;
      destruct (Qleb 0 (py_round x' 3)) eqn:B';
      try (apply Qleb_le in B); try (apply Qleb_gt in B);
      try (apply Qleb_le in B'); try (apply Qleb_gt in B'); lra.
Qed.

Lemma score_after_coverage_diagnostics results errs warns cm :
  score_after_coverage (with_diagnostics results errs warns) cm
  = score_after_coverage results cm.
Proof. reflexivity. Qed.

(** X14: with everything else in the result unchanged, more errors or
    more warnings never give a higher score. *)
Theorem more_diagnostics_never_raise_score :
  forall results errs warns errs' warns' s s',
    (length errs <= length errs')%nat ->
    (length warns <= length warns')%nat ->
    _calculate_score (with_diagnostics results errs warns) = Ok s ->
    _calculate_score (with_diagnostics results errs' warns') = Ok s' ->
    s' <= s.
Proof.
  intros results errs warns errs' warns' s s' He Hw H H'.
  unfold _calculate_score in H, H'. cbv zeta in H, H'.
  cbn [criteria_met with_diagnostics errors warnings total_actions] in H, H'.
  rewrite score_after_coverage_diagnostics in H, H'.
  inv_bind H. cbn [bind] in H'. injection H as <-. injection H' as <-.
  apply clamp_score_mono, with_bonus_mono.
  assert (H1 : inject_Z (Z.of_nat (length errs))
               <= inject_Z (Z.of_nat (length errs'))).
  { rewrite <- Zle_Qle. lia. }
  assert (H2 : inject_Z (Z.of_nat (length warns))
               <= inject_Z (Z.of_nat (length warns'))).
  { rewrite <- Zle_Qle. lia. }
  lra.
Qed.

(** The result of a list log without criteria: the scorer sees no criteria
    flags, so only the error, warning and action counts enter the score. *)
Lemma evaluate_without_criteria self action_list ground_truth criteria r :
  criteria_truthy criteria = false ->
  evaluate self (VList action_list) ground_truth criteria = Ok r ->
  score r
  = Some (clamp_score
            (with_bonus (length action_list)
               (1 - inject_Z (Z.of_nat (length (errors r))) * 0.08
                  - inject_Z (Z.of_nat (length (warnings r))) * 0.02)))
  /\ total_actions r = length action_list
  /\ criteria_met r = None
  /\ error_classification r = Some no_errors_classified.
Proof.
  intros Hc H.
  unfold evaluate in H. cbv zeta in H. unfold given in H. rewrite Hc in H.
  repeat inv_bind H. injection H as <-.
  cbn [score total_actions criteria_met error_classification errors warnings
       with_classification with_score].
  split; [ | split; [ reflexivity | split; reflexivity ] ].
  unfold _calculate_score in E6. cbv zeta in E6.
  cbn [criteria_met errors warnings total_actions] in E6.
  unfold score_after_coverage, score_after_segments, score_after_colors,
    color_penalty, coverage_penalty, segment_penalty, score_after_tools,
    tool_penalties, available, flag_failed in E6.
  cbn [dict_get fold_left bind] in E6.
  injection E6 as <-. reflexivity.
Qed.

(** X15: without criteria (absent, or an empty dict) the score of a list
    log is determined by the numbers of errors, warnings and actions: two
    such results with the same three numbers have the same score, and a
    log without errors and warnings scores 1.  No criteria flags are
    reported and every bucket of the error classification is empty. *)
Theorem score_without_criteria :
  forall self action_list ground_truth criteria r,
    criteria_truthy criteria = false ->
    evaluate self (VList action_list) ground_truth criteria = Ok r ->
    total_actions r = length action_list
    /\ criteria_met r = None
    /\ error_classification r = Some no_errors_classified
    /\ (errors r = [] -> warnings r = [] -> score r = Some 1)
    /\ (forall self' action_list' ground_truth' criteria' r',
          criteria_truthy criteria' = false ->
          evaluate self' (VList action_list') ground_truth' criteria' = Ok r' ->
          length action_list' = length action_list ->
          length (errors r') = length (errors r) ->
          length (warnings r') = length (warnings r) ->
          score r' = score r).
Proof.
  intros self action_list ground_truth criteria r Hc H.
  destruct (evaluate_without_criteria _ _ _ _ _ Hc H) as (Hs & Ht & Hm & Hcl).
  split; [ exact Ht | ]. split; [ exact Hm | ]. split; [ exact Hcl | ].
  split.
  - intros He Hw. rewrite Hs, He, Hw. unfold with_bonus.
    destruct ((10 <=? length action_list)%nat
              && (length action_list <=? 500)%nat);
      vm_compute; reflexivity.
  - intros self' action_list' ground_truth' criteria' r' Hc' H' Hl He Hw.
    destruct (evaluate_without_criteria _ _ _ _ _ Hc' H') as (Hs' & _).
    rewrite Hs', Hs, Hl, He, Hw. reflexivity.
Qed.

(** ** The error classification and the criteria flags *)

Lemma str_in_In s l : str_in s l = true <-> In s l.
Proof.
  unfold str_in. rewrite existsb_exists. split.
  - intros (x & Hx & He). apply String.eqb_eq in He. subst x. exact Hx.
  - intros H. exists s. split; [ exact H | apply String.eqb_refl ].
Qed.

Lemma filter_keeps_all (P : string -> Prop) `{forall x, Decision (P x)}
    (l : list string) :
  (length l <= length (filter P l))%nat <-> (forall x, In x l -> P x).
Proof.
  induction l as [|a l IH].
  - split; [ intros _ x [] | intros _; cbn; lia ].
  - destruct (decide (P a)) as [Ha|Ha].
    + rewrite filter_cons_True by exact Ha. cbn [length]. split.
      * intros Hl x [<-|Hx]; [ exact Ha | ].
        apply IH; [ lia | exact Hx ].
      * intros Hall. apply le_n_S. apply IH. intros x Hx. apply Hall.
        right. exact Hx.
    + rewrite filter_cons_False by exact Ha. cbn [length]. split.
      * intros Hl. pose proof (length_filter P l). lia.
      * intros Hall. contradiction Ha. apply Hall. left. reflexivity.
Qed.

Lemma In_remove_dups (c : string) (l : list string) :
  In c (remove_dups l) <-> In c l.
Proof. rewrite <- !list_elem_of_In. apply elem_of_remove_dups. Qed.

Lemma exact_flag_all_used (cols exact : list string) :
  (length (str_set cols)
   <=? length (filter (fun c => str_in c (str_set exact) = true)
                 (str_set cols)))%nat = true
  <-> (forall c, In c cols -> In c exact).
Proof.
  rewrite Nat.leb_le, filter_keeps_all. unfold str_set. split.
  - intros Hall c Hc. apply In_remove_dups, str_in_In, Hall, In_remove_dups.
    exact Hc.
  - intros Hall c Hc. apply str_in_In, In_remove_dups, Hall.
    apply (proj1 (In_remove_dups _ _)) in Hc. exact Hc.
Qed.

Lemma missing_colors_nil (exact cols miss : list string) :
  missing_colors (VStrs exact) cols = Ok miss ->
  (miss = [] <-> (forall c, In c cols -> In c exact)).
Proof.
  revert miss. induction cols as [|c cols IH]; intros miss H.
  - cbn in H. injection H as <-. split; [ intros _ x [] | reflexivity ].
  - cbn [missing_colors] in H. inv_bind H. inv_bind H. injection H as <-.
    specialize (IH _ eq_refl).
    assert (Hp : a = true <-> In c exact).
    { unfold VStrs, py_contains_str in E. injection E as <-.
      rewrite existsb_exists. split.
      - intros (v & Hv & He). apply in_map_iff in Hv as (s & <- & Hs).
        cbn in He. apply String.eqb_eq in He. subst s. exact Hs.
      - intros Hin. exists (VStr c). split.
        + apply in_map. exact Hin.
        + cbn. apply String.eqb_refl. }
    destruct a.
    + rewrite IH. split.
      * intros Hall x [<-|Hx]; [ apply Hp; reflexivity | apply Hall, Hx ].
      * intros Hall x Hx. apply Hall. right. exact Hx.
    + split; [ discriminate | ]. intros Hall. exfalso.
      assert (Hf : false = true) by (apply Hp, Hall; left; reflexivity).
      discriminate Hf.
Qed.

Lemma _check_criteria_flags self actions c d :
  _check_criteria self actions c = Ok d ->
  (forall n, min_segments c = Some n ->
     dict_get d "min_segments_met"
     = Some (VBool (n <=? Z.of_nat (_count_drawing_segments actions))%Z))
  /\ (forall cols, required_colors c = Some cols ->
        exists exact,
          _detect_exact_colors_used self actions = Ok exact
          /\ dict_get d "min_colors_exact_met"
             = Some (VBool
                       (length (str_set cols)
                        <=? length (filter
                                      (fun c => str_in c (str_set exact) = true)
                                      (str_set cols)))%nat)).
Proof.
  unfold _check_criteria. intros H. cbv zeta in H.
  inv_bind H. inv_bind H. split.
  - intros n Hn. rewrite Hn in E0.
    destruct (required_colors c) as [cols|].
    + inv_bind E0. inv_bind E0. injection E0 as <-.
      destruct (min_coverage c) as [req|].
      * inv_bind H. inv_bind H. injection H as <-.
        rewrite !dict_get_set_ne by reflexivity. apply dict_get_set_eq.
      * injection H as <-.
        rewrite !dict_get_set_ne by reflexivity. apply dict_get_set_eq.
    + injection E0 as <-.
      destruct (min_coverage c) as [req|].
      * inv_bind H. inv_bind H. injection H as <-.
        rewrite !dict_get_set_ne by reflexivity. apply dict_get_set_eq.
      * injection H as <-.
        rewrite !dict_get_set_ne by reflexivity. apply dict_get_set_eq.
  - intros cols Hcols. rewrite Hcols in E0.
    inv_bind E0. inv_bind E0. injection E0 as <-.
    exists a2. split; [ reflexivity | ].
    destruct (min_coverage c) as [req|].
    + inv_bind H. inv_bind H. injection H as <-.
      rewrite !dict_get_set_ne by reflexivity. apply dict_get_set_eq.
    + injection H as <-. apply dict_get_set_eq.
Qed.

Lemma _classify_errors_inv results c cls :
  _classify_errors results c = Ok cls ->
  syntax_errors cls = errors results
  /\ (forall cols, required_colors c = Some cols ->
        missing_colors
          (get_or (metrics results) "exact_colors_used" (VList [])) cols
        = Ok (color_errors cls))
  /\ (forall req, min_coverage c = Some req ->
        exists actual,
          num (get_or (metrics results) "canvas_coverage_accurate" (VInt 0))
          = Ok actual
          /\ (existsb is_insufficient_coverage (spatial_errors cls)
              = Qltb actual req))
  /\ (forall n, min_segments c = Some n ->
        exists actual,
          num (get_or (metrics results) "drawing_segments" (VInt 0))
          = Ok actual
          /\ (planning_errors cls = [] <-> inject_Z n <= actual)).
Proof.
  unfold _classify_errors. intros H. cbv zeta in H.
  inv_bind H. inv_bind H. inv_bind H. inv_bind H. injection H as <-.
  cbn [syntax_errors color_errors spatial_errors planning_errors].
  split; [ reflexivity | ]. split; [ | split ].
  - intros cols Hcols. rewrite Hcols in E. exact E.
  - intros req Hreq. rewrite Hreq in E0. inv_bind E0. injection E0 as <-.
    exists a3. split; [ reflexivity | ].
    rewrite existsb_app.
    assert (Hp : existsb is_insufficient_coverage a2 = false).
    { destruct (is_none (get_none (metrics results) "spatial_accuracy")).
      - injection E2 as <-. reflexivity.
      - inv_bind E2. destruct (Qltb _ 0.7).
        + destruct (get_or (metrics results) "spatial_constraints" (VDict []));
            try discriminate E2.
          injection E2 as <-. reflexivity.
        + injection E2 as <-. reflexivity. }
    rewrite Hp, orb_false_r. destruct (Qltb a3 req); reflexivity.
  - intros n Hn. rewrite Hn in E1. inv_bind E1. injection E1 as <-.
    exists a3. split; [ reflexivity | ].
    destruct (Qltb a3 (inject_Z n)) eqn:Hlt.
    + apply Qltb_lt in Hlt. split; [ discriminate | lra ].
    + apply Qltb_ge in Hlt. split; [ intros _; exact Hlt | reflexivity ].
Qed.

Lemma evaluate_with_criteria self action_list ground_truth c r :
  criteria_truthy (Some c) = true ->
  evaluate self (VList action_list) ground_truth (Some c) = Ok r ->
  let actions := dicts_of action_list in
  exists results met cls exact accurate,
    _check_criteria self actions c = Ok met
    /\ criteria_met r = Some met
    /\ _classify_errors results c = Ok cls
    /\ error_classification r = Some cls
    /\ errors results = errors r
    /\ _detect_exact_colors_used self actions = Ok exact
    /\ get_or (metrics results) "exact_colors_used" (VList []) = VStrs exact
    /\ _estimate_canvas_coverage_accurate self actions = Ok accurate
    /\ get_or (metrics results) "canvas_coverage_accurate" (VInt 0)
       = VFloat accurate
    /\ get_or (metrics results) "drawing_segments" (VInt 0)
       = VNat (_count_drawing_segments actions).
Proof.
  intros Ht H. unfold evaluate in H. cbv zeta in H. unfold given in H.
  rewrite Ht in H. repeat inv_bind H. injection H as <-.
  inv_bind E6. injection E6 as <-.
  cbn [criteria_met error_classification errors with_classification
       with_score].
  eexists _, _, _, _, _.
  split; [ eassumption | ]. split; [ reflexivity | ].
  split; [ exact E8 | ]. split; [ reflexivity | ].
  split; [ reflexivity | ]. split; [ eassumption | ].
  split; [ reflexivity | ]. split; [ eassumption | ].
  split; reflexivity.
Qed.

(** X16: in a result computed with criteria, the error classification
    agrees with the criteria flags: its syntax_errors bucket is the whole
    error list (coordinate errors included); an insufficient_segments
    entry is present exactly when min_segments_met is false, an
    insufficient_coverage entry exactly when min_coverage_accurate_met is
    false, and a missing_required_color entry exactly when
    min_colors_exact_met is false. *)
Theorem classification_agrees_with_criteria :
  forall self action_list ground_truth c r,
    criteria_truthy (Some c) = true ->
    evaluate self (VList action_list) ground_truth (Some c) = Ok r ->
    exists cls met,
      error_classification r = Some cls
      /\ criteria_met r = Some met
      /\ syntax_errors cls = errors r
      /\ (forall n, min_segments c = Some n ->
            (planning_errors cls = []
             <-> dict_get met "min_segments_met" = Some (VBool true)))
      /\ (forall req, min_coverage c = Some req ->
            (existsb is_insufficient_coverage (spatial_errors cls) = false
             <-> dict_get met "min_coverage_accurate_met" = Some (VBool true)))
      /\ (forall cols, required_colors c = Some cols ->
            (color_errors cls = []
             <-> dict_get met "min_colors_exact_met" = Some (VBool true))).
Proof.
  intros self action_list ground_truth c r Ht H.
  destruct (evaluate_with_criteria _ _ _ _ _ Ht H)
    as (results & met & cls & exact & accurate & Hmet & Hr & Hcls & Hrc
        & Herr & Hexact & Mexact & Hacc & Macc & Mseg).
  destruct (_check_criteria_flags _ _ _ _ Hmet) as (Fseg & Fcol).
  destruct (_classify_errors_inv _ _ _ Hcls) as (Csyn & Ccol & Ccov & Cseg).
  exists cls, met. split; [ exact Hrc | ]. split; [ exact Hr | ].
  split; [ rewrite Csyn; exact Herr | ]. split; [ | split ].
  - intros n Hn. rewrite (Fseg n Hn).
    destruct (Cseg n Hn) as (actual & Hnum & Hiff).
    rewrite Mseg in Hnum. injection Hnum as <-. rewrite Hiff.
    rewrite <- Zle_Qle, <- Z.leb_le.
    split; [ intros ->; reflexivity | intros Heq; injection Heq as ->;
             reflexivity ].
  - intros req Hreq.
    destruct (_check_criteria_coverage _ _ _ _ _ Hmet Hreq)
      as (accurate' & Hacc' & ->).
    rewrite Hacc in Hacc'. injection Hacc' as <-.
    destruct (Ccov req Hreq) as (actual & Hnum & ->).
    rewrite Macc in Hnum. injection Hnum as <-.
    unfold Qltb, Qleb. rewrite negb_false_iff.
    split; [ intros ->; reflexivity | intros Heq; injection Heq as ->;
             reflexivity ].
  - intros cols Hcols.
    destruct (Fcol cols Hcols) as (exact' & Hexact' & ->).
    rewrite Hexact in Hexact'. injection Hexact' as <-.
    specialize (Ccol cols Hcols). rewrite Mexact in Ccol.
    rewrite (missing_colors_nil _ _ _ Ccol), <- exact_flag_all_used.
    split; [ intros ->; reflexivity | intros Heq; injection Heq as ->;
             reflexivity ].
Qed.

(** ** Coordinate errors and their context *)

Lemma off_screen_axis x y :
  off_screen x y = true ->
  axis_problem_of x 0 1500 <> None \/ axis_problem_of y 0 900 <> None.
Proof.
  unfold off_screen, axis_problem_of. intros H.
  destruct (Qltb x 0); [ left; discriminate | ].
  destruct (Qltb 1500 x); [ left; discriminate | ].
  destruct (Qltb y 0); [ right; discriminate | ].
  destruct (Qltb 900 y); [ right; discriminate | discriminate H ].
Qed.

Lemma off_canvas_axis self x y :
  off_canvas self x y = true ->
  axis_problem_of (x - canvas_offset_x self) 0 (canvas_width self) <> None
  \/ axis_problem_of (y - canvas_offset_y self) 0 (canvas_height self) <> None.
Proof.
  unfold off_canvas, axis_problem_of. cbv zeta. intros H.
  destruct (Qltb (x - canvas_offset_x self) 0); [ left; discriminate | ].
  destruct (Qltb (canvas_width self) (x - canvas_offset_x self));
    [ left; discriminate | ].
  destruct (Qltb (y - canvas_offset_y self) 0); [ right; discriminate | ].
  destruct (Qltb (canvas_height self) (y - canvas_offset_y self));
    [ right; discriminate | discriminate H ].
Qed.

(** X17: every entry of [_check_coordinate_errors] belongs to an action of
    the log that carries both coordinates and has that action's index.  It
    is a SYNTAX_ERROR when a coordinate does not convert to a float;
    otherwise it is a COORDINATE_ERROR whose context repeats the index and
    the converted coordinates and names at least one offending axis, and a
    canvas-bounds error only ever belongs to a mouseDown. *)
Theorem coordinate_error_names_axis :
  forall self actions d,
    In d (_check_coordinate_errors self actions) ->
    exists i action,
      nth_error actions i = Some action
      /\ d_index d = Some (Z.of_nat i)
      /\ has_xy action = true
      /\ ((d_type d = SYNTAX_ERROR
           /\ forall x y, to_float (get_none action "x") = Ok x ->
                          to_float (get_none action "y") = Ok y -> False)
          \/ exists ctx,
               d_type d = COORDINATE_ERROR
               /\ d_message d = MsgCoordinate ctx
               /\ cc_index ctx = i
               /\ to_float (get_none action "x") = Ok (cc_x ctx)
               /\ to_float (get_none action "y") = Ok (cc_y ctx)
               /\ (cc_x_problem ctx <> None \/ cc_y_problem ctx <> None)
               /\ (cc_kind ctx = canvas_bounds ->
                   act_is action "mouseDown" = true)).
Proof.
  intros self actions d H. unfold _check_coordinate_errors in H.
  apply in_check_coordinate_errors_from in H as (i & action & Hn & Hd).
  exists i, action. cbn [Nat.add] in Hd.
  split; [ exact Hn | ].
  split; [ eapply coordinate_errors_at_index; exact Hd | ].
  unfold coordinate_errors_at in Hd.
  destruct (has_xy action); [ | contradiction ].
  split; [ reflexivity | ].
  destruct (to_float (get_none action "x")) as [x|ex] eqn:Ex;
    destruct (to_float (get_none action "y")) as [y|ey] eqn:Ey;
    try (destruct Hd as [<-|[]]; left; split;
         [ reflexivity | intros ? ? ? ?; discriminate ]).
  right. apply in_app_or in Hd. destruct Hd as [Hd|Hd].
  - destruct (off_screen x y) eqn:Hoff; [ | contradiction ].
    destruct Hd as [<-|[]]. eexists. split; [ reflexivity | ].
    split; [ reflexivity | ]. cbn.
    split; [ reflexivity | ]. split; [ reflexivity | ].
    split; [ reflexivity | ]. split; [ apply off_screen_axis, Hoff | ].
    discriminate.
  - destruct (act_is action "mouseDown") eqn:Hdown; [ | contradiction ].
    destruct (off_canvas self x y) eqn:Hoff; [ | contradiction ].
    destruct Hd as [<-|[]]. eexists. split; [ reflexivity | ].
    split; [ reflexivity | ]. cbn.
    split; [ reflexivity | ]. split; [ reflexivity | ].
    split; [ reflexivity | ]. split; [ apply off_canvas_axis, Hoff | ].
    reflexivity.
Qed.

(** X18: the action-sequence context of an index inside the log has at
    most five lines, for consecutive indices of the log starting at
    max(0, index - 2); it always contains the line of the index itself, and
    that line is the only one marked. *)
Theorem sequence_context_window :
  forall index actions,
    (index < length actions)%nat ->
    let ctx := _get_action_sequence_context index actions in
    (1 <= length ctx <= 5)%nat
    /\ map cl_index ctx = seq (index - 2) (length ctx)
    /\ (forall line, In line ctx ->
          exists action,
            nth_error actions (cl_index line) = Some action
            /\ line = context_line_of index (cl_index line) action
            /\ (cl_marked line = true <-> cl_index line = index))
    /\ (exists line, In line ctx /\ cl_index line = index).
Proof.
  intros index actions Hlt ctx. subst ctx.
  unfold _get_action_sequence_context. cbv zeta.
  set (start := (index - 2)%nat).
  set (stop := Nat.min (length actions) (index + 2 + 1)).
  assert (Hstop : (index < stop)%nat) by (unfold stop; lia).
  rewrite length_map, length_seq.
  split; [ unfold start, stop; lia | ]. split; [ | split ].
  - rewrite map_map. cbn [cl_index context_line_of]. apply map_id.
  - intros line Hin. apply in_map_iff in Hin as (i & <- & Hi).
    apply in_seq in Hi. cbn [cl_index context_line_of].
    assert (Hi' : (i < length actions)%nat) by (unfold stop in Hi |- *; lia).
    destruct (nth_error actions i) as [action|] eqn:Hn.
    + exists action. split; [ reflexivity | ].
      rewrite (nth_error_nth _ _ _ Hn).
      split; [ reflexivity | ]. cbn [cl_marked]. apply Nat.eqb_eq.
    + apply nth_error_None in Hn. lia.
  - exists (context_line_of index index (nth index actions [])).
    split; [ | reflexivity ].
    apply in_map_iff. exists index. split; [ reflexivity | ].
    apply in_seq. unfold start. lia.
Qed.

(** ** The diagnostics of a list log *)

(** X19: in the result for a list log, total_actions is the length of the
    list and the per-type counts add up to it; every error is a
    SYNTAX_ERROR or a COORDINATE_ERROR and carries the index of an action
    of the log; every warning is an EFFICIENCY_WARNING or a LOGIC_ERROR
    without an index, and there are at most three warnings. *)
Theorem list_log_diagnostics :
  forall self action_list ground_truth criteria r,
    evaluate self (VList action_list) ground_truth criteria = Ok r ->
    total_actions r = length action_list
    /\ counts_total (action_breakdown r) = length action_list
    /\ (forall d, In d (errors r) ->
          (d_type d = SYNTAX_ERROR \/ d_type d = COORDINATE_ERROR)
          /\ exists i, d_index d = Some (Z.of_nat i)
                       /\ (i < length action_list)%nat)
    /\ (forall d, In d (warnings r) ->
          (d_type d = EFFICIENCY_WARNING \/ d_type d = LOGIC_ERROR)
          /\ d_index d = None)
    /\ (length (warnings r) <= 3)%nat.
Proof.
  intros self action_list ground_truth criteria r H.
  pose proof (evaluate_all_dicts _ _ _ _ _ H) as Hdicts.
  assert (Hlen : length action_list = length (dicts_of action_list)).
  { rewrite Hdicts at 1. apply length_map. }
  unfold evaluate in H. cbv zeta in H. repeat inv_bind H. injection H as <-.
  cbn [total_actions action_breakdown errors warnings with_classification
       with_score].
  split; [ reflexivity | ]. split; [ | split; [ | split ] ].
  - unfold _count_actions in E.
    apply count_actions_loop_total in E; [ | reflexivity ].
    destruct E as [_ E]. rewrite E. reflexivity.
  - intros d Hd. apply in_app_or in Hd. destruct Hd as [Hd|Hd].
    + unfold _check_syntax_errors in Hd. split.
      * left. apply (syntax_errors_type _ _ _ Hd).
      * apply check_syntax_errors_from_index in Hd
          as (j & action & Hn & Hi & _).
        exists j. split; [ exact Hi | ].
        rewrite Hlen. apply nth_error_Some. congruence.
    + unfold _check_coordinate_errors in Hd.
      apply in_check_coordinate_errors_from in Hd as (j & action & Hn & Hd).
      cbn [Nat.add] in Hd. split.
      * unfold coordinate_errors_at in Hd.
        destruct (has_xy action); [ | contradiction ].
        destruct (to_float (get_none action "x")) as [x|];
          destruct (to_float (get_none action "y")) as [y|];
          try (destruct Hd as [<-|[]]; left; reflexivity).
        apply in_app_or in Hd. destruct Hd as [Hd|Hd].
        -- destruct (off_screen x y); [ | contradiction ].
           destruct Hd as [<-|[]]. right. reflexivity.
        -- destruct (act_is action "mouseDown" && off_canvas self x y);
             [ | contradiction ].
           destruct Hd as [<-|[]]. right. reflexivity.
      * exists j. split; [ eapply coordinate_errors_at_index; exact Hd | ].
        rewrite Hlen. apply nth_error_Some. congruence.
  - intros d Hd. unfold _check_efficiency_warnings in Hd. cbv zeta in Hd.
    apply in_app_or in Hd. destruct Hd as [Hd|Hd].
    + destruct (1000 <? length (dicts_of action_list))%nat; [ | contradiction ].
      destruct Hd as [<-|[]]. split; [ left; reflexivity | reflexivity ].
    + apply in_app_or in Hd. destruct Hd as [Hd|Hd].
      * destruct (first_triple_moveTo 0 (dicts_of action_list));
          [ | contradiction ].
        destruct Hd as [<-|[]]. split; [ left; reflexivity | reflexivity ].
      * destruct (count_action "mouseDown" (dicts_of action_list)
                  =? count_action "mouseUp" (dicts_of action_list))%nat;
          [ contradiction | ].
        destruct Hd as [<-|[]]. split; [ right; reflexivity | reflexivity ].
  - unfold _check_efficiency_warnings. cbv zeta. rewrite !length_app.
    destruct (1000 <? length (dicts_of action_list))%nat;
      destruct (first_triple_moveTo 0 (dicts_of action_list));
      destruct (count_action "mouseDown" (dicts_of action_list)
                =? count_action "mouseUp" (dicts_of action_list))%nat;
      cbn [length]; lia.
Qed.

(** ** Region keywords *)

Lemma lower_ascii_idem c : lower_ascii (lower_ascii c) = lower_ascii c.
Proof.
  destruct c as [[] [] [] [] [] [] [] []]; reflexivity.
Qed.

Lemma str_lower_idem s : str_lower (str_lower s) = str_lower s.
Proof.
  induction s as [|c s IH]; [ reflexivity | ].
  cbn [str_lower]. rewrite lower_ascii_idem, IH. reflexivity.
Qed.

(** X20: region detection ignores letter case: a prompt and its
    lower-cased form give the same region, and a detected region is one of
    the nine names that have a region centre. *)
Theorem region_detection_ignores_case :
  forall p,
    _extract_spatial_constraints (str_lower p) = _extract_spatial_constraints p
    /\ (forall region,
          _extract_spatial_constraints p = Some region ->
          In region ["top-left"; "top"; "top-right"; "left"; "center";
                     "right"; "bottom-left"; "bottom"; "bottom-right"]).
Proof.
  intros p. split.
  - unfold _extract_spatial_constraints. rewrite str_lower_idem.
    destruct p as [|c s]; reflexivity.
  - intros region H. unfold _extract_spatial_constraints in H.
    repeat match type of H with
           | (if ?b then _ else _) = _ => destruct b
           end;
      try discriminate H; injection H as <-; cbn [In];
      repeat first [ left; reflexivity | right ].
Qed.

(** ** Feedback *)

Lemma generate_feedback_defined r tc cc seg cov q s :
  dict_get (metrics r) "tool_changes" = Some tc ->
  dict_get (metrics r) "color_changes" = Some cc ->
  dict_get (metrics r) "drawing_segments" = Some seg ->
  dict_get (metrics r) "canvas_coverage" = Some cov ->
  format_number cov = Feedback q ->
  score r = Some s ->
  exists body,
    generate_feedback r = Feedback (body ++ [ScoreLine s])
    /\ (length (List.filter is_diag_line body) <= 8)%nat
    /\ (In CriteriaHeader body -> criteria_met r <> None).
Proof.
  intros Htc Hcc Hseg Hcov Hq Hs. unfold generate_feedback, metric. cbv zeta.
  rewrite Htc, Hcc, Hseg, Hcov. cbn [fbind]. rewrite Hq, Hs. cbn [fbind].
  eexists. split; [ reflexivity | ].
  set (el := match errors r with
             | [] => []
             | _ => ErrorsHeader :: map diag_line (firstn 5 (errors r))
             end).
  set (wl := match warnings r with
             | [] => []
             | _ => WarningsHeader :: map diag_line (firstn 3 (warnings r))
             end).
  set (cl := match criteria_met r with
             | Some d => CriteriaHeader :: map criterion_line d
             | None => []
             end).
  assert (Hel : (length (List.filter is_diag_line el) <= 5)%nat
                /\ ~ In CriteriaHeader el).
  { unfold el. destruct (errors r) as [|e es]; [ cbn; split; [ lia | intros [] ] | ].
    split.
    - cbn [List.filter is_diag_line].
      etransitivity; [ apply List.filter_length_le | ].
      rewrite length_map. apply firstn_le_length.
    - intros [Hh|Hin]; [ discriminate Hh | ].
      apply in_map_iff in Hin as (d & Hd & _). discriminate Hd. }
  assert (Hwl : (length (List.filter is_diag_line wl) <= 3)%nat
                /\ ~ In CriteriaHeader wl).
  { unfold wl. destruct (warnings r) as [|e es];
      [ cbn; split; [ lia | intros [] ] | ].
    split.
    - cbn [List.filter is_diag_line].
      etransitivity; [ apply List.filter_length_le | ].
      rewrite length_map. apply firstn_le_length.
    - intros [Hh|Hin]; [ discriminate Hh | ].
      apply in_map_iff in Hin as (d & Hd & _). discriminate Hd. }
  assert (Hcl : List.filter is_diag_line cl = []
                /\ (In CriteriaHeader cl -> criteria_met r <> None)).
  { unfold cl. destruct (criteria_met r) as [d|].
    - split; [ | discriminate ]. cbn [List.filter is_diag_line].
      induction d as [|kv d IH]; [ reflexivity | exact IH ].
    - split; [ reflexivity | intros [] ]. }
  destruct Hel as [Hel1 Hel2]. destruct Hwl as [Hwl1 Hwl2].
  destruct Hcl as [Hcl1 Hcl2].
  split.
  - rewrite !List.filter_app, !length_app, Hcl1. cbn. lia.
  - rewrite !in_app_iff. cbn [In].
    intros H.
    repeat match type of H with
           | _ \/ _ => destruct H as [H|H]
           end;
      first [ exact (Hcl2 H) | exact (False_ind _ (Hel2 H))
            | exact (False_ind _ (Hwl2 H)) | discriminate H | destruct H ].
Qed.

(** X21: [generate_feedback] returns on every result of [evaluate], list
    input or not: the four metrics it reads are always present, the
    coverage is a number and the score is set.  The text ends with the
    line of the score, shows at most eight diagnostics (five errors, three
    warnings), and has a criteria section only when the result has
    criteria flags. *)
Theorem feedback_on_evaluate_results :
  forall self actions ground_truth criteria r,
    evaluate self actions ground_truth criteria = Ok r ->
    exists body s,
      generate_feedback r = Feedback (body ++ [ScoreLine s])
      /\ score r = Some s
      /\ (length (List.filter is_diag_line body) <= 8)%nat
      /\ (In CriteriaHeader body -> criteria_met r <> None).
Proof.
  intros self actions ground_truth criteria r H.
  assert (Hm : exists tc cc seg cov q s,
             dict_get (metrics r) "tool_changes" = Some tc
             /\ dict_get (metrics r) "color_changes" = Some cc
             /\ dict_get (metrics r) "drawing_segments" = Some seg
             /\ dict_get (metrics r) "canvas_coverage" = Some cov
             /\ format_number cov = Feedback q
             /\ score r = Some s).
  { destruct actions as [| | | | |action_list|];
      try (injection H as <-; do 6 eexists; repeat split; reflexivity).
    unfold evaluate in H. cbv zeta in H. repeat inv_bind H. injection H as <-.
    do 6 eexists. repeat split; reflexivity. }
  destruct Hm as (tc & cc & seg & cov & q & s & Htc & Hcc & Hseg & Hcov & Hq
                  & Hs).
  destruct (generate_feedback_defined _ _ _ _ _ _ _ Htc Hcc Hseg Hcov Hq Hs)
    as (body & Hb & Hn & Hc).
  exists body, s. split; [ exact Hb | ]. split; [ exact Hs | ].
  split; [ exact Hn | exact Hc ].
Qed.

(** X22: [generate_feedback] fails with a KeyError on a result whose
    metrics lack one of the four keys it reads, so on every result with an
    empty metrics dict. *)
Theorem feedback_needs_metrics :
  forall r k,
    In k feedback_metric_keys ->
    dict_get (metrics r) k = None ->
    exists missing,
      generate_feedback r = FeedbackFails (KeyError missing)
      /\ In missing feedback_metric_keys.
Proof.
  intros r k Hk Hnone. unfold generate_feedback, metric. cbv zeta.
  unfold feedback_metric_keys in Hk |- *.
  destruct (dict_get (metrics r) "tool_changes") eqn:E1; cbn [fbind];
    [ | eexists; split;
        [ reflexivity
        | cbn [In]; repeat first [ left; reflexivity | right ] ] ].
  destruct (dict_get (metrics r) "color_changes") eqn:E2; cbn [fbind];
    [ | eexists; split;
        [ reflexivity
        | cbn [In]; repeat first [ left; reflexivity | right ] ] ].
  destruct (dict_get (metrics r) "drawing_segments") eqn:E3; cbn [fbind];
    [ | eexists; split;
        [ reflexivity
        | cbn [In]; repeat first [ left; reflexivity | right ] ] ].
  destruct (dict_get (metrics r) "canvas_coverage") eqn:E4; cbn [fbind];
    [ | eexists; split;
        [ reflexivity
        | cbn [In]; repeat first [ left; reflexivity | right ] ] ].
  exfalso. cbn [In] in Hk.
  destruct Hk as [<-|[<-|[<-|[<-|[]]]]];
    first [ rewrite Hnone in E1; discriminate E1
          | rewrite Hnone in E2; discriminate E2
          | rewrite Hnone in E3; discriminate E3
          | rewrite Hnone in E4; discriminate E4 ].
Qed.

(** ** Criteria penalties *)

Lemma Qmax_0_nonneg x : 0 <= Qmax 0 x.
Proof.
  unfold Qmax. destruct (Qleb 0 x) eqn:E; [ apply Qleb_le, E | lra ].
Qed.

Lemma tool_penalty_of_nonneg cm key value : 0 <= tool_penalty_of cm key value.
Proof.
  unfold tool_penalty_of.
  destruct (str_endswith "_actually_used" key).
  - destruct (truthy value); lra.
  - destruct (str_startswith "tool_" key && str_endswith "_used" key);
      [ | lra ].
    destruct (dict_has cm _); [ lra | ]. destruct (truthy value); lra.
Qed.

Lemma tool_penalties_nonneg cm : 0 <= tool_penalties cm.
Proof.
  unfold tool_penalties.
  assert (H : forall (l : adict) acc,
            0 <= acc ->
            0 <= fold_left
                   (fun acc kv => acc + tool_penalty_of cm (fst kv) (snd kv))
                   l acc).
  { induction l as [|kv l IH]; intros acc Hacc; [ exact Hacc | ].
    cbn [fold_left]. apply IH.
    pose proof (tool_penalty_of_nonneg cm (fst kv) (snd kv)). lra. }
  apply H. lra.
Qed.

Lemma missing_color_penalty_nonneg results cm key p :
  missing_color_penalty results cm key = Ok p -> 0 <= p.
Proof.
  unfold missing_color_penalty. cbv zeta. intros H. inv_bind H.
  injection H as <-.
  apply Qmult_le_0_compat; [ lra | apply Qmax_0_nonneg ].
Qed.

Lemma color_penalty_nonneg results cm p :
  color_penalty results cm = Ok p -> 0 <= p.
Proof.
  unfold color_penalty. intros H.
  destruct (available cm "min_colors_exact_met").
  - destruct (flag_failed cm "min_colors_exact_met").
    + eapply missing_color_penalty_nonneg. exact H.
    + injection H as <-. lra.
  - destruct (flag_failed cm "min_colors_met").
    + eapply missing_color_penalty_nonneg. exact H.
    + injection H as <-. lra.
Qed.

Lemma coverage_penalty_nonneg results cm p :
  coverage_penalty results cm = Ok p -> 0 <= p.
Proof.
  unfold coverage_penalty. cbv zeta. intros H.
  destruct (available cm "min_coverage_accurate_met").
  - destruct (flag_failed cm "min_coverage_accurate_met");
      [ | injection H as <-; lra ].
    destruct (Qltb 0 _) eqn:Hreq; [ | injection H as <-; lra ].
    apply Qltb_lt in Hreq. inv_bind H. injection H as <-.
    apply Qmult_le_0_compat; [ | lra ].
    apply Qle_shift_div_l; [ exact Hreq | ].
    rewrite Qmult_0_l. apply Qmax_0_nonneg.
  - destruct (flag_failed cm "min_coverage_met"); injection H as <-; lra.
Qed.

(** X23: criteria can only cost points.  Whatever the criteria flags are,
    the score is at most the score the same numbers of errors, warnings
    and actions give without criteria. *)
Theorem criteria_only_cost_points :
  forall results s,
    _calculate_score results = Ok s ->
    s <= clamp_score
           (with_bonus (total_actions results)
              (1 - inject_Z (Z.of_nat (length (errors results))) * 0.08
                 - inject_Z (Z.of_nat (length (warnings results))) * 0.02)).
Proof.
  intros results s H. unfold _calculate_score in H. cbv zeta in H.
  set (cm := match criteria_met results with Some d => d | None => [] end) in H.
  inv_bind H. injection H as <-.
  unfold score_after_coverage in E. inv_bind E. inv_bind E. injection E as <-.
  unfold score_after_segments in E0. inv_bind E0. injection E0 as <-.
  unfold score_after_colors in E. inv_bind E. injection E as <-.
  apply coverage_penalty_nonneg in E1. apply color_penalty_nonneg in E0.
  pose proof (tool_penalties_nonneg cm) as Ht.
  assert (Hs : 0 <= segment_penalty cm).
  { unfold segment_penalty. destruct (flag_failed cm "min_segments_met"); lra. }
  apply clamp_score_mono, with_bonus_mono.
  unfold score_after_tools. lra.
Qed.

(** ** The rectangle tool *)

Lemma Qmin_sym a b : Qmin a b == Qmin b a.
Proof.
  unfold Qmin. destruct (Qleb a b) eqn:E; destruct (Qleb b a) eqn:E';
    try (apply Qleb_le in E); try (apply Qleb_gt in E);
    try (apply Qleb_le in E'); try (apply Qleb_gt in E'); lra.
Qed.

Lemma Qmax_sym a b : Qmax a b == Qmax b a.
Proof.
  unfold Qmax. destruct (Qleb a b) eqn:E; destruct (Qleb b a) eqn:E';
    try (apply Qleb_le in E); try (apply Qleb_gt in E);
    try (apply Qleb_le in E'); try (apply Qleb_gt in E'); lra.
Qed.

Lemma py_int_comp q q' : q == q' -> py_int q = py_int q'.
Proof.
  intros H. unfold py_int.
  assert (Hb : Qle_bool 0 q = Qle_bool 0 q').
  { destruct (Qle_bool 0 q') eqn:E.
    - apply Qle_bool_iff. apply Qle_bool_iff in E. lra.
    - destruct (Qle_bool 0 q) eqn:E'; [ | reflexivity ].
      apply Qle_bool_iff in E'.
      assert (E'' : Qle_bool 0 q' = true) by (apply Qle_bool_iff; lra).
      rewrite E'' in E. discriminate E. }
  rewrite Hb, (Qfloor_comp _ _ H), (Qceiling_comp _ _ H). reflexivity.
Qed.

Lemma rectangle_cells_sym self cx1 cy1 cx2 cy2 :
  rectangle_cells self cx1 cy1 cx2 cy2 = rectangle_cells self cx2 cy2 cx1 cy1.
Proof.
  unfold rectangle_cells, pdiv. cbv zeta.
  destruct (Qeq_bool (canvas_width self) 0); [ reflexivity | ]. cbn [bind].
  destruct (Qeq_bool (canvas_height self) 0); [ reflexivity | ]. cbn [bind].
  rewrite (py_int_comp (Qmin cx1 cx2 / canvas_width self * inject_Z grid_size)
             (Qmin cx2 cx1 / canvas_width self * inject_Z grid_size))
    by (rewrite (Qmin_sym cx1 cx2); reflexivity).
  rewrite (py_int_comp (Qmax cx1 cx2 / canvas_width self * inject_Z grid_size)
             (Qmax cx2 cx1 / canvas_width self * inject_Z grid_size))
    by (rewrite (Qmax_sym cx1 cx2); reflexivity).
  rewrite (py_int_comp (Qmin cy1 cy2 / canvas_height self * inject_Z grid_size)
             (Qmin cy2 cy1 / canvas_height self * inject_Z grid_size))
    by (rewrite (Qmin_sym cy1 cy2); reflexivity).
  rewrite (py_int_comp (Qmax cy1 cy2 / canvas_height self * inject_Z grid_size)
             (Qmax cy2 cy1 / canvas_height self * inject_Z grid_size))
    by (rewrite (Qmax_sym cy1 cy2); reflexivity).
  reflexivity.
Qed.

Lemma num_raises_TypeError v e : num v = Raise e -> e = TypeError.
Proof.
  destruct v; cbn; intros H; try discriminate H; injection H as <-;
    reflexivity.
Qed.

(** X24: a rectangle marks the same cells whichever corner the drag
    starts from, and fails in the same way when a corner is not numeric or
    the canvas has a zero extent. *)
Theorem rectangle_fill_symmetric :
  forall self g start_pos end_pos,
    _fill_shape_in_grid self g "rectangle" start_pos end_pos
    = _fill_shape_in_grid self g "rectangle" end_pos start_pos.
Proof.
  intros self g [x1 y1] [x2 y2]. unfold _fill_shape_in_grid. cbv zeta.
  change (String.eqb "rectangle" "rectangle") with true. cbv iota.
  destruct (num x1) as [nx1|e1] eqn:E1; destruct (num y1) as [ny1|e2] eqn:E2;
    destruct (num x2) as [nx2|e3] eqn:E3; destruct (num y2) as [ny2|e4] eqn:E4;
    cbn [bind];
    try (apply num_raises_TypeError in E1; subst e1);
    try (apply num_raises_TypeError in E2; subst e2);
    try (apply num_raises_TypeError in E3; subst e3);
    try (apply num_raises_TypeError in E4; subst e4);
    try reflexivity.
  rewrite (rectangle_cells_sym self (nx1 - canvas_offset_x self)
             (ny1 - canvas_offset_y self) (nx2 - canvas_offset_x self)
             (ny2 - canvas_offset_y self)).
  reflexivity.
Qed.

(** ** A log that never presses the button *)

Lemma count_action_cons_zero name a l :
  count_action name (a :: l) = 0%nat ->
  act_is a name = false /\ count_action name l = 0%nat.
Proof.
  rewrite count_action_cons. destruct (act_is a name); [ discriminate | ].
  intros H. split; [ reflexivity | exact H ].
Qed.

Lemma coverage_positions_idle self actions :
  count_action "mouseDown" actions = 0%nat ->
  coverage_positions self false actions = Ok [].
Proof.
  induction actions as [|a l IH]; intros H; [ reflexivity | ].
  apply count_action_cons_zero in H as [Ha Hl].
  cbn [coverage_positions]. cbv zeta. rewrite Ha.
  destruct (act_is a "mouseUp"); cbn [andb]; apply IH; exact Hl.
Qed.

Lemma coverage_loop_idle self actions :
  forall st s,
    count_action "mouseDown" actions = 0%nat ->
    is_drawing st = false ->
    coverage_loop self st actions = Ok s ->
    grid s = grid st.
Proof.
  induction actions as [|a l IH]; intros st s H Hd Hs.
  - cbn in Hs. injection Hs as <-. reflexivity.
  - apply count_action_cons_zero in H as [Ha Hl].
    cbn [coverage_loop] in Hs. inv_bind Hs. rename a0 into s1.
    unfold coverage_step in E. cbv zeta in E. rewrite Ha in E.
    inv_bind E. rename a0 into tool.
    assert (H1 : grid s1 = grid st /\ is_drawing s1 = false).
    { destruct (act_is a "mouseUp").
      - inv_bind E. inv_bind E1. injection E1 as <-.
        unfold release_fill in E2. rewrite Hd in E2. cbn [andb] in E2.
        destruct (mouse_down_pos st); injection E2 as <-;
          unfold stroke_mark in E; cbn [andb] in E; injection E as <-;
          split; reflexivity.
      - cbn [bind] in E. inv_bind E. injection E as <-.
        unfold stroke_mark in E1. rewrite Hd in E1. cbn [andb] in E1.
        injection E1 as <-. cbn. split; [ reflexivity | exact Hd ]. }
    destruct H1 as [Hg Hd1]. rewrite <- Hg. eapply IH; eassumption.
Qed.

(** X25: a log without a mouseDown draws nothing: the coarse coverage is
    0, there is no drawing segment and no centroid, and the accurate
    coverage, when it is returned, is 0. *)
Theorem no_press_no_drawing :
  forall self actions,
    count_action "mouseDown" actions = 0%nat ->
    _estimate_canvas_coverage self actions = Ok 0
    /\ _count_drawing_segments actions = 0%nat
    /\ (forall c, _calculate_drawing_centroid self actions <> Ok (Some c))
    /\ (forall c, _estimate_canvas_coverage_accurate self actions = Ok c ->
                  c = 0).
Proof.
  intros self actions H. split; [ | split; [ | split ] ].
  - unfold _estimate_canvas_coverage.
    rewrite (coverage_positions_idle _ _ H). reflexivity.
  - pose proof (count_drawing_segments_loop_bounds actions 0 false)
      as (_ & Hb & _).
    unfold _count_drawing_segments. rewrite H in Hb. lia.
  - intros c Hc. unfold _calculate_drawing_centroid in Hc. inv_bind Hc.
    apply drawing_points_length in E. rewrite H in E.
    destruct a; [ discriminate Hc | cbn in E; lia ].
  - intros c Hc. unfold _estimate_canvas_coverage_accurate in Hc.
    inv_bind Hc. injection Hc as <-.
    rewrite (coverage_loop_idle _ _ initial_state _ H eq_refl E).
    vm_compute. reflexivity.
Qed.

(** ** The range of the spatial accuracy *)

(** X26: with a square root that is never negative, the spatial accuracy,
    when it is a number, lies in [0, 1]. *)
Theorem spatial_accuracy_in_unit_interval :
  forall self actions constraints a,
    (forall q, 0 <= f_sqrt q) ->
    _evaluate_spatial_accuracy self actions constraints = Ok (Some a) ->
    0 <= a <= 1.
Proof.
  intros self actions constraints a Hsqrt H.
  unfold _evaluate_spatial_accuracy in H.
  destruct constraints as [region|]; [ | discriminate H ].
  inv_bind H. destruct a0 as [[cx cy]|]; [ | injection H as <-; lra ].
  destruct (region_center self region) as [[tx ty]|]; [ | discriminate H ].
  cbv zeta in H. inv_bind H. injection H as <-.
  unfold pdiv in E0.
  destruct (Qeq_bool (f_sqrt (canvas_width self ^ 2 + canvas_height self ^ 2)) 0)
    eqn:Hz; [ discriminate E0 | ].
  injection E0 as <-.
  set (d := f_sqrt ((cx - tx) ^ 2 + (cy - ty) ^ 2)).
  set (m := f_sqrt (canvas_width self ^ 2 + canvas_height self ^ 2)) in Hz |- *.
  assert (Hd : 0 <= d) by apply Hsqrt.
  assert (Hm : 0 < m).
  { assert (Hm : 0 <= m) by apply Hsqrt.
    destruct (Qlt_le_dec 0 m) as [Hl|Hl]; [ exact Hl | ].
    assert (Heq : m == 0) by (apply Qle_antisym; assumption).
    apply Qeq_bool_iff in Heq.
    rewrite Heq in Hz. discriminate Hz. }
  assert (Hr : 0 <= d / m).
  { apply Qle_shift_div_l; [ exact Hm | lra ]. }
  set (r := d / m) in Hr.
  change (0 <= Qmax 0 (1 - r) <= 1).
  unfold Qmax. destruct (Qleb 0 (1 - r)) eqn:E1.
  - apply Qleb_le in E1. lra.
  - lra.
Qed.

End Evaluator.

(** * The result and the order of sets *)

Section Processes.

Variable str_to_float : string -> option Q.
Variables f_sqrt f_cos f_sin : Q -> Q.
Variable f_pi : Q.

(** Two ways of listing sets: two processes. *)
Variables list_of_set list_of_set' : list string -> list string.
Variables list_of_set_difference list_of_set_difference'
  : list string -> list string -> list string.

Local Abbreviation check :=
  (_check_criteria f_sqrt f_cos f_sin f_pi list_of_set list_of_set_difference).
Local Abbreviation check' :=
  (_check_criteria f_sqrt f_cos f_sin f_pi list_of_set'
     list_of_set_difference').
Local Abbreviation run :=
  (evaluate str_to_float f_sqrt f_cos f_sin f_pi list_of_set
     list_of_set_difference).
Local Abbreviation run' :=
  (evaluate str_to_float f_sqrt f_cos f_sin f_pi list_of_set'
     list_of_set_difference').

(** ** Agreement of criteria flags *)

Lemma entry_agrees_refl kv : entry_agrees kv kv.
Proof. split; [ reflexivity | left; reflexivity ]. Qed.

Lemma flags_agree_refl d : flags_agree d d.
Proof.
  induction d as [|kv d IH]; constructor; [ apply entry_agrees_refl | exact IH ].
Qed.

Lemma flags_agree_set d1 d2 k v1 v2 :
  flags_agree d1 d2 ->
  entry_agrees (k, v1) (k, v2) ->
  flags_agree (dict_set d1 k v1) (dict_set d2 k v2).
Proof.
  intros Hd He. induction Hd as [|[k1 w1] [k2 w2] d1 d2 Hkv Hd IH].
  - cbn. constructor; [ exact He | constructor ].
  - destruct Hkv as [Hk Hv]. cbn in Hk. subst k2. cbn [dict_set].
    destruct (String.eqb k1 k).
    + constructor; [ exact He | exact Hd ].
    + constructor; [ split; [ reflexivity | exact Hv ] | exact IH ].
Qed.

Lemma flags_agree_get d1 d2 k :
  flags_agree d1 d2 ->
  str_in k set_valued_keys = false ->
  dict_get d1 k = dict_get d2 k.
Proof.
  intros Hd Hk. induction Hd as [|[k1 w1] [k2 w2] d1 d2 Hkv Hd IH].
  - reflexivity.
  - destruct Hkv as [Hk1 Hv]. cbn in Hk1, Hv. subst k2. cbn [dict_get].
    destruct (String.eqb k1 k) eqn:E; [ | exact IH ].
    apply String.eqb_eq in E. subst k1.
    destruct Hv as [->|[Hin _]]; [ reflexivity | ].
    exfalso. unfold str_in in Hk.
    assert (Ht : existsb (String.eqb k) set_valued_keys = true).
    { apply existsb_exists. exists k. split; [ exact Hin | ].
      apply String.eqb_refl. }
    rewrite Ht in Hk. discriminate Hk.
Qed.

Lemma flags_agree_has d1 d2 k :
  flags_agree d1 d2 -> dict_has d1 k = dict_has d2 k.
Proof.
  intros Hd. unfold dict_has.
  induction Hd as [|[k1 w1] [k2 w2] d1 d2 Hkv Hd IH].
  - reflexivity.
  - destruct Hkv as [Hk1 _]. cbn in Hk1. subst k2. cbn [dict_get].
    destruct (String.eqb k1 k); [ reflexivity | exact IH ].
Qed.

Lemma tool_penalty_of_agrees cm1 cm2 k v1 v2 :
  flags_agree cm1 cm2 ->
  entry_agrees (k, v1) (k, v2) ->
  tool_penalty_of cm1 k v1 = tool_penalty_of cm2 k v2.
Proof.
  intros Hcm [_ Hv]. cbn in Hv. unfold tool_penalty_of.
  destruct Hv as [->|(Hin & _)].
  - rewrite (flags_agree_has _ _ _ Hcm). reflexivity.
  - cbn in Hin. destruct Hin as [<-|[<-|[]]]; reflexivity.
Qed.

Lemma tool_penalties_agree cm1 cm2 :
  flags_agree cm1 cm2 -> tool_penalties cm1 = tool_penalties cm2.
Proof.
  intros Hcm. unfold tool_penalties.
  assert (H : forall l1 l2 acc,
            flags_agree l1 l2 ->
            fold_left
              (fun acc kv => acc + tool_penalty_of cm1 (fst kv) (snd kv)) l1 acc
            = fold_left
                (fun acc kv => acc + tool_penalty_of cm2 (fst kv) (snd kv))
                l2 acc).
  { intros l1 l2 acc Hl. revert acc.
    induction Hl as [|[k1 w1] [k2 w2] l1 l2 Hkv Hl IH]; intros acc.
    - reflexivity.
    - cbn [fold_left fst snd].
      assert (Hk : k1 = k2) by (destruct Hkv as [Hk _]; exact Hk).
      subst k2. rewrite (tool_penalty_of_agrees cm1 cm2 k1 w1 w2 Hcm Hkv).
      apply IH. }
  apply H. exact Hcm.
Qed.

Lemma failed_tools_agree d1 d2 :
  flags_agree d1 d2 -> failed_tools d1 = failed_tools d2.
Proof.
  intros Hd. unfold failed_tools.
  induction Hd as [|[k1 w1] [k2 w2] d1 d2 Hkv Hd IH]; [ reflexivity | ].
  destruct Hkv as [Hk Hv]. cbn in Hk, Hv. subst k2.
  cbn [flat_map fst snd]. rewrite IH. f_equal.
  destruct Hv as [->|(Hin & _)]; [ reflexivity | ].
  cbn in Hin. destruct Hin as [<-|[<-|[]]]; reflexivity.
Qed.

Lemma score_after_coverage_agrees r1 r2 d1 d2 :
  flags_agree d1 d2 ->
  metrics r1 = metrics r2 ->
  colors_required r1 = colors_required r2 ->
  results_min_coverage r1 = results_min_coverage r2 ->
  score_after_coverage r1 d1 = score_after_coverage r2 d2.
Proof.
  intros Hd Hm Hc Hmin.
  unfold score_after_coverage, score_after_segments, score_after_colors,
    score_after_tools, color_penalty, missing_color_penalty, segment_penalty,
    coverage_penalty, available, flag_failed, get_or.
  rewrite (tool_penalties_agree _ _ Hd), Hm, Hc, Hmin.
  rewrite (flags_agree_get _ _ "min_colors_exact_met" Hd eq_refl).
  rewrite (flags_agree_get _ _ "min_colors_met" Hd eq_refl).
  rewrite (flags_agree_get _ _ "colors_matched" Hd eq_refl).
  rewrite (flags_agree_get _ _ "colors_changed" Hd eq_refl).
  rewrite (flags_agree_get _ _ "min_segments_met" Hd eq_refl).
  rewrite (flags_agree_get _ _ "min_coverage_accurate_met" Hd eq_refl).
  rewrite (flags_agree_get _ _ "min_coverage_met" Hd eq_refl).
  reflexivity.
Qed.

Lemma _calculate_score_agrees r1 r2 d1 d2 :
  criteria_met r1 = Some d1 ->
  criteria_met r2 = Some d2 ->
  flags_agree d1 d2 ->
  total_actions r1 = total_actions r2 ->
  errors r1 = errors r2 ->
  warnings r1 = warnings r2 ->
  metrics r1 = metrics r2 ->
  colors_required r1 = colors_required r2 ->
  results_min_coverage r1 = results_min_coverage r2 ->
  _calculate_score r1 = _calculate_score r2.
Proof.
  intros H1 H2 Hd Ht He Hw Hm Hc Hmin. unfold _calculate_score. cbv zeta.
  rewrite H1, H2, (score_after_coverage_agrees r1 r2 d1 d2 Hd Hm Hc Hmin).
  rewrite Ht, He, Hw. reflexivity.
Qed.

Lemma _classify_errors_agrees r1 r2 d1 d2 c :
  criteria_met r1 = Some d1 ->
  criteria_met r2 = Some d2 ->
  flags_agree d1 d2 ->
  errors r1 = errors r2 ->
  metrics r1 = metrics r2 ->
  _classify_errors r1 c = _classify_errors r2 c.
Proof.
  intros H1 H2 Hd He Hm. unfold _classify_errors. cbv zeta.
  rewrite H1, H2, (failed_tools_agree _ _ Hd), He, Hm. reflexivity.
Qed.

Lemma results_agree_refl r : results_agree r r.
Proof.
  unfold results_agree. repeat (split; [ reflexivity | ]).
  destruct (criteria_met r); [ apply flags_agree_refl | exact I ].
Qed.

(** ** When the two processes list sets alike *)

Section SameOrder.

Hypothesis same_order : forall l, list_of_set l = list_of_set' l.
Hypothesis same_order_difference :
  forall a b, list_of_set_difference a b = list_of_set_difference' a b.

Lemma _check_criteria_same_order self actions c :
  check self actions c = check' self actions c.
Proof.
  unfold _check_criteria. cbv zeta.
  destruct (match required_tools c with
            | Some tools => check_tools self actions _ tools
            | None => _
            end) as [d0|e]; cbn [bind]; [ | reflexivity ].
  destruct (required_colors c) as [cols|]; [ | reflexivity ].
  destruct (_count_color_changes actions) as [clicks|e]; cbn [bind];
    [ | reflexivity ].
  destruct (_detect_exact_colors_used self actions) as [exact|e]; cbn [bind];
    [ | reflexivity ].
  rewrite same_order, same_order_difference. reflexivity.
Qed.

Lemma evaluate_same_order self actions ground_truth criteria :
  run self actions ground_truth criteria
  = run' self actions ground_truth criteria.
Proof.
  unfold evaluate. destruct actions; try reflexivity. cbv zeta.
  destruct (given criteria) as [c|]; [ | reflexivity ].
  rewrite (_check_criteria_same_order self _ c). reflexivity.
Qed.

End SameOrder.

(** ** When they list them in different orders *)

Section OtherOrder.

Hypothesis list_of_set_lists : forall l, Permutation (list_of_set l) (remove_dups l).
Hypothesis list_of_set_lists' :
  forall l, Permutation (list_of_set' l) (remove_dups l).
Hypothesis list_of_set_difference_lists :
  forall a b,
    Permutation (list_of_set_difference a b)
                (filter (fun c => str_in c b = false) (remove_dups a)).
Hypothesis list_of_set_difference_lists' :
  forall a b,
    Permutation (list_of_set_difference' a b)
                (filter (fun c => str_in c b = false) (remove_dups a)).

Lemma entry_agrees_listed k l1 l2 :
  In k set_valued_keys -> Permutation l1 l2 ->
  entry_agrees (k, VStrs l1) (k, VStrs l2).
Proof.
  intros Hk Hp. split; [ reflexivity | ]. right. split; [ exact Hk | ].
  exists l1, l2. split; [ reflexivity | ]. split; [ reflexivity | exact Hp ].
Qed.

Lemma _check_criteria_agrees self actions c :
  match check self actions c, check' self actions c with
  | Ok d1, Ok d2 => flags_agree d1 d2
  | Raise e1, Raise e2 => e1 = e2
  | _, _ => False
  end.
Proof.
  unfold _check_criteria. cbv zeta.
  destruct (match required_tools c with
            | Some tools => check_tools self actions _ tools
            | None => _
            end) as [d0|e]; cbn [bind]; [ | reflexivity ].
  assert (Hcov : forall d1 d2 : adict,
            flags_agree d1 d2 ->
            match
              match min_coverage c with
              | Some required =>
                  let* coverage := _estimate_canvas_coverage self actions in
                  let* accurate_coverage :=
                    _estimate_canvas_coverage_accurate f_sqrt f_cos f_sin f_pi
                      self actions in
                  Ok (dict_set
                        (dict_set
                           (dict_set
                              (dict_set d1 "canvas_coverage" (VFloat coverage))
                              "min_coverage_met"
                              (VBool (Qleb required coverage)))
                           "canvas_coverage_accurate"
                           (VFloat accurate_coverage))
                        "min_coverage_accurate_met"
                        (VBool (Qleb required accurate_coverage)))
              | None => Ok d1
              end,
              match min_coverage c with
              | Some required =>
                  let* coverage := _estimate_canvas_coverage self actions in
                  let* accurate_coverage :=
                    _estimate_canvas_coverage_accurate f_sqrt f_cos f_sin f_pi
                      self actions in
                  Ok (dict_set
                        (dict_set
                           (dict_set
                              (dict_set d2 "canvas_coverage" (VFloat coverage))
                              "min_coverage_met"
                              (VBool (Qleb required coverage)))
                           "canvas_coverage_accurate"
                           (VFloat accurate_coverage))
                        "min_coverage_accurate_met"
                        (VBool (Qleb required accurate_coverage)))
              | None => Ok d2
              end
            with
            | Ok e1, Ok e2 => flags_agree e1 e2
            | Raise e1, Raise e2 => e1 = e2
            | _, _ => False
            end).
  { intros d1 d2 Hd. destruct (min_coverage c) as [required|]; [ | exact Hd ].
    destruct (_estimate_canvas_coverage self actions) as [coverage|e];
      cbn [bind]; [ | reflexivity ].
    destruct (_estimate_canvas_coverage_accurate f_sqrt f_cos f_sin f_pi self
                actions) as [accurate|e]; cbn [bind]; [ | reflexivity ].
    repeat (apply flags_agree_set; [ | apply entry_agrees_refl ]).
    exact Hd. }
  destruct (required_colors c) as [cols|]; cbn [bind].
  - destruct (_count_color_changes actions) as [clicks|e]; cbn [bind];
      [ | reflexivity ].
    destruct (_detect_exact_colors_used self actions) as [exact|e]; cbn [bind];
      [ | reflexivity ].
    apply Hcov.
    apply flags_agree_set; [ | apply entry_agrees_refl ].
    apply flags_agree_set.
    + apply flags_agree_set; [ | apply entry_agrees_refl ].
      apply flags_agree_set.
      * repeat (apply flags_agree_set; [ | apply entry_agrees_refl ]).
        apply flags_agree_refl.
      * apply entry_agrees_listed; [ left; reflexivity | ].
        rewrite list_of_set_lists, list_of_set_lists'. reflexivity.
    + apply entry_agrees_listed; [ right; left; reflexivity | ].
      rewrite list_of_set_difference_lists, list_of_set_difference_lists'.
      reflexivity.
  - apply Hcov. apply flags_agree_refl.
Qed.

Lemma evaluate_agrees self actions ground_truth criteria :
  match run self actions ground_truth criteria,
        run' self actions ground_truth criteria with
  | Ok r1, Ok r2 => results_agree r1 r2
  | Raise e1, Raise e2 => e1 = e2
  | _, _ => False
  end.
Proof.
  unfold evaluate. destruct actions; try apply results_agree_refl.
  cbv zeta.
  destruct (_count_actions l) as [counts|e]; cbn [bind]; [ | reflexivity ].
  destruct (_count_tool_changes self (dicts_of l)) as [tc|e]; cbn [bind];
    [ | reflexivity ].
  destruct (_count_color_changes (dicts_of l)) as [cc|e]; cbn [bind];
    [ | reflexivity ].
  destruct (_estimate_canvas_coverage self (dicts_of l)) as [cov|e];
    cbn [bind]; [ | reflexivity ].
  destruct (_estimate_canvas_coverage_accurate f_sqrt f_cos f_sin f_pi self
              (dicts_of l)) as [acc|e]; cbn [bind]; [ | reflexivity ].
  destruct (_detect_exact_colors_used self (dicts_of l)) as [exact|e];
    cbn [bind]; [ | reflexivity ].
  destruct (_evaluate_spatial_accuracy f_sqrt self (dicts_of l)
              (spatial_constraints_of criteria)) as [sa|e]; cbn [bind];
    [ | reflexivity ].
  destruct (given criteria) as [c|]; cbn [bind].
  - pose proof (_check_criteria_agrees self (dicts_of l) c) as Hc.
    destruct (check self (dicts_of l) c) as [d1|e1];
      destruct (check' self (dicts_of l) c) as [d2|e2];
      try contradiction; cbn [bind]; [ | exact Hc ].
    match goal with
    | |- match bind (_calculate_score ?R1) _ with _ => _ end =>
        match goal with
        | |- context [bind (_calculate_score ?R2) ?k2] =>
            lazymatch R2 with
            | R1 => fail
            | _ =>
                assert (Hs : _calculate_score R1 = _calculate_score R2)
                  by (apply (_calculate_score_agrees R1 R2 d1 d2);
                      first [ reflexivity | exact Hc ])
            end
        end
    end.
    rewrite Hs.
    match goal with
    | |- context [bind (_calculate_score ?R2) _] =>
        destruct (_calculate_score R2) as [s|e]; cbn [bind]; [ | reflexivity ]
    end.
    match goal with
    | |- match bind (_classify_errors ?R1 c) _ with _ => _ end =>
        match goal with
        | |- context [bind (_classify_errors ?R2 c) ?k2] =>
            lazymatch R2 with
            | R1 => fail
            | _ =>
                assert (Hk : _classify_errors R1 c = _classify_errors R2 c)
                  by (apply (_classify_errors_agrees R1 R2 d1 d2 c);
                      first [ reflexivity | exact Hc ])
            end
        end
    end.
    rewrite Hk.
    match goal with
    | |- context [bind (_classify_errors ?R2 c) _] =>
        destruct (_classify_errors R2 c) as [cls|e]; cbn [bind];
          [ | reflexivity ]
    end.
    unfold results_agree. cbn. repeat (split; [ reflexivity | ]). exact Hc.
  - match goal with
    | |- context [bind (_calculate_score ?R) _] =>
        destruct (_calculate_score R) as [s|e]; cbn [bind];
          [ apply results_agree_refl | reflexivity ]
    end.
Qed.

End OtherOrder.

End Processes.

(** C5 (as amended): the result of [evaluate] depends on the process only
    through the order in which the two sets of colours are listed.  Two
    calls with the same actions and the same criteria on the same layout,
    in processes that list sets in orders of their own, either both raise
    the same exception or return results that agree in every field, score
    and error classification included, up to the order of the
    colors_exact_used and colors_missing lists of criteria_met; and when
    both calls list sets alike, as two calls in one process do, they return
    the same result. *)
Theorem evaluate_twice_same_result :
  forall str_to_float f_sqrt f_cos f_sin f_pi
         (list_of_set list_of_set' : list string -> list string)
         (list_of_set_difference list_of_set_difference'
            : list string -> list string -> list string)
         self actions ground_truth criteria,
    (forall l, Permutation (list_of_set l) (remove_dups l)) ->
    (forall l, Permutation (list_of_set' l) (remove_dups l)) ->
    (forall a b,
        Permutation (list_of_set_difference a b)
                    (filter (fun c => str_in c b = false) (remove_dups a))) ->
    (forall a b,
        Permutation (list_of_set_difference' a b)
                    (filter (fun c => str_in c b = false) (remove_dups a))) ->
    let first_call :=
      evaluate str_to_float f_sqrt f_cos f_sin f_pi list_of_set
        list_of_set_difference self actions ground_truth criteria in
    let second_call :=
      evaluate str_to_float f_sqrt f_cos f_sin f_pi list_of_set'
        list_of_set_difference' self actions ground_truth criteria in
    (forall r1, first_call = Ok r1 ->
       exists r2, second_call = Ok r2 /\ results_agree r1 r2)
    /\ (forall e, first_call = Raise e -> second_call = Raise e)
    /\ ((forall l, list_of_set l = list_of_set' l) ->
        (forall a b,
            list_of_set_difference a b = list_of_set_difference' a b) ->
        first_call = second_call).
Proof.
  intros str_to_float f_sqrt f_cos f_sin f_pi list_of_set list_of_set'
    list_of_set_difference list_of_set_difference' self actions ground_truth
    criteria H1 H2 H3 H4 first_call second_call.
  pose proof (evaluate_agrees str_to_float f_sqrt f_cos f_sin f_pi
                list_of_set list_of_set' list_of_set_difference
                list_of_set_difference' H1 H2 H3 H4 self actions ground_truth
                criteria) as H.
  fold first_call second_call in H.
  split; [ | split ].
  - intros r1 Hr. rewrite Hr in H.
    destruct second_call as [r2|e2]; [ | contradiction ].
    exists r2. split; [ reflexivity | exact H ].
  - intros e Hr. rewrite Hr in H.
    destruct second_call as [r2|e2]; [ contradiction | ].
    rewrite H. reflexivity.
  - intros Hs Hd. apply evaluate_same_order; assumption.
Qed.

(** * Examples on the sample layout *)

Local Abbreviation ev :=
  (evaluate sample_str_to_float sample_sqrt sample_cos sample_sin sample_pi
     insertion_order insertion_order_difference).
Local Abbreviation accurate :=
  (_estimate_canvas_coverage_accurate sample_sqrt sample_cos sample_sin sample_pi).
Local Abbreviation prefix_state :=
  (coverage_prefix sample_sqrt sample_cos sample_sin sample_pi).
Local Abbreviation loop_state :=
  (coverage_loop sample_sqrt sample_cos sample_sin sample_pi).

(** The [__main__] log scores 0.97 on the sample layout, inside [0, 1]. *)
Lemma score_in_unit_interval_witness :
  exists r,
    ev sample_layout (VList (map VDict test_actions)) VNone (Some test_criteria)
    = Ok r
    /\ exists s, score r = Some s /\ 0 <= s <= 1 /\ (exists k : Z, s == k # 1000).
Proof.
  assert (H : { r | ev sample_layout (VList (map VDict test_actions)) VNone
                      (Some test_criteria) = Ok r }).
  { eexists. vm_compute. reflexivity. }
  destruct H as [r Hr]. exists r. split; [ exact Hr | ].
  destruct (score_in_unit_interval _ _ _ _ _ _ _ _ _ _ _ _ Hr)
    as (s & Hs & Hrange & Hk & _).
  exists s. split; [ exact Hs | ]. split; [ exact Hrange | exact Hk ].
Defined.

(** C5, the claim as stated fails: the same log, the same criteria and the
    same layout give two different results in two processes that list the
    set of used colours in opposite orders; colors_exact_used is
    ["#000000", "#FF0000"] in one and ["#FF0000", "#000000"] in the
    other. *)
Lemma results_differ_between_processes :
  exists r1 r2 d1 d2,
    evaluate sample_str_to_float sample_sqrt sample_cos sample_sin sample_pi
      insertion_order insertion_order_difference sample_layout
      (VList (map VDict two_colour_actions)) VNone (Some two_colour_criteria)
    = Ok r1
    /\ evaluate sample_str_to_float sample_sqrt sample_cos sample_sin
         sample_pi opposite_order opposite_order_difference sample_layout
         (VList (map VDict two_colour_actions)) VNone
         (Some two_colour_criteria)
       = Ok r2
    /\ criteria_met r1 = Some d1
    /\ criteria_met r2 = Some d2
    /\ dict_get d1 "colors_exact_used" = Some (VStrs ["#000000"; "#FF0000"])
    /\ dict_get d2 "colors_exact_used" = Some (VStrs ["#FF0000"; "#000000"])
    /\ r1 <> r2.
Proof.
  do 4 eexists.
  split; [ vm_compute; reflexivity | ].
  split; [ vm_compute; reflexivity | ].
  split; [ reflexivity | ]. split; [ reflexivity | ].
  split; [ reflexivity | ]. split; [ reflexivity | ].
  intros H. apply (f_equal criteria_met) in H. discriminate H.
Qed.

(** The two processes of the example above: the two results agree up to
    the order of the two lists, and have the same score. *)
Lemma evaluate_twice_same_result_witness :
  exists r1 r2,
    evaluate sample_str_to_float sample_sqrt sample_cos sample_sin sample_pi
      insertion_order insertion_order_difference sample_layout
      (VList (map VDict two_colour_actions)) VNone (Some two_colour_criteria)
    = Ok r1
    /\ evaluate sample_str_to_float sample_sqrt sample_cos sample_sin
         sample_pi opposite_order opposite_order_difference sample_layout
         (VList (map VDict two_colour_actions)) VNone
         (Some two_colour_criteria)
       = Ok r2
    /\ results_agree r1 r2
    /\ score r1 = score r2.
Proof.
  assert (Hr : { r | evaluate sample_str_to_float sample_sqrt sample_cos
                       sample_sin sample_pi insertion_order
                       insertion_order_difference sample_layout
                       (VList (map VDict two_colour_actions)) VNone
                       (Some two_colour_criteria) = Ok r }).
  { eexists. vm_compute. reflexivity. }
  destruct Hr as [r1 Hr1].
  assert (H1 : forall l, Permutation (insertion_order l) (remove_dups l)).
  { intros l. reflexivity. }
  assert (H2 : forall l, Permutation (opposite_order l) (remove_dups l)).
  { intros l. unfold opposite_order. symmetry. apply Permutation_rev. }
  assert (H3 : forall a b,
             Permutation (insertion_order_difference a b)
               (filter (fun c => str_in c b = false) (remove_dups a))).
  { intros a b. reflexivity. }
  assert (H4 : forall a b,
             Permutation (opposite_order_difference a b)
               (filter (fun c => str_in c b = false) (remove_dups a))).
  { intros a b. unfold opposite_order_difference. symmetry.
    apply Permutation_rev. }
  destruct (evaluate_twice_same_result sample_str_to_float sample_sqrt
              sample_cos sample_sin sample_pi insertion_order opposite_order
              insertion_order_difference opposite_order_difference
              sample_layout (VList (map VDict two_colour_actions)) VNone
              (Some two_colour_criteria) H1 H2 H3 H4) as (Hok & _ & _).
  destruct (Hok r1 Hr1) as (r2 & Hr2 & Hagree).
  exists r1, r2. split; [ exact Hr1 | ]. split; [ exact Hr2 | ].
  split; [ exact Hagree | ].
  destruct Hagree as (_ & _ & _ & _ & _ & _ & _ & Hs & _). exact Hs.
Defined.

(** A string in place of the action list. *)
Lemma non_list_input_result_witness :
  ev sample_layout (VStr "draw a circle") VNone (Some test_criteria)
  = Ok not_a_list_result.
Proof.
  apply (non_list_input_result sample_str_to_float sample_sqrt sample_cos
           sample_sin sample_pi insertion_order insertion_order_difference
           sample_layout (VStr "draw a circle") VNone
           (Some test_criteria)).
  reflexivity.
Defined.

(** C2, the claim as stated fails: for a non-list input the metrics dict
    is not empty, it has six entries. *)
Lemma non_list_metrics_not_empty :
  exists r,
    ev sample_layout (VStr "draw a circle") VNone None = Ok r
    /\ metrics r <> []
    /\ length (metrics r) = 6%nat.
Proof.
  exists not_a_list_result.
  split; [ reflexivity | ]. split; [ discriminate | reflexivity ].
Qed.

(** C6, the claim as stated fails: in the log [moveTo(500,400),
    mouseDown, mouseUp, mouseDown, moveTo(345,25), click, mouseUp] the first
    segment is an open pen segment after the mouseDown; inserting the
    in-canvas point (350,100) there lowers canvas_coverage_accurate from
    0.1 (40 cells of 400) to 0.0025 (1 cell), because the later rectangle starts from the last-known
    position. *)
Lemma inserted_point_can_lower_coverage :
  exists st,
    prefix_state sample_layout initial_state
      stroke_then_rectangle_pre stroke_then_rectangle_post = Ok st
    /\ is_drawing st = true
    /\ current_tool st = "pen"
    /\ in_canvas sample_layout (350 - 90) (100 - 70) = true
    /\ accurate sample_layout
         (stroke_then_rectangle_pre ++ stroke_then_rectangle_post)
       = Ok (1 # 10)
    /\ accurate sample_layout
         (stroke_then_rectangle_pre ++ moveTo 350 100 :: stroke_then_rectangle_post)
       = Ok (1 # 400)
    /\ 1 # 400 < 1 # 10.
Proof.
  eexists. split; [ vm_compute; reflexivity | ].
  repeat split; vm_compute; reflexivity.
Qed.

(** A second way the unrestricted statement fails: a point inserted
    between a moveTo onto the pen button and its click keeps the pen from
    being selected; the two stroke points are no longer marked and the
    rectangle drawn at mouseUp covers a single cell. *)
Lemma inserted_point_before_click_lowers_coverage :
  exists st,
    prefix_state sample_layout initial_state
      pen_reselected_pre pen_reselected_post = Ok st
    /\ is_drawing st = true
    /\ current_tool st = "pen"
    /\ next_is_click pen_reselected_post = true
    /\ in_canvas sample_layout (600 - 90) (500 - 70) = true
    /\ accurate sample_layout (pen_reselected_pre ++ pen_reselected_post)
       = Ok (1 # 200)
    /\ accurate sample_layout
         (pen_reselected_pre ++ moveTo 600 500 :: pen_reselected_post)
       = Ok (1 # 400)
    /\ 1 # 400 < 1 # 200.
Proof.
  eexists. split; [ vm_compute; reflexivity | ].
  repeat split; vm_compute; reflexivity.
Qed.

(** Inserting the point (665,445) into the pen stroke of the [__main__]
    log, before its last point. *)
Lemma inserted_stroke_point_monotone_witness :
  exists c c',
    accurate sample_layout (pen_stroke_pre ++ pen_stroke_post) = Ok c
    /\ accurate sample_layout
         (pen_stroke_pre ++ moveTo 665 445 :: pen_stroke_post) = Ok c'
    /\ c <= c'.
Proof.
  assert (Hst : { st | prefix_state sample_layout initial_state
                         pen_stroke_pre pen_stroke_post = Ok st
                       /\ is_drawing st = true
                       /\ str_in (current_tool st) stroke_tools = true }).
  { eexists. split; [ vm_compute; reflexivity | ]. split; reflexivity. }
  destruct Hst as (st & Hpre & Hd & Ht).
  assert (Hc : { c | accurate sample_layout (pen_stroke_pre ++ pen_stroke_post)
                     = Ok c }).
  { eexists. vm_compute. reflexivity. }
  destruct Hc as [c Hc].
  assert (Hw : ~ canvas_width sample_layout == 0)
    by (intros H; vm_compute in H; discriminate H).
  assert (Hh : ~ canvas_height sample_layout == 0)
    by (intros H; vm_compute in H; discriminate H).
  destruct (inserted_stroke_point_monotone sample_sqrt sample_cos sample_sin
              sample_pi sample_layout pen_stroke_pre pen_stroke_post 665 445
              st c Hw Hh Hpre Hd Ht eq_refl eq_refl eq_refl Hc)
    as (c' & Hc' & Hle).
  exists c, c'. split; [ exact Hc | ]. split; [ exact Hc' | exact Hle ].
Defined.


(** A dot drawn at the centre of the canvas, asked for "in the center":
    the one point visited is the press position, which the centroid pass
    collects, and the accuracy is 1. *)
Lemma spatial_accuracy_metric_witness :
  exists r,
    ev sample_layout
       (VList [VDict (moveTo 590 420); VDict (bare "mouseDown");
               VDict (bare "mouseUp")])
       VNone (Some (prompt_only "a dot in the center")) = Ok r
    /\ visited_points sample_layout false None
         [moveTo 590 420; bare "mouseDown"; bare "mouseUp"] = Ok [(590, 420)]
    /\ exists a, dict_get (metrics r) "spatial_accuracy" = Some (VFloat a)
                 /\ a == 1.
Proof.
  assert (Hr : { r | ev sample_layout
                       (VList [VDict (moveTo 590 420); VDict (bare "mouseDown");
                               VDict (bare "mouseUp")])
                       VNone (Some (prompt_only "a dot in the center")) = Ok r }).
  { eexists. vm_compute. reflexivity. }
  destruct Hr as [r Hr]. exists r. split; [ exact Hr | ].
  assert (Hv : visited_points sample_layout false None
                 [moveTo 590 420; bare "mouseDown"; bare "mouseUp"]
               = Ok [(590, 420)]).
  { vm_compute. reflexivity. }
  assert (Hd : drawing_points sample_layout false None
                 [moveTo 590 420; bare "mouseDown"; bare "mouseUp"]
               = Ok [(590, 420)]).
  { vm_compute. reflexivity. }
  split; [ exact Hv | ].
  pose proof (spatial_accuracy_metric _ _ _ _ _ _ _ _ _ _ _ _ Hr) as H.
  change (spatial_constraints_of (Some (prompt_only "a dot in the center")))
    with (Some "center") in H.
  cbv zeta in H. destruct H as [_ H].
  destruct (H _ Hv Hd) as (tx & ty & Hreg & Hm).
  vm_compute in Hreg. injection Hreg as <- <-.
  eexists. split; [ exact Hm | ]. vm_compute. reflexivity.
Defined.

(** C8, the claim as stated fails: with a region named in the prompt and
    no drawing at all (an empty log: no point is visited, the centroid is
    undefined), spatial_accuracy is 0.0, not null. *)
Lemma no_drawing_accuracy_is_zero :
  exists r,
    ev sample_layout (VList []) VNone
       (Some (prompt_only "a circle at the top")) = Ok r
    /\ visited_points sample_layout false None [] = Ok []
    /\ _calculate_drawing_centroid sample_layout [] = Ok None
    /\ dict_get (metrics r) "spatial_accuracy" = Some (VFloat 0)
    /\ dict_get (metrics r) "spatial_accuracy" <> Some VNone.
Proof.
  eexists. split; [ vm_compute; reflexivity | ].
  split; [ reflexivity | ].
  split; [ reflexivity | ]. split; [ reflexivity | discriminate ].
Qed.

(** The corner (1500, 900) is inside the screen; x = 1500.0001 is not. *)
Lemma screen_bounds_inclusive_witness :
  (exists r,
      ev sample_layout (VList [VDict (moveTo 1500 900)]) VNone None = Ok r
      /\ forall d, In d (errors r) -> d_index d = Some 0%Z ->
                   d_type d <> COORDINATE_ERROR)
  /\ (exists r d,
         ev sample_layout (VList [VDict (moveTo 1500.0001 900)]) VNone None = Ok r
         /\ In d (errors r)
         /\ d_type d = COORDINATE_ERROR
         /\ d_index d = Some 0%Z).
Proof.
  split.
  - assert (Hr : { r | ev sample_layout (VList [VDict (moveTo 1500 900)])
                         VNone None = Ok r }).
    { eexists. vm_compute. reflexivity. }
    destruct Hr as [r Hr]. exists r. split; [ exact Hr | ].
    destruct (screen_bounds_inclusive sample_str_to_float sample_sqrt
                sample_cos sample_sin sample_pi insertion_order
                insertion_order_difference sample_layout _ _ _ r 0%nat
                (moveTo 1500 900) 1500 900 Hr eq_refl eq_refl eq_refl eq_refl)
      as [Hin _].
    assert (Hx : 0 <= 1500 <= 1500) by (split; intros H; discriminate H).
    assert (Hy : 0 <= 900 <= 900) by (split; intros H; discriminate H).
    intros d Hd Hi. destruct (Hin Hx Hy d Hd Hi) as [_ H].
    apply H. reflexivity.
  - assert (Hr : { r | ev sample_layout (VList [VDict (moveTo 1500.0001 900)])
                         VNone None = Ok r }).
    { eexists. vm_compute. reflexivity. }
    destruct Hr as [r Hr].
    destruct (screen_bounds_inclusive sample_str_to_float sample_sqrt
                sample_cos sample_sin sample_pi insertion_order
                insertion_order_difference sample_layout _ _ _ r 0%nat
                (moveTo 1500.0001 900) 1500.0001 900 Hr
                eq_refl eq_refl eq_refl eq_refl)
      as [_ Hout].
    assert (Hx : 1500.0001 < 0 \/ 1500 < 1500.0001 \/ 900 < 0 \/ 900 < 900)
      by (right; left; reflexivity).
    destruct (Hout Hx) as (d & Hd & Ht & Hi & _).
    exists r, d. split; [ exact Hr | ]. split; [ exact Hd | ].
    split; [ exact Ht | exact Hi ].
Defined.

(** A colour is picked, then a stroke is drawn, without ever touching a
    tool button. *)
Lemma default_tool_is_pen_witness :
  exists st gx gy,
    loop_state sample_layout initial_state
      ([moveTo 453 25; bare "click"; moveTo 590 420; bare "mouseDown"]
       ++ moveTo 640 420 :: [bare "mouseUp"])
    = Ok st
    /\ (gy, gx) ∈ grid st
    /\ 0 < coverage_of (grid st).
Proof.
  assert (Hst : { st | loop_state sample_layout initial_state
                         ([moveTo 453 25; bare "click"; moveTo 590 420;
                           bare "mouseDown"]
                          ++ moveTo 640 420 :: [bare "mouseUp"]) = Ok st }).
  { eexists. vm_compute. reflexivity. }
  destruct Hst as [st Hst].
  assert (Hk : keeps_tool sample_layout (current_tool initial_state)
                 ([moveTo 453 25; bare "click"; moveTo 590 420;
                   bare "mouseDown"] ++ [moveTo 640 420])
                 [bare "mouseUp"]).
  { repeat split; vm_compute; reflexivity. }
  destruct (default_tool_is_pen sample_sqrt sample_cos sample_sin sample_pi
              sample_layout
              [moveTo 453 25; bare "click"; moveTo 590 420; bare "mouseDown"]
              (moveTo 640 420) [bare "mouseUp"] st (640 - 90) (420 - 70)
              Hst Hk eq_refl eq_refl eq_refl eq_refl)
    as (_ & gx & gy & _ & _ & Hin & _ & Hpos).
  exists st, gx, gy. split; [ exact Hst | ]. split; [ exact Hin | exact Hpos ].
Defined.

(** * Examples for the further properties *)

(** The breakdown of the [__main__] log: 6 + 2 + 1 + 1 + 0 = 10. *)
Lemma action_counts_sum_to_length_witness :
  exists counts,
    _count_actions (map VDict test_actions) = Ok counts
    /\ counts_total counts = 10%nat.
Proof.
  assert (H : { counts | _count_actions (map VDict test_actions) = Ok counts }).
  { eexists. vm_compute. reflexivity. }
  destruct H as [counts H]. exists counts. split; [ exact H | ].
  destruct (action_counts_sum_to_length _ _ H) as [_ Ht]. exact Ht.
Defined.


(** The colours of the [__main__] log all come from the two swatches of
    the sample layout. *)
Lemma exact_colors_come_from_layout_witness :
  exists colors_used,
    _detect_exact_colors_used sample_layout test_actions = Ok colors_used
    /\ Forall (fun color => In color (map snd (color_positions sample_layout)))
              colors_used.
Proof.
  assert (H : { c | _detect_exact_colors_used sample_layout test_actions
                    = Ok c }).
  { eexists. vm_compute. reflexivity. }
  destruct H as [c H]. exists c. split; [ exact H | ].
  destruct (exact_colors_come_from_layout _ _ _ H) as [Hall _]. exact Hall.
Defined.

(** The bounding box of the [__main__] stroke covers a part of the
    canvas. *)
Lemma coarse_coverage_in_unit_interval_witness :
  exists c,
    _estimate_canvas_coverage sample_layout test_actions = Ok c
    /\ 0 <= c <= 1.
Proof.
  assert (H : { c | _estimate_canvas_coverage sample_layout test_actions
                    = Ok c }).
  { eexists. vm_compute. reflexivity. }
  destruct H as [c H]. exists c. split; [ exact H | ].
  destruct (coarse_coverage_in_unit_interval _ _ _ H) as [Hr _]. exact Hr.
Defined.

(** The grid of the [__main__] log. *)
Lemma accurate_coverage_counts_cells_witness :
  exists c st,
    accurate sample_layout test_actions = Ok c
    /\ loop_state sample_layout initial_state test_actions = Ok st
    /\ (size (grid st) <= 400)%nat
    /\ 0 <= c <= 1.
Proof.
  assert (H : { c | accurate sample_layout test_actions = Ok c }).
  { eexists. vm_compute. reflexivity. }
  destruct H as [c H].
  destruct (accurate_coverage_counts_cells _ _ _ _ _ _ _ H)
    as (st & Hst & _ & Hsize & _ & Hrange).
  exists c, st. split; [ exact H | ]. split; [ exact Hst | ].
  split; [ exact Hsize | exact Hrange ].
Defined.

(** The [__main__] log run on a grid that already has the cell (0, 0)
    marked. *)
Lemma coverage_grid_only_grows_witness :
  exists s,
    loop_state sample_layout (with_grid {[ (0, 0)%Z ]} initial_state)
      test_actions = Ok s
    /\ (0, 0)%Z ∈ grid s.
Proof.
  assert (H : { s | loop_state sample_layout
                      (with_grid {[ (0, 0)%Z ]} initial_state) test_actions
                    = Ok s }).
  { eexists. vm_compute. reflexivity. }
  destruct H as [s H]. exists s. split; [ exact H | ].
  destruct (coverage_grid_only_grows _ _ _ _ _ _ _ _ H) as (Hsub & _ & _).
  apply Hsub. cbn. apply elem_of_singleton. reflexivity.
Defined.

(** The [__main__] log presses the button once, at (590, 420): the
    centroid is (500, 350) on the 1000 x 700 canvas. *)
Lemma centroid_inside_canvas_witness :
  exists c,
    _calculate_drawing_centroid sample_layout test_actions = Ok (Some c)
    /\ 0 <= fst c < 1000 /\ 0 <= snd c < 700.
Proof.
  assert (H : { c | _calculate_drawing_centroid sample_layout test_actions
                    = Ok (Some c) }).
  { eexists. vm_compute. reflexivity. }
  destruct H as [c H]. exists c. split; [ exact H | ].
  exact (centroid_inside_canvas _ _ _ H).
Defined.

(** In the [__main__] log the pen is selected and then used. *)
Lemma tool_verification_sound_witness :
  _verify_tool_actually_used sample_layout test_actions "pen" = Ok (true, true)
  /\ dict_has (tool_positions sample_layout) "pen" = true.
Proof.
  assert (H : _verify_tool_actually_used sample_layout test_actions "pen"
              = Ok (true, true)).
  { vm_compute. reflexivity. }
  split; [ exact H | ].
  destruct (tool_verification_sound sample_sqrt sample_cos sample_sin
              sample_pi insertion_order insertion_order_difference _ _ _ _ _ H)
    as (_ & Hsel & _).
  destruct (Hsel eq_refl) as [Hhas _]. exact Hhas.
Defined.

(** One error more on the half-covered result. *)
Lemma more_diagnostics_never_raise_score_witness :
  exists s s',
    _calculate_score (with_diagnostics half_covered_results [] []) = Ok s
    /\ _calculate_score
         (with_diagnostics half_covered_results
            [syntax_error 0 MsgMissingActionField] []) = Ok s'
    /\ s' <= s.
Proof.
  assert (H : { s | _calculate_score
                      (with_diagnostics half_covered_results [] []) = Ok s }).
  { eexists. vm_compute. reflexivity. }
  assert (H' : { s | _calculate_score
                       (with_diagnostics half_covered_results
                          [syntax_error 0 MsgMissingActionField] []) = Ok s }).
  { eexists. vm_compute. reflexivity. }
  destruct H as [s H]. destruct H' as [s' H']. exists s, s'.
  split; [ exact H | ]. split; [ exact H' | ].
  apply (more_diagnostics_never_raise_score half_covered_results [] []
           [syntax_error 0 MsgMissingActionField] [] s s');
    [ cbn; lia | cbn; lia | exact H | exact H' ].
Defined.

(** A dot, without criteria: no error, no warning, score 1. *)
Lemma score_without_criteria_witness :
  exists r,
    ev sample_layout
       (VList [VDict (moveTo 590 420); VDict (bare "mouseDown");
               VDict (bare "mouseUp")]) VNone None = Ok r
    /\ criteria_met r = None
    /\ error_classification r = Some no_errors_classified
    /\ score r = Some 1.
Proof.
  assert (H : { r | ev sample_layout
                      (VList [VDict (moveTo 590 420); VDict (bare "mouseDown");
                              VDict (bare "mouseUp")]) VNone None = Ok r }).
  { eexists. vm_compute. reflexivity. }
  destruct H as [r H]. exists r. split; [ exact H | ].
  destruct (score_without_criteria _ _ _ _ _ _ _ _ _ _ _ _
              (eq_refl : criteria_truthy None = false) H)
    as (_ & Hm & Hc & Hs & _).
  split; [ exact Hm | ]. split; [ exact Hc | ].
  apply Hs; vm_compute in H; injection H as <-; reflexivity.
Defined.

(** The [__main__] log with its criteria. *)
Lemma classification_agrees_with_criteria_witness :
  exists r cls,
    ev sample_layout (VList (map VDict test_actions)) VNone (Some test_criteria)
    = Ok r
    /\ error_classification r = Some cls
    /\ syntax_errors cls = errors r.
Proof.
  assert (H : { r | ev sample_layout (VList (map VDict test_actions)) VNone
                      (Some test_criteria) = Ok r }).
  { eexists. vm_compute. reflexivity. }
  destruct H as [r H].
  destruct (classification_agrees_with_criteria _ _ _ _ _ _ _ _ _ _ _ _
              (eq_refl : criteria_truthy (Some test_criteria) = true) H)
    as (cls & met & Hc & _ & Hs & _).
  exists r, cls. split; [ exact H | ]. split; [ exact Hc | exact Hs ].
Defined.

(** A moveTo to x = 2000, right of the screen. *)
Lemma coordinate_error_names_axis_witness :
  exists d,
    In d (_check_coordinate_errors sample_str_to_float sample_layout
            [moveTo 2000 100])
    /\ d_index d = Some 0%Z.
Proof.
  destruct (_check_coordinate_errors sample_str_to_float sample_layout
              [moveTo 2000 100]) as [|d l] eqn:E;
    [ vm_compute in E; discriminate E | ].
  assert (Hin : In d (_check_coordinate_errors sample_str_to_float
                        sample_layout [moveTo 2000 100])).
  { rewrite E. left. reflexivity. }
  exists d. split; [ left; reflexivity | ].
  destruct (coordinate_error_names_axis _ _ _ _ Hin)
    as (i & action & Hn & Hi & _).
  destruct i as [|i]; [ exact Hi | ].
  destruct i; discriminate Hn.
Defined.

(** The context of the first action of the [__main__] log. *)
Lemma sequence_context_window_witness :
  (1 <= length (_get_action_sequence_context 0 test_actions) <= 5)%nat.
Proof.
  assert (H : (0 < length test_actions)%nat) by (cbn; lia).
  exact (proj1 (sequence_context_window 0 test_actions H)).
Defined.

(** The [__main__] log has ten actions. *)
Lemma list_log_diagnostics_witness :
  exists r,
    ev sample_layout (VList (map VDict test_actions)) VNone (Some test_criteria)
    = Ok r
    /\ counts_total (action_breakdown r) = 10%nat
    /\ (length (warnings r) <= 3)%nat.
Proof.
  assert (H : { r | ev sample_layout (VList (map VDict test_actions)) VNone
                      (Some test_criteria) = Ok r }).
  { eexists. vm_compute. reflexivity. }
  destruct H as [r H]. exists r. split; [ exact H | ].
  destruct (list_log_diagnostics _ _ _ _ _ _ _ _ _ _ _ _ H)
    as (_ & Hc & _ & _ & Hw).
  split; [ exact Hc | exact Hw ].
Defined.

(** Feedback for the result of a non-list input. *)
Lemma feedback_on_evaluate_results_witness :
  exists body s,
    generate_feedback not_a_list_result = Feedback (body ++ [ScoreLine s])
    /\ score not_a_list_result = Some s.
Proof.
  assert (H : ev sample_layout (VStr "draw a circle") VNone None
              = Ok not_a_list_result) by reflexivity.
  destruct (feedback_on_evaluate_results _ _ _ _ _ _ _ _ _ _ _ _ H)
    as (body & s & Hb & Hs & _).
  exists body, s. split; [ exact Hb | exact Hs ].
Defined.

(** The half-covered result has no tool_changes metric. *)
Lemma feedback_needs_metrics_witness :
  exists missing,
    generate_feedback half_covered_results = FeedbackFails (KeyError missing).
Proof.
  assert (Hk : In "tool_changes" feedback_metric_keys) by (left; reflexivity).
  assert (Hn : dict_get (metrics half_covered_results) "tool_changes" = None)
    by reflexivity.
  destruct (feedback_needs_metrics half_covered_results "tool_changes" Hk Hn)
    as (missing & Hf & _).
  exists missing. exact Hf.
Defined.

(** The half-covered result scores below the same result without
    criteria. *)
Lemma criteria_only_cost_points_witness :
  exists s,
    _calculate_score half_covered_results = Ok s
    /\ s <= clamp_score (with_bonus 10 (1 - 0 * 0.08 - 0 * 0.02)).
Proof.
  assert (H : { s | _calculate_score half_covered_results = Ok s }).
  { eexists. vm_compute. reflexivity. }
  destruct H as [s H]. exists s. split; [ exact H | ].
  exact (criteria_only_cost_points _ _ H).
Defined.


(** A log that only moves the pointer. *)
Lemma no_press_no_drawing_witness :
  _estimate_canvas_coverage sample_layout [moveTo 590 420; moveTo 640 420]
  = Ok 0
  /\ _count_drawing_segments [moveTo 590 420; moveTo 640 420] = 0%nat.
Proof.
  assert (H : count_action "mouseDown" [moveTo 590 420; moveTo 640 420]
              = 0%nat) by reflexivity.
  destruct (no_press_no_drawing sample_sqrt sample_cos sample_sin sample_pi
              sample_layout [moveTo 590 420; moveTo 640 420] H)
    as (Hc & Hs & _).
  split; [ exact Hc | exact Hs ].
Defined.

(** The [__main__] stroke against the prompt region "center", with the
    integer square root. *)
Lemma spatial_accuracy_in_unit_interval_witness :
  exists a,
    _evaluate_spatial_accuracy sample_sqrt sample_layout test_actions
      (Some "center") = Ok (Some a)
    /\ 0 <= a <= 1.
Proof.
  assert (H : { a | _evaluate_spatial_accuracy sample_sqrt sample_layout
                      test_actions (Some "center") = Ok (Some a) }).
  { eexists. vm_compute. reflexivity. }
  destruct H as [a H]. exists a. split; [ exact H | ].
  assert (Hsqrt : forall q, 0 <= sample_sqrt q).
  { intros q. unfold sample_sqrt. change 0 with (inject_Z 0).
    rewrite <- Zle_Qle. apply Z.sqrt_nonneg. }
  exact (spatial_accuracy_in_unit_interval sample_sqrt sample_layout
           test_actions (Some "center") a Hsqrt H).
Defined.
